(** * The trader session evaluation engine of [convex/trader.ts]

    A shallow embedding of the Convex module that drives one trading
    session (signal computation, reconciliation against the broker, order
    placement, session life cycle) together with the OANDA client of
    [convex/lib/oanda.ts], and the properties of the engine stated over it.

    Numbers.  A JavaScript [number] is an IEEE-754 binary64 value, which is
    what Rocq's primitive [float] is, so prices, averages, multipliers and
    thresholds are [float]s and every arithmetic operation and comparison
    below is the one the source performs, NaN included.  The two window
    lengths, array lengths and timestamps are integral and are modelled in
    [Z] (the dashboard edits the windows through integer inputs). *)

From Stdlib Require Import ZArith Floats Uint63 String Ascii List Bool Lia.
From stdpp Require Import base option list strings pretty sorting.

Local Open Scope string_scope.
Local Open Scope list_scope.
Local Open Scope Z_scope.
Set Warnings "-inexact-float".

(** ** JavaScript numbers *)

Module Js.

(** [Number.EPSILON], the gap between 1 and the next double: 2^-52. *)
Definition EPSILON : float := 0x1p-52%float.

Definition NaN : float := PrimFloat.nan.

(** The double of an array length. *)
Definition of_length (n : nat) : float :=
  PrimFloat.of_uint63 (Uint63.of_Z (Z.of_nat n)).

(** [x > y], [x < y], [x <= y] and [Math.abs] on numbers. *)
Definition gt (x y : float) : bool := PrimFloat.ltb y x.
Definition lt (x y : float) : bool := PrimFloat.ltb x y.
Definition le (x y : float) : bool := PrimFloat.leb x y.
Definition ge (x y : float) : bool := PrimFloat.leb y x.
Definition abs (x : float) : float := PrimFloat.abs x.

(** Truthiness of a number ([if (x)]): false for 0, -0 and NaN. *)
Definition truthy (x : float) : bool :=
  negb (PrimFloat.eqb x 0%float) && negb (PrimFloat.is_nan x).

(** Truthiness of a string: false for the empty string. *)
Definition truthy_string (s : string) : bool :=
  match s with EmptyString => false | _ => true end.

(** Truthiness of an optional string ([undefined] is falsy). *)
Definition truthy_ostring (o : option string) : bool :=
  match o with Some s => truthy_string s | None => false end.

(** [ToNumber] of a possibly [undefined] number: [undefined] is NaN. *)
Definition to_number (o : option float) : float :=
  match o with Some x => x | None => NaN end.

(** [a[i]] for an integral index: [undefined] out of range. *)
Definition index {A} (a : list A) (i : Z) : option A :=
  if i <? 0 then None else a !! Z.to_nat i.

(** [a.slice(start)] for an integral [start]: a negative start counts
    from the end, and both cases are clamped to the array. *)
Definition slice {A} (a : list A) (start : Z) : list A :=
  let len := Z.of_nat (length a) in
  let k := if start <? 0 then Z.max (len + start) 0 else Z.min start len in
  drop (Z.to_nat k) a.

(** [a.reduce((acc, value) => acc + value, 0)]. *)
Definition sum (a : list float) : float :=
  fold_left (fun acc value => (acc + value)%float) a 0%float.

End Js.

(** ** Signals, directions and the strategy configuration *)

Inductive TradingSignal := long | short | neutral.
Inductive TradingDirection := dir_long | dir_short.

Definition signal_of_direction (d : TradingDirection) : TradingSignal :=
  match d with dir_long => long | dir_short => short end.

Definition signal_eqb (a b : TradingSignal) : bool :=
  match a, b with
  | long, long | short, short | neutral, neutral => true
  | _, _ => false
  end.

Definition signal_name (s : TradingSignal) : string :=
  match s with long => "long" | short => "short" | neutral => "neutral" end.

Definition direction_name (d : TradingDirection) : string :=
  signal_name (signal_of_direction d).

Definition direction_upper (d : TradingDirection) : string :=
  match d with dir_long => "LONG" | dir_short => "SHORT" end.

(** [sessionConfigFields].  The two windows are whole numbers here.  The
    source declares them [v.number()], so a client can also store a
    fractional or a NaN window, for which the comparisons of
    [validateConfig] and [movingAverage] and the rounding of [slice] come
    out differently; every statement below that mentions a window is about
    whole-number windows. *)
Record SessionConfig := {
  name : string;
  instrument : string;
  granularity : string;
  shortWindow : Z;
  longWindow : Z;
  tradeUnits : float;
  takeProfitMultiplier : float;
  stopLossMultiplier : float;
  neutralThreshold : float;
}.

(** ** Results of code that may throw

    Every value the modelled code throws is an [Error]; [formatError]
    therefore always takes its first branch and yields the message. *)

Inductive outcome (A : Type) :=
| Ok (a : A)
| Throw (message : string).
Arguments Ok {A} a.
Arguments Throw {A} message.

Definition formatError (message : string) : string := message.

(** ** Signal calculator *)

Definition validateConfig (config : SessionConfig) : outcome unit :=
  if longWindow config <=? shortWindow config then
    Throw "Long window must be greater than short window."
  else if Js.le (tradeUnits config) 0 then
    Throw "Trade units must be greater than zero."
  else if Js.le (takeProfitMultiplier config) 0
          || Js.le (stopLossMultiplier config) 0 then
    Throw "Take profit and stop loss multipliers must be positive numbers."
  else if Js.lt (neutralThreshold config) 0 then
    Throw "Neutral threshold must be zero or positive."
  else Ok tt.

(** The result is [None] when the source returns [undefined], which it
    does for an empty series shorter than the window.  [length] is a whole
    number, as the windows it is called with are. *)
Definition movingAverage (series : list float) (length : Z) : option float :=
  let n := Z.of_nat (List.length series) in
  if n <? length then Js.index series (n - 1)
  else
    let window := Js.slice series (n - length) in
    Some (Js.sum window / Js.of_length (List.length window))%float.

Definition computeSignal (shortMA longMA neutralThreshold : float)
  : TradingSignal :=
  let diff := (shortMA - longMA)%float in
  if Js.lt (Js.abs longMA) Js.EPSILON then
    if Js.gt diff 0 then long else if Js.lt diff 0 then short else neutral
  else
    let ratio := (Js.abs diff / Js.abs longMA)%float in
    if Js.lt ratio neutralThreshold then neutral
    else if Js.gt diff 0 then long else short.

(** ** The persistent store

    Documents are kept in insertion order and a document's identifier is
    its position in its table; the engine never deletes a document. *)

Inductive SessionStatus := stopped | running | status_error.
Inductive PositionStatus := position_open | position_closed.
Inductive LogLevel := info | warn | level_error | trade | analysis.

(** A value stored in the free-form [details] of a log entry. *)
Inductive JsValue :=
| VUndefined
| VNumber (x : float)
| VString (s : string)
| VId (id : nat).

Definition VOptNumber (o : option float) : JsValue :=
  match o with Some x => VNumber x | None => VUndefined end.
Definition VOptString (o : option string) : JsValue :=
  match o with Some s => VString s | None => VUndefined end.

(** Modelled from the spec: the [traderSessions] table of [convex/schema.ts],
    which is not among the sources; the fields are the ones section 3 of the
    specification lists and the handlers read and write.  The configuration
    fields are stored flat in the source and grouped here. *)
Record TraderSession := {
  config : SessionConfig;
  status : SessionStatus;
  lastSignal : option TradingSignal;
  lastShortMA : option float;
  lastLongMA : option float;
  lastPrice : option float;
  lastEvaluationTime : option Z;
  errorMessage : option string;
  createdAt : Z;
  updatedAt : Z;
}.

(** Modelled from the spec: the [traderPositions] table of
    [convex/schema.ts] (not among the sources), as section 3 describes it. *)
Record TraderPosition := {
  p_sessionId : nat;
  direction : TradingDirection;
  units : float;
  entryPrice : float;
  takeProfitPrice : option float;
  stopLossPrice : option float;
  p_status : PositionStatus;
  oandaTradeId : option string;
  exitPrice : option float;
  realizedPnl : option float;
  closeReason : option string;
  openedAt : Z;
  closedAt : option Z;
}.

(** Modelled from the spec: the [traderLogs] table of [convex/schema.ts]
    (not among the sources), as section 3 describes it. *)
Record TraderLog := {
  l_sessionId : nat;
  level : LogLevel;
  message : string;
  details : option (list (string * JsValue));
  l_createdAt : Z;
}.

Record Db := {
  traderSessions : list TraderSession;
  traderPositions : list TraderPosition;
  traderLogs : list TraderLog;
}.

(** The object given to [ctx.db.patch] for a session: the fields it sets,
    in order.  [errorMessage] is the one field the handlers set to
    [undefined], which removes it from the document. *)
Inductive SessionField :=
| f_config (c : SessionConfig)
| f_status (s : SessionStatus)
| f_lastSignal (s : TradingSignal)
| f_lastShortMA (x : float)
| f_lastLongMA (x : float)
| f_lastPrice (x : float)
| f_lastEvaluationTime (t : Z)
| f_errorMessage (m : option string)
| f_updatedAt (t : Z).

Definition set_session_field (s : TraderSession) (f : SessionField)
  : TraderSession :=
  let '{| config := c; status := st; lastSignal := sg; lastShortMA := sm;
          lastLongMA := lm; lastPrice := lp; lastEvaluationTime := et;
          errorMessage := em; createdAt := ca; updatedAt := ua |} := s in
  match f with
  | f_config c' => Build_TraderSession c' st sg sm lm lp et em ca ua
  | f_status st' => Build_TraderSession c st' sg sm lm lp et em ca ua
  | f_lastSignal sg' => Build_TraderSession c st (Some sg') sm lm lp et em ca ua
  | f_lastShortMA x => Build_TraderSession c st sg (Some x) lm lp et em ca ua
  | f_lastLongMA x => Build_TraderSession c st sg sm (Some x) lp et em ca ua
  | f_lastPrice x => Build_TraderSession c st sg sm lm (Some x) et em ca ua
  | f_lastEvaluationTime t => Build_TraderSession c st sg sm lm lp (Some t) em ca ua
  | f_errorMessage m => Build_TraderSession c st sg sm lm lp et m ca ua
  | f_updatedAt t => Build_TraderSession c st sg sm lm lp et em ca t
  end.

Definition patch_session (patch : list SessionField) (s : TraderSession)
  : TraderSession :=
  fold_left set_session_field patch s.

(** The object given to [ctx.db.patch] for a position. *)
Inductive PositionField :=
| f_p_status (s : PositionStatus)
| f_closedAt (t : Z)
| f_closeReason (r : string)
| f_exitPrice (x : float)
| f_realizedPnl (x : float).

Definition set_position_field (p : TraderPosition) (f : PositionField)
  : TraderPosition :=
  let '{| p_sessionId := sid; direction := d; units := u; entryPrice := ep;
          takeProfitPrice := tp; stopLossPrice := sl; p_status := st;
          oandaTradeId := tid; exitPrice := xp; realizedPnl := pnl;
          closeReason := cr; openedAt := oa; closedAt := cl |} := p in
  match f with
  | f_p_status st' => Build_TraderPosition sid d u ep tp sl st' tid xp pnl cr oa cl
  | f_closedAt t => Build_TraderPosition sid d u ep tp sl st tid xp pnl cr oa (Some t)
  | f_closeReason r => Build_TraderPosition sid d u ep tp sl st tid xp pnl (Some r) oa cl
  | f_exitPrice x => Build_TraderPosition sid d u ep tp sl st tid (Some x) pnl cr oa cl
  | f_realizedPnl x => Build_TraderPosition sid d u ep tp sl st tid xp (Some x) cr oa cl
  end.

Definition patch_position (patch : list PositionField) (p : TraderPosition)
  : TraderPosition :=
  fold_left set_position_field patch p.

(** ** The broker's wire format ([convex/lib/oanda.ts])

    Only the fields the engine reads are kept. *)

Record OandaCandle := {
  complete : bool;
  time : string;
  mid_c : string;
}.

Record OandaOrderFill := {
  price : option string;
  fullPrice : option string;
  pl : option string;
  tradeOpened : option string;
  tradesOpened : option (list string);
  tradeReduced : option string;
  tradesClosed : option (list string);
}.

Record OandaOrderResponse := {
  orderFillTransaction : option OandaOrderFill;
  orderFillTransactions : option (list OandaOrderFill);
}.

Record OandaTrade := {
  id : option string;
  tradeID : option string;
}.

(** The JSON body of a reply, decoded at the type its reader casts it to. *)
Inductive Payload :=
| CandlesJson (candles : option (list OandaCandle))
| OrderJson (response : OandaOrderResponse)
| TradesJson (trades : option (list OandaTrade)).

(** What [fetch] does with a request: it rejects, or resolves to a
    response whose [json()] in turn yields a body or rejects. *)
Inductive Reply :=
| FetchRejected (message : string)
| HttpResponse (http_status : Z) (statusText : string) (text : string)
               (json : outcome Payload).

Inductive RequestBody :=
| OrderBody (instrument units : string)
            (takeProfitOnFill stopLossOnFill : option string)
| CloseBody (units : string).

Record Request := {
  url : string;
  query : list (string * string);
  method : string;
  authorization : string;
  contentType : option string;
  body : option RequestBody;
}.

(** ** The runtime the engine runs in

    The deployment's environment variables, the number and string
    conversions of the JavaScript runtime, the wall clock and the network.
    The clock and the network are read by position: [clock_reading k] is what
    the k-th reading of the clock returns and [network k r] is the reply
    to request [r] when [k] requests were issued before it. *)
Record Runtime := {
  OANDA_API_KEY : option string;
  OANDA_ACCOUNT_ID : option string;
  OANDA_API_URL : option string;
  parseFloat : string -> float;
  number_toString : float -> string;
  toFixed : float -> Z -> string;
  clock_reading : nat -> Z;
  network : nat -> Request -> Reply;
}.

(** A job handed to [ctx.scheduler.runAfter]. *)
Inductive Job :=
| job_evaluateSession (sessionId : nat) (reason : option string)
| job_closeSessionPositions (sessionId : nat) (reason : option string).

(** Everything an operation can change: the store, the scheduler's queue,
    the requests sent over the network so far, and how many times the clock
    was read. *)
Record World := {
  db : Db;
  scheduled : list Job;
  requests : list Request;
  clock : nat;
}.

(** ** Operations: state passing with exceptions

    An operation takes the world to an outcome and a new world.  A thrown
    exception keeps the world reached so far: Convex actions are not
    transactional.  Mutations are: see [runMutation]. *)

Definition Action (A : Type) : Type := World -> outcome A * World.

Definition ret {A} (a : A) : Action A := fun w => (Ok a, w).

Definition throw {A} (message : string) : Action A :=
  fun w => (Throw message, w).

Definition bind {A B} (m : Action A) (k : A -> Action B) : Action B :=
  fun w =>
    match m w with
    | (Ok a, w') => k a w'
    | (Throw message, w') => (Throw message, w')
    end.

(** [try { m } catch (error) { handler(formatError(error)) }]. *)
Definition try_catch {A} (m : Action A) (handler : string -> Action A)
  : Action A :=
  fun w =>
    match m w with
    | (Ok a, w') => (Ok a, w')
    | (Throw message, w') => handler message w'
    end.

Definition lift {A} (o : outcome A) : Action A := fun w => (o, w).

Declare Scope action_scope.
Delimit Scope action_scope with action.
Notation "x <- m ;; k" := (bind m (fun x => k))
  (at level 100, m at next level, right associativity) : action_scope.
Notation "m ;; k" := (bind m (fun _ => k))
  (at level 100, right associativity) : action_scope.
Local Open Scope action_scope.

(** [for (const x of xs) { await body(x) }]. *)
Fixpoint for_each {A} (xs : list A) (body : A -> Action unit) : Action unit :=
  match xs with
  | [] => ret tt
  | x :: rest => body x ;; for_each rest body
  end.

(** [w'] with the store and the scheduler's queue of [w]. *)
Definition rollback (w w' : World) : World :=
  {| db := db w; scheduled := scheduled w;
     requests := requests w'; clock := clock w' |}.

(** A mutation runs in a transaction: when it throws, its writes to the
    store and to the scheduler are rolled back. *)
Definition runMutation {A} (m : Action A) : Action A :=
  fun w =>
    match m w with
    | (Ok a, w') => (Ok a, w')
    | (Throw message, w') => (Throw message, rollback w w')
    end.

Definition runQuery {A} (q : Action A) : Action A := q.
Definition runAction {A} (a : Action A) : Action A := a.

Definition set_db (w : World) (d : Db) : World :=
  {| db := d; scheduled := scheduled w; requests := requests w;
     clock := clock w |}.

Section Engine.

Variable rt : Runtime.

(** *** Primitives of the host: clock, store, scheduler, network *)

(** [Date.now()]. *)
Definition Date_now : Action Z :=
  fun w =>
    (Ok (clock_reading rt (clock w)),
     {| db := db w; scheduled := scheduled w; requests := requests w;
        clock := S (clock w) |}).

Definition db_get_session (sessionId : nat) : Action (option TraderSession) :=
  fun w => (Ok (traderSessions (db w) !! sessionId), w).

Definition db_get_position (positionId : nat)
  : Action (option TraderPosition) :=
  fun w => (Ok (traderPositions (db w) !! positionId), w).

Definition nonexistent_document : string :=
  "Update on nonexistent document ID".

(** [ctx.db.patch] on a session; it throws when there is no such
    document. *)
Definition db_patch_session (sessionId : nat) (patch : list SessionField)
  : Action unit :=
  fun w =>
    match traderSessions (db w) !! sessionId with
    | Some s =>
        (Ok tt,
         set_db w
           {| traderSessions :=
                <[sessionId := patch_session patch s]> (traderSessions (db w));
              traderPositions := traderPositions (db w);
              traderLogs := traderLogs (db w) |})
    | None => (Throw nonexistent_document, w)
    end.

Definition db_patch_position (positionId : nat) (patch : list PositionField)
  : Action unit :=
  fun w =>
    match traderPositions (db w) !! positionId with
    | Some p =>
        (Ok tt,
         set_db w
           {| traderSessions := traderSessions (db w);
              traderPositions :=
                <[positionId := patch_position patch p]>
                  (traderPositions (db w));
              traderLogs := traderLogs (db w) |})
    | None => (Throw nonexistent_document, w)
    end.

(** [ctx.db.insert]: the new document goes last and its identifier is
    returned. *)
Definition db_insert_session (s : TraderSession) : Action nat :=
  fun w =>
    (Ok (length (traderSessions (db w))),
     set_db w
       {| traderSessions := traderSessions (db w) ++ [s];
          traderPositions := traderPositions (db w);
          traderLogs := traderLogs (db w) |}).

Definition db_insert_position (p : TraderPosition) : Action nat :=
  fun w =>
    (Ok (length (traderPositions (db w))),
     set_db w
       {| traderSessions := traderSessions (db w);
          traderPositions := traderPositions (db w) ++ [p];
          traderLogs := traderLogs (db w) |}).

Definition db_insert_log (l : TraderLog) : Action nat :=
  fun w =>
    (Ok (length (traderLogs (db w))),
     set_db w
       {| traderSessions := traderSessions (db w);
          traderPositions := traderPositions (db w);
          traderLogs := traderLogs (db w) ++ [l] |}).

(** [ctx.scheduler.runAfter(0, job)]. *)
Definition scheduler_runAfter (job : Job) : Action unit :=
  fun w =>
    (Ok tt,
     {| db := db w; scheduled := scheduled w ++ [job];
        requests := requests w; clock := clock w |}).

Record Response := {
  r_status : Z;
  r_statusText : string;
  r_text : string;
  r_json : outcome Payload;
}.

Definition r_ok (r : Response) : bool :=
  (200 <=? r_status r) && (r_status r <=? 299).

(** [fetch]: the request goes out, whatever the reply. *)
Definition fetch (request : Request) : Action Response :=
  fun w =>
    let w' := {| db := db w; scheduled := scheduled w;
                 requests := requests w ++ [request]; clock := clock w |} in
    match network rt (length (requests w)) request with
    | FetchRejected message => (Throw message, w')
    | HttpResponse st stText text json =>
        (Ok {| r_status := st; r_statusText := stText; r_text := text;
               r_json := json |}, w')
    end.

(** The [TypeError] of reading a property of [undefined]. *)
Definition read_of_undefined (property : string) : string :=
  "Cannot read properties of undefined (reading '" +:+ property +:+ "')".

(** *** The OANDA client ([convex/lib/oanda.ts]) *)

Definition DEFAULT_BASE_URL : string := "https://api-fxpractice.oanda.com/v3".

(** [s.replace(/\/$/, '')]. *)
Fixpoint strip_trailing_slash (s : string) : string :=
  match s with
  | EmptyString => EmptyString
  | String c EmptyString => if Ascii.eqb c "/" then EmptyString else s
  | String c rest => String c (strip_trailing_slash rest)
  end.

Definition baseUrl : string :=
  strip_trailing_slash
    (if Js.truthy_ostring (OANDA_API_URL rt)
     then default DEFAULT_BASE_URL (OANDA_API_URL rt)
     else DEFAULT_BASE_URL).

Definition requireApiKey : outcome string :=
  match OANDA_API_KEY rt with
  | Some key =>
      if Js.truthy_string key then Ok key
      else Throw "Missing OANDA_API_KEY environment variable. Set it to your OANDA REST API token to enable live trading."
  | None => Throw "Missing OANDA_API_KEY environment variable. Set it to your OANDA REST API token to enable live trading."
  end.

Definition requireAccountId : outcome string :=
  match OANDA_ACCOUNT_ID rt with
  | Some accountId =>
      if Js.truthy_string accountId then Ok accountId
      else Throw "Missing OANDA_ACCOUNT_ID environment variable. Set it to the practice or live account you wish to trade."
  | None => Throw "Missing OANDA_ACCOUNT_ID environment variable. Set it to the practice or live account you wish to trade."
  end.

Definition isOandaConfigured : bool :=
  Js.truthy_ostring (OANDA_API_KEY rt)
  && Js.truthy_ostring (OANDA_ACCOUNT_ID rt).

(** The result is [None] for a 204 reply, where the source returns
    [undefined]. *)
Definition oandaFetch (path : string) (params : list (string * string))
    (init_method : string) (init_body : option RequestBody)
  : Action (option Payload) :=
  apiKey <- lift requireApiKey ;;
  response <- fetch
    {| url := baseUrl +:+ path;
       query := params;
       method := init_method;
       authorization := "Bearer " +:+ apiKey;
       contentType :=
         match init_body with
         | Some _ => Some "application/json"
         | None => None
         end;
       body := init_body |} ;;
  if negb (r_ok response) then
    throw ("OANDA request failed (" +:+ pretty (r_status response) +:+ " "
           +:+ r_statusText response +:+ "): " +:+ r_text response)
  else if r_status response =? 204 then ret None
  else
    payload <- lift (r_json response) ;;
    ret (Some payload).

(** [count] is a whole number, as the windows it is computed from are;
    [pretty] is then what [toString] prints. *)
Definition fetchCandles (instrument granularity : string) (count : Z)
  : Action (list OandaCandle) :=
  let searchParams :=
    [("price", "M"); ("granularity", granularity);
     ("count", pretty (Z.min 5000 (Z.max 1 count)))] in
  result <- oandaFetch ("/instruments/" +:+ instrument +:+ "/candles")
              searchParams "GET" None ;;
  match result with
  | None => throw (read_of_undefined "candles")
  | Some (CandlesJson (Some candles)) => ret candles
  | Some _ => ret []
  end.

Definition no_fill : OandaOrderResponse :=
  {| orderFillTransaction := None; orderFillTransactions := None |}.

Definition as_order_response (result : option Payload)
  : option OandaOrderResponse :=
  match result with
  | None => None
  | Some (OrderJson response) => Some response
  | Some _ => Some no_fill
  end.

Definition placeMarketOrder (instrument : string) (units : float)
    (takeProfitPrice stopLossPrice : float)
  : Action (option OandaOrderResponse) :=
  accountId <- lift requireAccountId ;;
  let order :=
    OrderBody instrument (number_toString rt units)
      (if Js.truthy takeProfitPrice
       then Some (toFixed rt takeProfitPrice 5) else None)
      (if Js.truthy stopLossPrice
       then Some (toFixed rt stopLossPrice 5) else None) in
  result <- oandaFetch ("/accounts/" +:+ accountId +:+ "/orders") []
              "POST" (Some order) ;;
  ret (as_order_response result).

Definition closeTrade (tradeId : string)
  : Action (option OandaOrderResponse) :=
  accountId <- lift requireAccountId ;;
  result <- oandaFetch
              ("/accounts/" +:+ accountId +:+ "/trades/" +:+ tradeId
               +:+ "/close")
              [] "PUT" (Some (CloseBody "ALL")) ;;
  ret (as_order_response result).

Definition getOpenTrades : Action (list OandaTrade) :=
  accountId <- lift requireAccountId ;;
  result <- oandaFetch ("/accounts/" +:+ accountId +:+ "/openTrades") []
              "GET" None ;;
  match result with
  | None => throw (read_of_undefined "trades")
  | Some (TradesJson (Some trades)) => ret trades
  | Some _ => ret []
  end.

(** *** Queries and mutations of [convex/trader.ts] *)

Definition requireSession (session : option TraderSession) (sessionId : nat)
  : outcome TraderSession :=
  match session with
  | Some session => Ok session
  | None => Throw ("Trader session " +:+ pretty sessionId +:+ " not found")
  end.

Definition createSession (args : SessionConfig) : Action nat :=
  lift (validateConfig args) ;;
  now <- Date_now ;;
  sessionId <- db_insert_session
    {| config := args; status := stopped; lastSignal := Some neutral;
       lastShortMA := None; lastLongMA := None; lastPrice := None;
       lastEvaluationTime := None; errorMessage := None;
       createdAt := now; updatedAt := now |} ;;
  db_insert_log
    {| l_sessionId := sessionId; level := info;
       message := "Created trading session for " +:+ instrument args
                  +:+ " (" +:+ granularity args +:+ ")";
       details := None; l_createdAt := now |} ;;
  ret sessionId.

Definition updateSession (sessionId : nat) (config : SessionConfig)
  : Action unit :=
  lift (validateConfig config) ;;
  now <- Date_now ;;
  db_patch_session sessionId [f_config config; f_updatedAt now] ;;
  db_insert_log
    {| l_sessionId := sessionId; level := info;
       message := "Updated configuration for " +:+ instrument config;
       details := None; l_createdAt := now |} ;;
  ret tt.

Definition startSession (sessionId : nat) : Action unit :=
  found <- db_get_session sessionId ;;
  session <- lift (requireSession found sessionId) ;;
  match status session with
  | running => ret tt
  | _ =>
      now <- Date_now ;;
      db_patch_session sessionId
        [f_status running; f_updatedAt now; f_errorMessage None] ;;
      db_insert_log
        {| l_sessionId := sessionId; level := info;
           message := "Trading session started";
           details := None; l_createdAt := now |} ;;
      scheduler_runAfter (job_evaluateSession sessionId (Some "manual-start"))
  end.

Definition stopSession (sessionId : nat) (closePositions : option bool)
  : Action unit :=
  found <- db_get_session sessionId ;;
  session <- lift (requireSession found sessionId) ;;
  now <- Date_now ;;
  db_patch_session sessionId
    [f_status stopped; f_updatedAt now; f_errorMessage None] ;;
  db_insert_log
    {| l_sessionId := sessionId; level := info;
       message := "Trading session stopped";
       details := None; l_createdAt := now |} ;;
  if default true closePositions then
    scheduler_runAfter
      (job_closeSessionPositions sessionId (Some "manual-stop"))
  else ret tt.

Definition requestImmediateTick (sessionId : nat) : Action unit :=
  found <- db_get_session sessionId ;;
  lift (requireSession found sessionId) ;;
  now <- Date_now ;;
  db_insert_log
    {| l_sessionId := sessionId; level := info;
       message := "Manual tick requested";
       details := None; l_createdAt := now |} ;;
  scheduler_runAfter (job_evaluateSession sessionId (Some "manual-tick")).

Definition is_open_position_of (sessionId : nat) (p : TraderPosition) : bool :=
  Nat.eqb (p_sessionId p) sessionId
  && match p_status p with position_open => true | position_closed => false end.

(** The [by_session_status] index read at [(sessionId, 'open')]: the
    open positions of the session, oldest first, with their identifiers. *)
Definition open_positions_of (sessionId : nat) (d : Db)
  : list (nat * TraderPosition) :=
  filter (fun doc => is_open_position_of sessionId (snd doc) = true)
         (imap pair (traderPositions d)).

Definition getSessionState (sessionId : nat)
  : Action (option (TraderSession * list (nat * TraderPosition))) :=
  fun w =>
    match traderSessions (db w) !! sessionId with
    | None => (Ok None, w)
    | Some session => (Ok (Some (session, open_positions_of sessionId (db w))), w)
    end.

Definition is_running (s : TraderSession) : bool :=
  match status s with running => true | _ => false end.

Definition getActiveSessionIds : Action (list nat) :=
  fun w =>
    (Ok (map fst (List.filter (fun doc => is_running (snd doc))
                              (imap pair (traderSessions (db w))))), w).

Definition logEvent (sessionId : nat) (lvl : LogLevel) (msg : string)
    (dtl : option (list (string * JsValue))) : Action unit :=
  now <- Date_now ;;
  db_insert_log
    {| l_sessionId := sessionId; level := lvl; message := msg;
       details := dtl; l_createdAt := now |} ;;
  ret tt.

(** [if (x !== undefined) patch.field = x]. *)
Definition when_defined {A F} (field : A -> F) (x : option A) : list F :=
  match x with Some a => [field a] | None => [] end.

Definition updateAnalytics (sessionId : nat)
    (a_lastShortMA a_lastLongMA a_lastPrice : option float)
    (a_lastSignal : option TradingSignal)
    (a_lastEvaluationTime : option Z) (a_errorMessage : option string)
  : Action unit :=
  now <- Date_now ;;
  let patch :=
    ([f_updatedAt now]
     ++ when_defined f_lastShortMA a_lastShortMA
     ++ when_defined f_lastLongMA a_lastLongMA
     ++ when_defined f_lastPrice a_lastPrice
     ++ when_defined f_lastSignal a_lastSignal
     ++ when_defined f_lastEvaluationTime a_lastEvaluationTime
     ++ when_defined (fun m => f_errorMessage (Some m)) a_errorMessage)%list in
  db_patch_session sessionId patch.

Definition setStatus (sessionId : nat) (st : SessionStatus)
    (a_errorMessage : option string) : Action unit :=
  now <- Date_now ;;
  let patch :=
    ([f_status st; f_updatedAt now]
     ++ when_defined (fun m => f_errorMessage (Some m)) a_errorMessage)%list in
  db_patch_session sessionId patch.

(** What the argument validator of a mutation throws when a required
    field is [undefined]. *)
Definition missing_required_field (field : string) : string :=
  "ArgumentValidationError: Object is missing the required field `"
  +:+ field +:+ "`.".

(** [entryPrice] is declared [v.number()]: the call is rejected before
    the handler runs when the caller passes [undefined]. *)
Definition createPositionRecord (sessionId : nat) (dir : TradingDirection)
    (a_units : float) (a_entryPrice : option float)
    (a_takeProfitPrice a_stopLossPrice : option float)
    (a_oandaTradeId : option string) : Action unit :=
  match a_entryPrice with
  | None => throw (missing_required_field "entryPrice")
  | Some a_entryPrice =>
      openedAt_now <- Date_now ;;
      db_insert_position
        {| p_sessionId := sessionId; direction := dir; units := a_units;
           entryPrice := a_entryPrice;
           takeProfitPrice := a_takeProfitPrice;
           stopLossPrice := a_stopLossPrice;
           p_status := position_open; oandaTradeId := a_oandaTradeId;
           exitPrice := None; realizedPnl := None; closeReason := None;
           openedAt := openedAt_now; closedAt := None |} ;;
      now <- Date_now ;;
      db_patch_session sessionId [f_updatedAt now]
  end.

Definition closePositionRecord (positionId : nat)
    (a_exitPrice a_realizedPnl : option float) (a_closeReason : string)
  : Action unit :=
  found <- db_get_position positionId ;;
  match found with
  | None => ret tt
  | Some position =>
      closedAt_now <- Date_now ;;
      let patch :=
        ([f_p_status position_closed; f_closedAt closedAt_now;
          f_closeReason a_closeReason]
         ++ when_defined f_exitPrice a_exitPrice
         ++ when_defined f_realizedPnl a_realizedPnl)%list in
      db_patch_position positionId patch ;;
      now <- Date_now ;;
      db_patch_session (p_sessionId position) [f_updatedAt now]
  end.

(** *** Order executor *)

(** [response.orderFillTransaction ?? response.orderFillTransactions?.[0]]. *)
Definition first_fill (response : OandaOrderResponse) : option OandaOrderFill :=
  match orderFillTransaction response with
  | Some fill => Some fill
  | None =>
      match orderFillTransactions response with
      | Some fills => head fills
      | None => None
      end
  end.

Definition extractTradeId (response : OandaOrderResponse) : option string :=
  match first_fill response with
  | None => None
  | Some fill =>
      if Js.truthy_ostring (tradeOpened fill) then tradeOpened fill
      else
        match tradesOpened fill with
        | Some (tradeId :: _) => Some tradeId
        | _ =>
            if Js.truthy_ostring (tradeReduced fill) then tradeReduced fill
            else
              match tradesClosed fill with
              | Some (tradeId :: _) => Some tradeId
              | _ => None
              end
        end
  end.

(** The price the broker reports for a fill, else [fallback]:
    [if (fill?.price) ... else if (fill?.fullPrice?.price) ...]. *)
Definition fill_price (fill : option OandaOrderFill) (fallback : option float)
  : option float :=
  match fill with
  | None => fallback
  | Some fill =>
      if Js.truthy_ostring (price fill)
      then Some (parseFloat rt (default "" (price fill)))
      else if Js.truthy_ostring (fullPrice fill)
      then Some (parseFloat rt (default "" (fullPrice fill)))
      else fallback
  end.

(** The three values [openPositionWithBroker] computes before it
    talks to the broker: [units], [takeProfitPrice], [stopLossPrice]. *)
Definition order_units (session : TraderSession) (direction : TradingDirection)
  : float :=
  (Js.abs (tradeUnits (config session))
   * match direction with dir_long => 1 | dir_short => -1 end)%float.

Definition order_takeProfitPrice (session : TraderSession)
    (direction : TradingDirection) (marketPrice : float) : float :=
  match direction with
  | dir_long => (marketPrice * (1 + takeProfitMultiplier (config session)))%float
  | dir_short => (marketPrice * (1 - takeProfitMultiplier (config session)))%float
  end.

Definition order_stopLossPrice (session : TraderSession)
    (direction : TradingDirection) (marketPrice : float) : float :=
  match direction with
  | dir_long => (marketPrice * (1 - stopLossMultiplier (config session)))%float
  | dir_short => (marketPrice * (1 + stopLossMultiplier (config session)))%float
  end.

(** [marketPrice] is [None] when the caller passes [undefined], which
    [evaluateSession] does when there is no closing price at all. *)
Definition openPositionWithBroker (sessionId : nat) (session : TraderSession)
    (signal : TradingDirection) (marketPrice : option float) : Action unit :=
  let direction := signal in
  let units := order_units session direction in
  let takeProfitPrice :=
    order_takeProfitPrice session direction (Js.to_number marketPrice) in
  let stopLossPrice :=
    order_stopLossPrice session direction (Js.to_number marketPrice) in
  filled <-
    (if isOandaConfigured then
       response <- placeMarketOrder (instrument (config session)) units
                     takeProfitPrice stopLossPrice ;;
       match response with
       | None => throw (read_of_undefined "orderFillTransaction")
       | Some response =>
           ret (extractTradeId response,
                fill_price (first_fill response) marketPrice)
       end
     else ret (None, marketPrice)) ;;
  let tradeId := fst filled in
  let entryPrice := snd filled in
  runMutation
    (createPositionRecord sessionId direction units entryPrice
       (Some takeProfitPrice) (Some stopLossPrice) tradeId) ;;
  runMutation
    (logEvent sessionId trade
       ("Opened " +:+ direction_upper direction +:+ " position ("
        +:+ number_toString rt units +:+ " units)")
       (Some [("tradeId", VOptString tradeId);
              ("entryPrice", VOptNumber entryPrice);
              ("takeProfitPrice", VNumber takeProfitPrice);
              ("stopLossPrice", VNumber stopLossPrice)])).

Definition closePositionWithBroker (sessionId : nat) (session : TraderSession)
    (position : nat * TraderPosition) (marketPrice : option float)
    (reason : string) : Action unit :=
  closed <-
    (if Js.truthy_ostring (oandaTradeId (snd position)) && isOandaConfigured
     then
       response <- closeTrade (default "" (oandaTradeId (snd position))) ;;
       match response with
       | None => throw (read_of_undefined "orderFillTransaction")
       | Some response =>
           let fill := first_fill response in
           ret (fill_price fill marketPrice,
                match fill with
                | Some fill =>
                    if Js.truthy_ostring (pl fill)
                    then Some (parseFloat rt (default "" (pl fill)))
                    else None
                | None => None
                end)
       end
     else ret (marketPrice, None)) ;;
  let exitPrice := fst closed in
  let realizedPnl := snd closed in
  runMutation
    (closePositionRecord (fst position) exitPrice realizedPnl reason) ;;
  runMutation
    (logEvent sessionId trade
       ("Closed position " +:+ pretty (fst position) +:+ " (" +:+ reason
        +:+ ")")
       (Some [("tradeId", VOptString (oandaTradeId (snd position)));
              ("exitPrice", VOptNumber exitPrice);
              ("realizedPnl", VOptNumber realizedPnl)])).

Definition closeSessionPositions (sessionId : nat) (reason : option string)
  : Action unit :=
  state <- runQuery (getSessionState sessionId) ;;
  match state with
  | None => ret tt
  | Some (session, openPositions) =>
      for_each openPositions (fun position =>
        closePositionWithBroker sessionId session position
          (Some (default (entryPrice (snd position)) (lastPrice session)))
          (default "manual" reason))
  end.

(** *** Session evaluator

    [evaluateSession] is one function in the source; its reconciliation
    block (lines 439-465), its closing block (467-485), its opening
    block (487-490) and its [catch] block (491-503) are named here, and
    so is the stretch from the analytics to the closing block (420-485). *)

Definition refreshed_open_positions (sessionId : nat)
  : Action (list (nat * TraderPosition)) :=
  state <- runQuery (getSessionState sessionId) ;;
  ret (match state with
       | Some (_, openPositions) => openPositions
       | None => []
       end).

(** [trade.id ?? trade.tradeID ?? '']. *)
Definition live_id (t : OandaTrade) : string :=
  match id t with
  | Some i => i
  | None => default "" (tradeID t)
  end.

(** [liveIds.has(tradeId)]. *)
Definition has (liveIds : list string) (tradeId : string) : bool :=
  existsb (String.eqb tradeId) liveIds.

(** The body of the reconciliation loop for one local position. *)
Definition reconcilePosition (sessionId : nat) (liveIds : list string)
    (latestPrice : option float) (position : nat * TraderPosition)
  : Action unit :=
  if Js.truthy_ostring (oandaTradeId (snd position))
     && negb (has liveIds (default "" (oandaTradeId (snd position))))
  then
    runMutation
      (closePositionRecord (fst position) latestPrice None "broker-closed") ;;
    runMutation
      (logEvent sessionId trade "Detected broker-closed position"
         (Some [("positionId", VId (fst position));
                ("tradeId", VOptString (oandaTradeId (snd position)))]))
  else ret tt.

Definition reconcilePositions (sessionId : nat)
    (openPositions : list (nat * TraderPosition))
    (latestPrice : option float) : Action (list (nat * TraderPosition)) :=
  if negb (Nat.eqb (length openPositions) 0) && isOandaConfigured then
    try_catch
      (liveTrades <- getOpenTrades ;;
       let liveIds := map live_id liveTrades in
       for_each openPositions
         (reconcilePosition sessionId liveIds latestPrice) ;;
       refreshed_open_positions sessionId)
      (fun error =>
         runMutation
           (logEvent sessionId warn
              ("Failed to sync open trades: " +:+ formatError error) None) ;;
         ret openPositions)
  else ret openPositions.

Definition closeOnSignal (sessionId : nat) (session : TraderSession)
    (openPositions : list (nat * TraderPosition)) (signal : TradingSignal)
    (latestPrice : option float) : Action (list (nat * TraderPosition)) :=
  match head openPositions with
  | Some activePosition =>
      if signal_eqb signal neutral
         || negb (signal_eqb signal
                    (signal_of_direction (direction (snd activePosition))))
      then
        runMutation
          (logEvent sessionId info "Signal requires closing current position"
             (Some [("signal", VString (signal_name signal));
                    ("activeDirection",
                     VString (direction_name (direction (snd activePosition))))])) ;;
        closePositionWithBroker sessionId session activePosition latestPrice
          (if signal_eqb signal neutral then "neutral-signal"
           else "signal-flip") ;;
        refreshed_open_positions sessionId
      else ret openPositions
  | None => ret openPositions
  end.

(** The guard of line 487. *)
Definition opens_position (openPositions : list (nat * TraderPosition))
    (signal previousSignal : TradingSignal) : bool :=
  Nat.eqb (length openPositions) 0
  && negb (signal_eqb signal neutral)
  && negb (signal_eqb signal previousSignal).

(** The opening block.  [openPositionWithBroker] takes a direction; the
    guard has excluded the neutral signal when it is called. *)
Definition openOnSignal (sessionId : nat) (session : TraderSession)
    (openPositions : list (nat * TraderPosition))
    (signal previousSignal : TradingSignal) (latestPrice : option float)
  : Action unit :=
  if opens_position openPositions signal previousSignal then
    runMutation
      (logEvent sessionId info "Attempting to open new position"
         (Some [("signal", VString (signal_name signal))])) ;;
    match signal with
    | long => openPositionWithBroker sessionId session dir_long latestPrice
    | short => openPositionWithBroker sessionId session dir_short latestPrice
    | neutral => ret tt
    end
  else ret tt.

(** The [catch] block of [evaluateSession]. *)
Definition evaluationFailed (sessionId : nat) (error : string) : Action unit :=
  let message := formatError error in
  runMutation
    (logEvent sessionId level_error ("Evaluation failed: " +:+ message) None) ;;
  runMutation (setStatus sessionId status_error (Some message)).

(** What the tick knows once the signal is computed. *)
Record Analysis := {
  a_shortMA : option float;
  a_longMA : option float;
  a_latestPrice : option float;
  a_previousSignal : TradingSignal;
  a_signal : TradingSignal;
}.

Definition closing_prices (candles : list OandaCandle) : list float :=
  map (fun candle => parseFloat rt (mid_c candle))
      (List.filter complete candles).

(** Lines 414-418: the two averages, the latest price, the previously
    recorded signal and the new one. *)
Definition analyse (session : TraderSession) (closes : list float) : Analysis :=
  let shortMA := movingAverage closes (shortWindow (config session)) in
  let longMA := movingAverage closes (longWindow (config session)) in
  {| a_shortMA := shortMA;
     a_longMA := longMA;
     a_latestPrice := Js.index closes (Z.of_nat (length closes) - 1);
     a_previousSignal := default neutral (lastSignal session);
     a_signal :=
       computeSignal (Js.to_number shortMA) (Js.to_number longMA)
         (neutralThreshold (config session)) |}.

(** Lines 420-485: record the analytics, log the analysis, reconcile
    and close; the result is the local list of open positions the opening
    block then looks at. *)
Definition settle (sessionId : nat) (session : TraderSession)
    (openPositions : list (nat * TraderPosition)) (reason : option string)
    (a : Analysis) : Action (list (nat * TraderPosition)) :=
  evaluationTime <- Date_now ;;
  runMutation
    (updateAnalytics sessionId (a_shortMA a) (a_longMA a)
       (a_latestPrice a) (Some (a_signal a)) (Some evaluationTime) None) ;;
  runMutation
    (logEvent sessionId analysis "Tick processed"
       (Some [("shortMA", VOptNumber (a_shortMA a));
              ("longMA", VOptNumber (a_longMA a));
              ("latestPrice", VOptNumber (a_latestPrice a));
              ("signal", VString (signal_name (a_signal a)));
              ("previousSignal",
               VString (signal_name (a_previousSignal a)));
              ("reason", VString (default "scheduled" reason))])) ;;
  reconciled <- reconcilePositions sessionId openPositions
                  (a_latestPrice a) ;;
  closeOnSignal sessionId session reconciled (a_signal a) (a_latestPrice a).

(** The [try] block of [evaluateSession]. *)
Definition evaluate (sessionId : nat) (session : TraderSession)
    (openPositions : list (nat * TraderPosition)) (reason : option string)
  : Action unit :=
  let maxLookback :=
    Z.max (longWindow (config session) * 2)
          (longWindow (config session) + 5) in
  candles <- fetchCandles (instrument (config session))
               (granularity (config session)) maxLookback ;;
  let closes := closing_prices candles in
  if Z.of_nat (length closes) <? longWindow (config session) then
    runMutation
      (logEvent sessionId warn
         ("Not enough historical candles to evaluate strategy (have "
          +:+ pretty (length closes) +:+ ", need "
          +:+ pretty (longWindow (config session)) +:+ ")") None)
  else
    let a := analyse session closes in
    remaining <- settle sessionId session openPositions reason a ;;
    openOnSignal sessionId session remaining (a_signal a)
      (a_previousSignal a) (a_latestPrice a).

Definition evaluateSession (sessionId : nat) (reason : option string)
  : Action unit :=
  state <- runQuery (getSessionState sessionId) ;;
  match state with
  | None => ret tt
  | Some (session, openPositions) =>
      if negb (is_running session) then ret tt
      else
        try_catch (evaluate sessionId session openPositions reason)
                  (evaluationFailed sessionId)
  end.

Definition tickActiveSessions : Action unit :=
  sessionIds <- runQuery getActiveSessionIds ;;
  for_each sessionIds (fun sessionId =>
    runAction (evaluateSession sessionId None)).

End Engine.

(** ** Public queries of [convex/trader.ts] and what the dashboard makes of them

    A query only reads.  [order('desc')] is newest first, which is the
    table in reverse; documents come with their identifiers. *)

Definition listSessions : Action (list (nat * TraderSession)) :=
  fun w => (Ok (reverse (imap pair (traderSessions (db w)))), w).

Definition sessionById (sessionId : nat) : Action (option TraderSession) :=
  fun w => (Ok (traderSessions (db w) !! sessionId), w).

(** [args.limit ?? 100] is clamped to 1..500.  [limit] is a whole number
    here: what the store's [take] does with a fractional or NaN limit is
    not in this source. *)
Definition listLogs (sessionId : option nat) (limit : option Z)
  : Action (list (nat * TraderLog)) :=
  fun w =>
    match sessionId with
    | None => (Ok [], w)
    | Some sessionId =>
        let limit := Z.min 500 (Z.max 1 (default 100 limit)) in
        (Ok (take (Z.to_nat limit)
               (reverse
                  (filter (fun doc => l_sessionId (snd doc) = sessionId)
                          (imap pair (traderLogs (db w)))))), w)
    end.

Definition listPositions (sessionId : option nat)
  : Action (list (nat * TraderPosition)) :=
  fun w =>
    match sessionId with
    | None => (Ok [], w)
    | Some sessionId =>
        (Ok (reverse
               (filter (fun doc => p_sessionId (snd doc) = sessionId)
                       (imap pair (traderPositions (db w))))), w)
    end.

(** [TraderDashboard]'s [openPositions]:
    [positions?.filter((position) => position.status !== 'closed') ?? []]. *)
Definition dashboard_openPositions
    (positions : option (list (nat * TraderPosition)))
  : list (nat * TraderPosition) :=
  match positions with
  | Some positions =>
      filter (fun doc =>
                match p_status (snd doc) with
                | position_closed => false
                | position_open => true
                end = true) positions
  | None => []
  end.

(** ** The engine's entry points

    The public mutations, each a transaction, and the actions the
    scheduler runs.  The internal queries and mutations are reachable only
    through these, and the public queries only read. *)

Inductive Operation :=
| op_createSession (args : SessionConfig)
| op_updateSession (sessionId : nat) (config : SessionConfig)
| op_startSession (sessionId : nat)
| op_stopSession (sessionId : nat) (closePositions : option bool)
| op_requestImmediateTick (sessionId : nat)
| op_closeSessionPositions (sessionId : nat) (reason : option string)
| op_tickActiveSessions
| op_evaluateSession (sessionId : nat) (reason : option string).

Definition run (rt : Runtime) (op : Operation) : Action unit :=
  match op with
  | op_createSession args =>
      runMutation (createSession rt args ;; ret tt)
  | op_updateSession sessionId config =>
      runMutation (updateSession rt sessionId config)
  | op_startSession sessionId => runMutation (startSession rt sessionId)
  | op_stopSession sessionId closePositions =>
      runMutation (stopSession rt sessionId closePositions)
  | op_requestImmediateTick sessionId =>
      runMutation (requestImmediateTick rt sessionId)
  | op_closeSessionPositions sessionId reason =>
      closeSessionPositions rt sessionId reason
  | op_tickActiveSessions => tickActiveSessions rt
  | op_evaluateSession sessionId reason => evaluateSession rt sessionId reason
  end.

(** The world after an operation, whether it returned or threw. *)
Definition after (rt : Runtime) (op : Operation) (w : World) : World :=
  snd (run rt op w).

(** ** Concrete runtimes and worlds used in the examples *)

Module Demo.

Definition parse_table : list (string * float) :=
  [("99", 99%float); ("100", 100%float); ("101", 101%float);
   ("104", 104%float); ("110", 110%float)].

Fixpoint lookup_float (s : string) (table : list (string * float)) : float :=
  match table with
  | [] => Js.NaN
  | (k, x) :: rest => if String.eqb s k then x else lookup_float s rest
  end.

Definition parse (s : string) : float := lookup_float s parse_table.

Definition candle (c : string) : OandaCandle :=
  {| complete := true; time := "t"; mid_c := c |}.

Definition rising : list OandaCandle :=
  [candle "100"; candle "100"; candle "100"; candle "110"].

Definition is_candles (r : Request) : bool :=
  String.eqb (method r) "GET" && negb (Nat.eqb (length (query r)) 0).

(** Candles are served; every other request is answered by [other]. *)
Definition serve (candles : list OandaCandle) (other : Reply)
    (k : nat) (r : Request) : Reply :=
  if is_candles r then HttpResponse 200 "OK" "" (Ok (CandlesJson (Some candles)))
  else other.

Definition runtime (account : option string) (candles : list OandaCandle)
    (other : Reply) : Runtime :=
  {| OANDA_API_KEY := Some "key";
     OANDA_ACCOUNT_ID := account;
     OANDA_API_URL := None;
     parseFloat := parse;
     number_toString := fun _ => "n";
     toFixed := fun _ _ => "n.00000";
     clock_reading := fun k => 1000 + Z.of_nat k;
     network := serve candles other |}.

(** Paper trading: candles can be fetched, no account is configured. *)
Definition paper : Runtime :=
  runtime None rising (HttpResponse 404 "Not Found" "" (Throw "no body")).

(** Broker configured, and it refuses every order. *)
Definition refusing : Runtime :=
  runtime (Some "acct") rising
    (HttpResponse 400 "Bad Request" "insufficient margin" (Throw "no body")).

(** Broker configured; it lists one open trade, "T1". *)
Definition broker : Runtime :=
  runtime (Some "acct") rising
    (HttpResponse 200 "OK" ""
       (Ok (TradesJson (Some [ {| id := Some "T1"; tradeID := None |} ])))).

Definition cfg (short_w long_w : Z) : SessionConfig :=
  {| name := "demo"; instrument := "EUR_USD"; granularity := "M5";
     shortWindow := short_w; longWindow := long_w;
     tradeUnits := 10%float; takeProfitMultiplier := 0.5%float;
     stopLossMultiplier := 0.25%float; neutralThreshold := 0.01%float |}.

Definition session (st : SessionStatus) (c : SessionConfig)
    (err : option string) : TraderSession :=
  {| config := c; status := st; lastSignal := Some neutral;
     lastShortMA := None; lastLongMA := None; lastPrice := None;
     lastEvaluationTime := None; errorMessage := err;
     createdAt := 0; updatedAt := 0 |}.

Definition world (sessions : list TraderSession)
    (positions : list TraderPosition) : World :=
  {| db := {| traderSessions := sessions; traderPositions := positions;
              traderLogs := [] |};
     scheduled := []; requests := []; clock := 0 |}.

Definition position (tradeId : option string) (d : TradingDirection)
  : TraderPosition :=
  {| p_sessionId := 0; direction := d; units := 10%float;
     entryPrice := 100%float; takeProfitPrice := None;
     stopLossPrice := None; p_status := position_open;
     oandaTradeId := tradeId; exitPrice := None; realizedPnl := None;
     closeReason := None; openedAt := 0; closedAt := None |}.

End Demo.

(** Further runtimes and worlds for the examples of the second part. *)
Module Scenario.

(** No API key at all. *)
Definition keyless : Runtime :=
  {| OANDA_API_KEY := None;
     OANDA_ACCOUNT_ID := Some "acct";
     OANDA_API_URL := None;
     parseFloat := Demo.parse;
     number_toString := fun _ => "n";
     toFixed := fun _ _ => "n.00000";
     clock_reading := fun k => 1000 + Z.of_nat k;
     network := Demo.serve Demo.rising (FetchRejected "unreachable") |}.

Definition falling : list OandaCandle :=
  [Demo.candle "110"; Demo.candle "110"; Demo.candle "110"; Demo.candle "99"].

Definition flat : list OandaCandle :=
  [Demo.candle "100"; Demo.candle "100"; Demo.candle "100"; Demo.candle "100"].

(** Paper trading on a falling, and on a flat, market. *)
Definition paper_falling : Runtime :=
  Demo.runtime None falling (FetchRejected "unreachable").

Definition paper_flat : Runtime :=
  Demo.runtime None flat (FetchRejected "unreachable").

(** Broker configured; closing a trade fills at 104 with a profit of 101. *)
Definition closing : Runtime :=
  Demo.runtime (Some "acct") Demo.rising
    (HttpResponse 200 "OK" ""
       (Ok (OrderJson
              {| orderFillTransaction :=
                   Some {| price := Some "104"; fullPrice := None;
                           pl := Some "101"; tradeOpened := None;
                           tradesOpened := None; tradeReduced := None;
                           tradesClosed := Some ["T1"] |};
                 orderFillTransactions := None |}))).

Definition session_with (st : SessionStatus) (c : SessionConfig)
    (sg : TradingSignal) : TraderSession :=
  {| config := c; status := st; lastSignal := Some sg;
     lastShortMA := None; lastLongMA := None; lastPrice := None;
     lastEvaluationTime := None; errorMessage := None;
     createdAt := 0; updatedAt := 0 |}.

Definition log_of (sessionId : nat) (msg : string) : TraderLog :=
  {| l_sessionId := sessionId; level := info; message := msg;
     details := None; l_createdAt := 0 |}.

End Scenario.

(** ** Vocabulary of the properties

    The relations and predicates the statements below are phrased with. *)

(** [keeps R m]: from every world, [m] ends in a world related to it by
    [R], whether it returns or throws. *)
Definition keeps {A} (R : World -> World -> Prop) (m : Action A) : Prop :=
  forall w, R w (snd (m w)).

(** A relation frames the operations when it is a preorder that survives
    the rollback of a mutation. *)
Record Framing (R : World -> World -> Prop) : Prop := {
  framing_refl : forall w, R w w;
  framing_trans : forall w1 w2 w3, R w1 w2 -> R w2 w3 -> R w1 w3;
  framing_rollback : forall w w', R w w' -> R w (rollback w w');
}.

(** The component [f] of the world is left as it was. *)
Definition same {X} (f : World -> X) (w w' : World) : Prop := f w' = f w.

(** The three tables of the store. *)
Definition positions_of (w : World) : list TraderPosition :=
  traderPositions (db w).

Definition sessions_of (w : World) : list TraderSession :=
  traderSessions (db w).

Definition logs_of (w : World) : list TraderLog := traderLogs (db w).

(** [throws P m]: every message [m] throws satisfies [P]. *)
Definition throws {A} (P : string -> Prop) (m : Action A) : Prop :=
  forall w message w', m w = (Throw message, w') -> P message.

(** The runtime's own failures, a rejected [fetch] and a rejected
    [json()], carry a message. *)
Definition failures_have_messages (rt : Runtime) : Prop :=
  forall k request,
    match network rt k request with
    | FetchRejected message => message <> ""
    | HttpResponse _ _ _ (Throw message) => message <> ""
    | HttpResponse _ _ _ (Ok _) => True
    end.

Definition nonempty (message : string) : Prop := message <> "".

(** A session document, once stored, stays stored. *)
Definition session_stays (sessionId : nat) (w w' : World) : Prop :=
  is_Some (sessions_of w !! sessionId) -> is_Some (sessions_of w' !! sessionId).

(** The document [createPositionRecord] inserts. *)
Definition opened_position (sessionId : nat) (session : TraderSession)
    (dir : TradingDirection) (marketPrice entry : float)
    (tradeId : option string) (t : Z) : TraderPosition :=
  {| p_sessionId := sessionId; direction := dir;
     units := order_units session dir; entryPrice := entry;
     takeProfitPrice := Some (order_takeProfitPrice session dir marketPrice);
     stopLossPrice := Some (order_stopLossPrice session dir marketPrice);
     p_status := position_open; oandaTradeId := tradeId;
     exitPrice := None; realizedPnl := None; closeReason := None;
     openedAt := t; closedAt := None |}.

(** The test of the reconciliation loop: the position holds a broker
    trade identifier and the broker does not list it as open. *)
Definition stale (liveIds : list string) (p : TraderPosition) : bool :=
  Js.truthy_ostring (oandaTradeId p)
  && negb (has liveIds (default "" (oandaTradeId p))).

(** What [closePositionRecord] makes of a position when it is called
    without a realized P&L. *)
Definition closed_as (reason : string) (price : option float)
    (p p' : TraderPosition) : Prop :=
  exists t,
    p' = patch_position
           ([f_p_status position_closed; f_closedAt t; f_closeReason reason]
            ++ when_defined f_exitPrice price
            ++ when_defined f_realizedPnl None) p.

(** The stored session satisfies [Q]. *)
Definition holds (Q : TraderSession -> Prop) (sessionId : nat) (w : World)
  : Prop :=
  exists s, sessions_of w !! sessionId = Some s /\ Q s.

(** If the stored session satisfied [Q], it still does. *)
Definition retains (Q : TraderSession -> Prop) (sessionId : nat)
    (w w' : World) : Prop :=
  holds Q sessionId w -> holds Q sessionId w'.

(** A patch under which [Q] survives. *)
Definition harmless (Q : TraderSession -> Prop) (patch : list SessionField)
  : Prop :=
  forall s, Q s -> Q (patch_session patch s).

(** The session is in status [error] with message [m] recorded. *)
Definition failed_with (m : string) (s : TraderSession) : Prop :=
  status s = status_error /\ errorMessage s = Some m.

Definition in_error (sessionId : nat) (m : string) (w : World) : Prop :=
  holds (failed_with m) sessionId w.

(** How many position documents there are, open or closed. *)
Definition position_count (w : World) : nat := length (positions_of w).

(** A number the validator lets through where it asks for a positive
    one: it is positive, or it is NaN, for which every comparison fails. *)
Definition positive_or_nan (x : float) : Prop :=
  PrimFloat.is_nan x = true \/ Js.gt x 0 = true.

Definition nonnegative_or_nan (x : float) : Prop :=
  PrimFloat.is_nan x = true \/ Js.ge x 0 = true.

(** The log only grows at its end. *)
Definition extends_logs (w w' : World) : Prop :=
  exists entries, logs_of w' = logs_of w ++ entries.

(** What a position is opened with. *)
Definition opening_data (p : TraderPosition)
  : nat * TradingDirection * float * float * option float * option float
    * option string * Z :=
  (p_sessionId p, direction p, units p, entryPrice p, takeProfitPrice p,
   stopLossPrice p, oandaTradeId p, openedAt p).

(** Every position is still there, with the data it was opened with, and
    closed if it was closed. *)
Definition positions_kept (w w' : World) : Prop :=
  forall i p,
    positions_of w !! i = Some p ->
    exists p',
      positions_of w' !! i = Some p'
      /\ opening_data p' = opening_data p
      /\ (p_status p = position_closed -> p_status p' = position_closed).

(** A patch that keeps the opening data and never reopens. *)
Definition closing (patch : list PositionField) : Prop :=
  forall p,
    opening_data (patch_position patch p) = opening_data p
    /\ (p_status p = position_closed ->
        p_status (patch_position patch p) = position_closed).

(** The session carries the analysis [a], made when it was [before]: the
    signal, and each figure the analysis has (one it lacks is left as it
    was). *)
Definition or_kept {A} (new old : option A) : option A :=
  match new with Some x => Some x | None => old end.

Definition recorded (a : Analysis) (before s : TraderSession) : Prop :=
  lastSignal s = Some (a_signal a)
  /\ lastShortMA s = or_kept (a_shortMA a) (lastShortMA before)
  /\ lastLongMA s = or_kept (a_longMA a) (lastLongMA before)
  /\ lastPrice s = or_kept (a_latestPrice a) (lastPrice before)
  /\ config s = config before.

(** The direction a position is opened in on a signal that is not
    neutral, and the reason recorded when a signal closes a position. *)
Definition direction_of_signal (signal : TradingSignal) : TradingDirection :=
  match signal with short => dir_short | _ => dir_long end.

Definition closing_reason (signal : TradingSignal) : string :=
  if signal_eqb signal neutral then "neutral-signal" else "signal-flip".

(** The session is [before] but for the time of its last update. *)
Definition touched_only (before s : TraderSession) : Prop :=
  exists t, s = patch_session [f_updatedAt t] before.

(** The table of positions only grows at its end. *)
Definition extends_positions (w w' : World) : Prop :=
  exists opened, positions_of w' = positions_of w ++ opened.

(** The message [requireApiKey] throws. *)
Definition missing_api_key : string :=
  "Missing OANDA_API_KEY environment variable. Set it to your OANDA REST API token to enable live trading.".

(** * Properties *)

(** ** Facts about binary64 comparisons

    Derived from the specification of the primitive operations in
    [FloatAxioms]: comparisons are antisymmetric, total away from NaN,
    and false as soon as one side is NaN; NaN propagates through
    subtraction, division and [abs]. *)

Module FloatFacts.

Lemma SFcompare_antisym x y :
  SFcompare y x = option_map CompOpp (SFcompare x y).
Proof.
  destruct x as [sx|sx| |sx mx ex], y as [sy|sy| |sy my ey]; simpl;
    try destruct sx; try destruct sy; simpl; try reflexivity.
  all: rewrite (Z.compare_antisym ey ex);
    destruct (ey ?= ex) eqn:E; simpl; try reflexivity;
    pose proof (Pos.compare_cont_antisym mx my Eq) as H; simpl in H;
    rewrite <- H; now destruct (Pos.compare_cont Eq mx my).
Qed.

Lemma ltb_leb_false x y : PrimFloat.ltb x y = true -> PrimFloat.leb y x = false.
Proof.
  rewrite FloatAxioms.ltb_spec, FloatAxioms.leb_spec. unfold SFltb, SFleb.
  rewrite (SFcompare_antisym (Prim2SF x) (Prim2SF y)).
  destruct (SFcompare (Prim2SF x) (Prim2SF y)) as [[]|]; simpl; congruence.
Qed.

Lemma leb_ltb_false x y : PrimFloat.leb x y = true -> PrimFloat.ltb y x = false.
Proof.
  rewrite FloatAxioms.ltb_spec, FloatAxioms.leb_spec. unfold SFltb, SFleb.
  rewrite (SFcompare_antisym (Prim2SF x) (Prim2SF y)).
  destruct (SFcompare (Prim2SF x) (Prim2SF y)) as [[]|]; simpl; congruence.
Qed.

Lemma ltb_asym x y : PrimFloat.ltb x y = true -> PrimFloat.ltb y x = false.
Proof.
  rewrite !FloatAxioms.ltb_spec. unfold SFltb.
  rewrite (SFcompare_antisym (Prim2SF x) (Prim2SF y)).
  destruct (SFcompare (Prim2SF x) (Prim2SF y)) as [[]|]; simpl; congruence.
Qed.

Lemma eqb_ltb_false x y :
  PrimFloat.eqb x y = true ->
  PrimFloat.ltb x y = false /\ PrimFloat.ltb y x = false.
Proof.
  rewrite FloatAxioms.eqb_spec, !FloatAxioms.ltb_spec. unfold SFltb, SFeqb.
  rewrite (SFcompare_antisym (Prim2SF x) (Prim2SF y)).
  destruct (SFcompare (Prim2SF x) (Prim2SF y)) as [[]|]; simpl; intuition congruence.
Qed.

Lemma is_nan_spec x : PrimFloat.is_nan x = true <-> Prim2SF x = S754_nan.
Proof.
  split.
  - intros H. unfold Prim2SF. now rewrite H.
  - intros H. unfold PrimFloat.is_nan. rewrite FloatAxioms.eqb_spec, H. reflexivity.
Qed.

Lemma not_nan_spec x : PrimFloat.is_nan x = false <-> Prim2SF x <> S754_nan.
Proof.
  rewrite <- is_nan_spec. destruct (PrimFloat.is_nan x); intuition congruence.
Qed.

Lemma SFcompare_total a b :
  a <> S754_nan -> b <> S754_nan -> exists c, SFcompare a b = Some c.
Proof.
  destruct a, b; simpl; intros Ha Hb; try congruence; eauto.
Qed.

Lemma leb_negb_ltb x y :
  PrimFloat.is_nan x = false -> PrimFloat.is_nan y = false ->
  PrimFloat.leb y x = negb (PrimFloat.ltb x y).
Proof.
  rewrite !not_nan_spec, FloatAxioms.ltb_spec, FloatAxioms.leb_spec. unfold SFltb, SFleb.
  rewrite (SFcompare_antisym (Prim2SF x) (Prim2SF y)). intros Hx Hy.
  destruct (SFcompare_total _ _ Hx Hy) as [c ->]. now destruct c.
Qed.

Lemma sub_nan_l x y : PrimFloat.is_nan x = true -> PrimFloat.is_nan (x - y) = true.
Proof.
  rewrite !is_nan_spec, FloatAxioms.sub_spec. intros ->. reflexivity.
Qed.

Lemma abs_nan x : PrimFloat.is_nan x = true -> PrimFloat.is_nan (PrimFloat.abs x) = true.
Proof. rewrite !is_nan_spec, FloatAxioms.abs_spec. intros ->. reflexivity. Qed.

Lemma div_nan_l x y : PrimFloat.is_nan x = true -> PrimFloat.is_nan (x / y) = true.
Proof. rewrite !is_nan_spec, FloatAxioms.div_spec. intros ->. reflexivity. Qed.

Lemma ltb_nan_l x y : PrimFloat.is_nan x = true -> PrimFloat.ltb x y = false.
Proof. rewrite is_nan_spec, FloatAxioms.ltb_spec. intros ->. reflexivity. Qed.

Lemma ltb_nan_r x y : PrimFloat.is_nan y = true -> PrimFloat.ltb x y = false.
Proof.
  rewrite is_nan_spec, FloatAxioms.ltb_spec. intros ->. unfold SFltb.
  now destruct (Prim2SF x).
Qed.

Lemma leb_nan_l x y : PrimFloat.is_nan x = true -> PrimFloat.leb x y = false.
Proof. rewrite is_nan_spec, FloatAxioms.leb_spec. intros ->. reflexivity. Qed.

Lemma leb_nan_r x y : PrimFloat.is_nan y = true -> PrimFloat.leb x y = false.
Proof.
  rewrite is_nan_spec, FloatAxioms.leb_spec. intros ->. unfold SFleb.
  now destruct (Prim2SF x).
Qed.

Lemma round_sign sx mx ex lx :
  match binary_round_aux prec emax sx mx ex lx with
  | S754_zero s | S754_infinity s | S754_finite s _ _ => s = sx
  | S754_nan => True
  end.
Proof.
  unfold binary_round_aux.
  destruct (shr_fexp prec emax mx ex lx) as [mrs e].
  destruct (shr_fexp prec emax _ e loc_Exact) as [mrs' e'].
  destruct (shr_m mrs'); try exact I; try reflexivity.
  destruct (e' <=? emax - prec); reflexivity.
Qed.

(** |x| * 1 is never below zero and |x| * -1 never above. *)
Lemma abs_mul_one_not_negative x :
  PrimFloat.ltb (PrimFloat.abs x * 1) 0 = false.
Proof.
  rewrite FloatAxioms.ltb_spec, FloatAxioms.mul_spec, FloatAxioms.abs_spec.
  change (Prim2SF 1) with (S754_finite false 4503599627370496 (-52)).
  change (Prim2SF 0) with (S754_zero false).
  destruct (Prim2SF x) as [s|s| |s m e]; try reflexivity.
  cbn [SFabs SF64mul SFmul xorb].
  pose proof (round_sign false (Z.pos (m * 4503599627370496)) (e + -52)
                loc_Exact) as H.
  destruct (binary_round_aux _ _ _ _ _ _); try subst; reflexivity.
Qed.

Lemma abs_mul_minus_one_not_positive x :
  PrimFloat.ltb 0 (PrimFloat.abs x * -1) = false.
Proof.
  rewrite FloatAxioms.ltb_spec, FloatAxioms.mul_spec, FloatAxioms.abs_spec.
  change (Prim2SF (-1)) with (S754_finite true 4503599627370496 (-52)).
  change (Prim2SF 0) with (S754_zero false).
  destruct (Prim2SF x) as [s|s| |s m e]; try reflexivity.
  cbn [SFabs SF64mul SFmul xorb].
  pose proof (round_sign true (Z.pos (m * 4503599627370496)) (e + -52)
                loc_Exact) as H.
  destruct (binary_round_aux _ _ _ _ _ _); try subst; reflexivity.
Qed.

End FloatFacts.

(** ** Signal calculator *)

Example movingAverage_last_two :
  movingAverage [1%float; 2%float; 3%float; 5%float] 2 = Some 4%float.
Proof. vm_compute. reflexivity. Qed.

Example movingAverage_short_series :
  movingAverage [1%float; 2%float] 3 = Some 2%float.
Proof. vm_compute. reflexivity. Qed.

Example movingAverage_empty_series : movingAverage [] 3 = None.
Proof. reflexivity. Qed.

Example computeSignal_below_threshold :
  computeSignal 100.5%float 100%float 0.01%float = neutral.
Proof. vm_compute. reflexivity. Qed.

Example computeSignal_above_threshold :
  computeSignal 102%float 100%float 0.01%float = long.
Proof. vm_compute. reflexivity. Qed.

Example computeSignal_zero_average :
  computeSignal 5%float 0%float 0.01%float = long.
Proof. vm_compute. reflexivity. Qed.

Lemma index_last {A} (a : list A) :
  Js.index a (Z.of_nat (length a) - 1) = last a.
Proof.
  unfold Js.index. rewrite last_lookup.
  destruct a as [|x a]; [reflexivity|].
  cbn [length]. destruct (Z.ltb_spec (Z.of_nat (S (length a)) - 1) 0); [lia|].
  f_equal. lia.
Qed.

Lemma movingAverage_short (series : list float) (window : Z) :
  Z.of_nat (length series) < window ->
  movingAverage series window = last series.
Proof.
  intros H. unfold movingAverage.
  destruct (Z.ltb_spec (Z.of_nat (length series)) window); [|lia].
  apply index_last.
Qed.

Lemma slice_whole_length {A} (a : list A) (k : Z) :
  k <= 0 -> Js.slice a (Z.of_nat (length a) - k) = [].
Proof.
  intros Hk. unfold Js.slice.
  destruct (Z.ltb_spec (Z.of_nat (length a) - k) 0); [lia|].
  apply drop_ge. lia.
Qed.

Lemma movingAverage_empty_window (series : list float) (window : Z) :
  window <= 0 ->
  movingAverage series window = Some (0 / 0)%float.
Proof.
  intros H. unfold movingAverage.
  destruct (Z.ltb_spec (Z.of_nat (length series)) window); [lia|].
  cbv zeta. rewrite slice_whole_length by assumption. reflexivity.
Qed.

Lemma computeSignal_near_zero (shortMA longMA threshold : float) :
  Js.lt (Js.abs longMA) Js.EPSILON = true ->
  computeSignal shortMA longMA threshold =
    if Js.gt (shortMA - longMA) 0 then long
    else if Js.lt (shortMA - longMA) 0 then short else neutral.
Proof. intros H. unfold computeSignal. now rewrite H. Qed.

Lemma computeSignal_ratio (shortMA longMA threshold : float) :
  Js.lt (Js.abs longMA) Js.EPSILON = false ->
  computeSignal shortMA longMA threshold =
    if Js.lt (Js.abs (shortMA - longMA) / Js.abs longMA) threshold then neutral
    else if Js.gt (shortMA - longMA) 0 then long else short.
Proof. intros H. unfold computeSignal. now rewrite H. Qed.

Lemma computeSignal_nan (shortMA longMA threshold : float) :
  PrimFloat.is_nan shortMA = true ->
  computeSignal shortMA longMA threshold =
    if Js.lt (Js.abs longMA) Js.EPSILON then neutral else short.
Proof.
  intros H. unfold computeSignal, Js.lt, Js.gt, Js.abs.
  pose proof (FloatFacts.sub_nan_l _ longMA H) as Hd.
  rewrite (FloatFacts.ltb_nan_r 0 _ Hd), (FloatFacts.ltb_nan_l _ 0 Hd).
  rewrite (FloatFacts.ltb_nan_l _ threshold
             (FloatFacts.div_nan_l _ _ (FloatFacts.abs_nan _ Hd))).
  reflexivity.
Qed.

(** C3, as stated, fails: with a short window of 0 (a configuration the
    validator accepts) the short average is NaN, the long average is 100
    and not near zero, and the signal is [short] although
    [ratio >= neutralThreshold] does not hold, the ratio being NaN. *)
Lemma signal_ratio_counterexample :
  let config := Demo.cfg 0 2 in
  let series := [100%float; 100%float] in
  let shortMA := Js.to_number (movingAverage series (shortWindow config)) in
  let longMA := Js.to_number (movingAverage series (longWindow config)) in
  let ratio := (Js.abs (shortMA - longMA) / Js.abs longMA)%float in
  validateConfig config = Ok tt
  /\ Js.lt (Js.abs longMA) Js.EPSILON = false
  /\ ~ (computeSignal shortMA longMA (neutralThreshold config) <> neutral
        <-> Js.ge ratio (neutralThreshold config) = true).
Proof.
  cbv zeta. split; [|split].
  - vm_compute. reflexivity.
  - vm_compute. reflexivity.
  - intros [H _].
    assert (E : computeSignal
                  (Js.to_number (movingAverage [100%float; 100%float]
                                   (shortWindow (Demo.cfg 0 2))))
                  (Js.to_number (movingAverage [100%float; 100%float]
                                   (longWindow (Demo.cfg 0 2))))
                  (neutralThreshold (Demo.cfg 0 2)) = short)
      by (vm_compute; reflexivity).
    rewrite E in H.
    assert (F : short <> neutral) by discriminate.
    apply H in F. vm_compute in F. discriminate.
Qed.

(** C3 (amended): a series shorter than the window averages to its most
    recent price; when |longMA| < EPSILON the signal is the sign of
    diff; otherwise it is neutral iff ratio < neutralThreshold, and when
    that comparison fails the signal is long for diff > 0 and short
    otherwise, which is the case ratio >= neutralThreshold whenever
    neither the ratio nor the threshold is NaN. *)
Theorem signal_calculator (shortMA longMA threshold : float) :
  let diff := (shortMA - longMA)%float in
  let ratio := (Js.abs diff / Js.abs longMA)%float in
  let signal := computeSignal shortMA longMA threshold in
  (forall (series : list float) (window : Z),
      Z.of_nat (length series) < window ->
      movingAverage series window = last series)
  /\ (Js.lt (Js.abs longMA) Js.EPSILON = true ->
      (Js.gt diff 0 = true -> signal = long)
      /\ (Js.lt diff 0 = true -> signal = short)
      /\ (PrimFloat.eqb diff 0 = true -> signal = neutral))
  /\ (Js.lt (Js.abs longMA) Js.EPSILON = false ->
      (signal = neutral <-> Js.lt ratio threshold = true)
      /\ (Js.lt ratio threshold = false ->
          signal = if Js.gt diff 0 then long else short)
      /\ (PrimFloat.is_nan ratio = false ->
          PrimFloat.is_nan threshold = false ->
          (Js.ge ratio threshold = true <-> Js.lt ratio threshold = false))).
Proof.
  cbv zeta. split; [exact movingAverage_short|]. split.
  - intros Hz. rewrite (computeSignal_near_zero _ _ _ Hz).
    unfold Js.gt, Js.lt. repeat split.
    + now intros ->.
    + intros H. now rewrite (FloatFacts.ltb_asym _ _ H), H.
    + intros H. destruct (FloatFacts.eqb_ltb_false _ _ H) as [H1 H2].
      now rewrite H1, H2.
  - intros Hz. rewrite (computeSignal_ratio _ _ _ Hz). split; [|split].
    + destruct (Js.lt _ threshold); [tauto|].
      destruct (Js.gt _ 0); split; discriminate.
    + now intros ->.
    + intros Hr Ht. unfold Js.ge, Js.lt.
      rewrite (FloatFacts.leb_negb_ltb _ _ Hr Ht).
      destruct (PrimFloat.ltb _ threshold); split; (reflexivity || discriminate).
Qed.

Lemma signal_calculator_witness :
  (Js.lt (Js.abs 100) Js.EPSILON = false
   /\ computeSignal 102 100 0.01 = long
   /\ Js.ge (Js.abs (102 - 100) / Js.abs 100) 0.01 = true)%float.
Proof.
  pose proof (signal_calculator 102 100 0.01)%float as [_ [_ H]].
  assert (Hz : (Js.lt (Js.abs 100) Js.EPSILON = false)%float)
    by (vm_compute; reflexivity).
  destruct (H Hz) as [_ [H1 H2]].
  split; [exact Hz|]. split.
  - rewrite H1; vm_compute; reflexivity.
  - apply H2; vm_compute; reflexivity.
Defined.

(** ** Configuration validation *)

(** C10: validation never looks at the sign of the windows, so a
    configuration with a short window of 0 or less below the long window
    is accepted when its other fields are valid; with a short window of 0
    the averaged window is empty for every series, the short average is
    0/0 = NaN, and the signal no longer depends on the short average:
    it is neutral when |longMA| < EPSILON and short otherwise. *)
Theorem nonpositive_short_window :
  (forall config : SessionConfig,
      shortWindow config <= 0 ->
      shortWindow config < longWindow config ->
      Js.gt (tradeUnits config) 0 = true ->
      Js.gt (takeProfitMultiplier config) 0 = true ->
      Js.gt (stopLossMultiplier config) 0 = true ->
      Js.ge (neutralThreshold config) 0 = true ->
      validateConfig config = Ok tt)
  /\ (forall series : list float,
         Js.slice series (Z.of_nat (length series) - 0) = []
         /\ movingAverage series 0 = Some (Js.sum [] / Js.of_length 0)%float
         /\ PrimFloat.is_nan (Js.sum [] / Js.of_length 0) = true)
  /\ (forall (session : TraderSession) (closes : list float),
         shortWindow (config session) = 0 ->
         let a := analyse session closes in
         a_shortMA a = Some (0 / 0)%float
         /\ a_signal a =
              if Js.lt (Js.abs (Js.to_number (a_longMA a))) Js.EPSILON
              then neutral else short).
Proof.
  split; [|split].
  - intros config _ Hw Hu Htp Hsl Hth. unfold validateConfig.
    destruct (Z.leb_spec (longWindow config) (shortWindow config)); [lia|].
    unfold Js.gt, Js.ge, Js.le, Js.lt in *.
    rewrite (FloatFacts.ltb_leb_false _ _ Hu), (FloatFacts.ltb_leb_false _ _ Htp),
      (FloatFacts.ltb_leb_false _ _ Hsl), (FloatFacts.leb_ltb_false _ _ Hth).
    reflexivity.
  - intros series. split; [apply slice_whole_length; lia|].
    split; [now rewrite movingAverage_empty_window by lia|].
    vm_compute. reflexivity.
  - intros session closes Hw a. subst a. unfold analyse.
    cbn [a_shortMA a_signal a_longMA]. rewrite Hw.
    rewrite movingAverage_empty_window by lia. split; [reflexivity|].
    apply computeSignal_nan. vm_compute. reflexivity.
Qed.

Lemma nonpositive_short_window_witness :
  validateConfig (Demo.cfg 0 3) = Ok tt
  /\ a_signal (analyse (Demo.session running (Demo.cfg 0 3) None)
                 [100%float; 100%float; 100%float; 110%float]) = short.
Proof.
  destruct nonpositive_short_window as [Hv [_ Ha]]. split.
  - apply Hv; vm_compute; first [reflexivity | discriminate].
  - destruct (Ha (Demo.session running (Demo.cfg 0 3) None)
                [100%float; 100%float; 100%float; 110%float] eq_refl)
      as [_ ->].
    vm_compute. reflexivity.
Defined.

(** ** Reasoning about operations

    [keeps R m]: from every world, [m] ends in a world related to it by
    [R], whether it returns or throws.  A relation frames the operations
    when it is a preorder that survives the rollback of a mutation. *)

Create HintDb frame.

Section Keeps.

Context {R : World -> World -> Prop} (F : Framing R).

Lemma keeps_ret {A} (a : A) : keeps R (ret a).
Proof. intros w. apply (framing_refl R F). Qed.

Lemma keeps_throw {A} (message : string) : keeps R (@throw A message).
Proof. intros w. apply (framing_refl R F). Qed.

Lemma keeps_lift {A} (o : outcome A) : keeps R (lift o).
Proof. intros w. apply (framing_refl R F). Qed.

Lemma keeps_bind {A B} (m : Action A) (k : A -> Action B) :
  keeps R m -> (forall a, keeps R (k a)) -> keeps R (bind m k).
Proof.
  intros Hm Hk w. unfold bind. specialize (Hm w).
  destruct (m w) as [[a|message] w1]; cbn [snd] in *; [|exact Hm].
  eapply (framing_trans R F); [exact Hm|apply Hk].
Qed.

Lemma keeps_try_catch {A} (m : Action A) (handler : string -> Action A) :
  keeps R m -> (forall e, keeps R (handler e)) -> keeps R (try_catch m handler).
Proof.
  intros Hm Hh w. unfold try_catch. specialize (Hm w).
  destruct (m w) as [[a|message] w1]; cbn [snd] in *; [exact Hm|].
  eapply (framing_trans R F); [exact Hm|apply Hh].
Qed.

Lemma keeps_runMutation {A} (m : Action A) :
  keeps R m -> keeps R (runMutation m).
Proof.
  intros Hm w. unfold runMutation. specialize (Hm w).
  destruct (m w) as [[a|message] w1]; cbn [snd] in *; [exact Hm|].
  now apply (framing_rollback R F).
Qed.

Lemma keeps_for_each {A} (xs : list A) (body : A -> Action unit) :
  (forall x, keeps R (body x)) -> keeps R (for_each xs body).
Proof.
  intros Hb. induction xs as [|x xs IH]; cbn [for_each].
  - apply keeps_ret.
  - apply keeps_bind; [apply Hb|intros _; exact IH].
Qed.

End Keeps.

#[local] Hint Resolve keeps_ret keeps_throw keeps_lift keeps_runMutation : frame.
#[local] Hint Extern 2 (keeps _ (bind _ _)) =>
  apply keeps_bind; [ | |intros ?] : frame.
#[local] Hint Extern 2 (keeps _ (try_catch _ _)) =>
  apply keeps_try_catch; [ | |intros ?] : frame.
#[local] Hint Extern 2 (keeps _ (for_each _ _)) =>
  apply keeps_for_each; [ |intros ?] : frame.
#[local] Hint Extern 3 (keeps _ (if ?b then _ else _)) => destruct b : frame.
#[local] Hint Extern 3 (keeps _ (match ?x with _ => _ end)) => destruct x : frame.

(** Operations that leave a whole component of the world alone. *)

Lemma same_db_framing : Framing (same db).
Proof. split; unfold same; intros; cbn; congruence. Qed.

Lemma same_positions_framing : Framing (same positions_of).
Proof. split; unfold same, positions_of; intros; cbn; congruence. Qed.

Lemma same_sessions_framing : Framing (same sessions_of).
Proof. split; unfold same, sessions_of; intros; cbn; congruence. Qed.

Lemma same_requests_framing : Framing (same requests).
Proof. split; unfold same; intros; cbn; congruence. Qed.

#[local] Hint Resolve same_db_framing same_positions_framing
  same_sessions_framing same_requests_framing : frame.

Ltac primitive_keeps :=
  let w := fresh "w" in
  intros w;
  unfold same, positions_of, sessions_of, logs_of, Date_now, db_get_session,
    db_get_position, db_patch_session, db_patch_position, db_insert_session,
    db_insert_position, db_insert_log, scheduler_runAfter, fetch,
    getSessionState, getActiveSessionIds, set_db;
  repeat match goal with
         | |- context [match ?x with _ => _ end] => destruct x
         end;
  reflexivity.

#[local] Hint Extern 5 (keeps (same _) _) => solve [primitive_keeps] : frame.

Lemma keeps_same_db {A} {X} (f : Db -> X) (m : Action A) :
  keeps (same db) m -> keeps (same (fun w => f (db w))) m.
Proof. intros H w. unfold same in *. now rewrite H. Qed.

Section Frames.

Variable rt : Runtime.

(** The OANDA client only talks to the network. *)

Lemma oandaFetch_db path params init_method init_body :
  keeps (same db) (oandaFetch rt path params init_method init_body).
Proof. unfold oandaFetch. auto 10 with frame. Qed.

Lemma fetchCandles_db instrument granularity count :
  keeps (same db) (fetchCandles rt instrument granularity count).
Proof.
  unfold fetchCandles. pose proof oandaFetch_db. auto 10 with frame.
Qed.

Lemma placeMarketOrder_db instrument units tp sl :
  keeps (same db) (placeMarketOrder rt instrument units tp sl).
Proof.
  unfold placeMarketOrder. pose proof oandaFetch_db. auto 10 with frame.
Qed.

Lemma closeTrade_db tradeId : keeps (same db) (closeTrade rt tradeId).
Proof. unfold closeTrade. pose proof oandaFetch_db. auto 10 with frame. Qed.

Lemma getOpenTrades_db : keeps (same db) (getOpenTrades rt).
Proof.
  unfold getOpenTrades. pose proof oandaFetch_db. auto 10 with frame.
Qed.

(** Logging touches neither sessions nor positions nor the network. *)

Lemma logEvent_positions sessionId lvl msg dtl :
  keeps (same positions_of) (logEvent rt sessionId lvl msg dtl).
Proof. unfold logEvent. auto 10 with frame. Qed.

Lemma logEvent_sessions sessionId lvl msg dtl :
  keeps (same sessions_of) (logEvent rt sessionId lvl msg dtl).
Proof. unfold logEvent. auto 10 with frame. Qed.

Lemma logEvent_requests sessionId lvl msg dtl :
  keeps (same requests) (logEvent rt sessionId lvl msg dtl).
Proof. unfold logEvent. auto 10 with frame. Qed.

Lemma setStatus_positions sessionId st msg :
  keeps (same positions_of) (setStatus rt sessionId st msg).
Proof. unfold setStatus. auto 10 with frame. Qed.

Lemma updateAnalytics_positions sessionId a b c d e f :
  keeps (same positions_of) (updateAnalytics rt sessionId a b c d e f).
Proof. unfold updateAnalytics. auto 10 with frame. Qed.

Lemma evaluationFailed_positions sessionId error :
  keeps (same positions_of) (evaluationFailed rt sessionId error).
Proof.
  unfold evaluationFailed.
  pose proof logEvent_positions. pose proof setStatus_positions.
  auto 10 with frame.
Qed.

End Frames.

(** ** One evaluation tick *)

Lemma evaluateSession_running rt sessionId reason w session :
  sessions_of w !! sessionId = Some session ->
  status session = running ->
  evaluateSession rt sessionId reason w =
    try_catch
      (evaluate rt sessionId session (open_positions_of sessionId (db w)) reason)
      (evaluationFailed rt sessionId) w.
Proof.
  intros Hs Hr. unfold evaluateSession, runQuery, bind, getSessionState.
  unfold sessions_of in Hs. rewrite Hs. unfold is_running. now rewrite Hr.
Qed.

Lemma evaluateSession_idle rt sessionId reason w session :
  sessions_of w !! sessionId = Some session ->
  status session <> running ->
  evaluateSession rt sessionId reason w = (Ok tt, w).
Proof.
  intros Hs Hr. unfold evaluateSession, runQuery, bind, getSessionState.
  unfold sessions_of in Hs. rewrite Hs. unfold is_running.
  destruct (status session); [reflexivity|congruence|reflexivity].
Qed.

Lemma evaluateSession_missing rt sessionId reason w :
  sessions_of w !! sessionId = None ->
  evaluateSession rt sessionId reason w = (Ok tt, w).
Proof.
  intros Hs. unfold evaluateSession, runQuery, bind, getSessionState.
  unfold sessions_of in Hs. now rewrite Hs.
Qed.

(** C5: a tick on a session that is not running changes nothing at all,
    in the store or elsewhere (no session patch, no position insert or
    patch, no log entry, no request), and returns normally. *)
Theorem tick_when_not_running rt sessionId reason w session :
  sessions_of w !! sessionId = Some session ->
  status session <> running ->
  evaluateSession rt sessionId reason w = (Ok tt, w)
  /\ db (snd (evaluateSession rt sessionId reason w)) = db w.
Proof.
  intros Hs Hr.
  rewrite (evaluateSession_idle rt sessionId reason w session Hs Hr).
  split; reflexivity.
Qed.

Lemma tick_when_not_running_witness :
  let w := Demo.world [Demo.session stopped (Demo.cfg 1 3) None] [] in
  evaluateSession Demo.paper 0 None w = (Ok tt, w)
  /\ db (snd (evaluateSession Demo.paper 0 None w)) = db w.
Proof.
  intros w.
  apply (tick_when_not_running Demo.paper 0%nat None w
           (Demo.session stopped (Demo.cfg 1 3) None)).
  - reflexivity.
  - discriminate.
Defined.

(** C4: when the candles fetched hold fewer completed closing prices than
    [longWindow], the tick appends one log entry, a warning of this
    session, writes nothing else (every session document, and so its
    status and analytics, and every position is as before) and returns. *)
Theorem tick_with_insufficient_data rt sessionId reason w session candles w1 :
  sessions_of w !! sessionId = Some session ->
  status session = running ->
  fetchCandles rt (instrument (config session)) (granularity (config session))
    (Z.max (longWindow (config session) * 2) (longWindow (config session) + 5))
    w = (Ok candles, w1) ->
  Z.of_nat (length (closing_prices rt candles)) < longWindow (config session) ->
  exists entry w2,
    evaluateSession rt sessionId reason w = (Ok tt, w2)
    /\ logs_of w2 = logs_of w ++ [entry]
    /\ level entry = warn
    /\ l_sessionId entry = sessionId
    /\ sessions_of w2 = sessions_of w
    /\ positions_of w2 = positions_of w.
Proof.
  intros Hs Hr Hf Hn.
  rewrite (evaluateSession_running _ _ _ _ _ Hs Hr).
  pose proof (fetchCandles_db rt (instrument (config session))
                (granularity (config session))
                (Z.max (longWindow (config session) * 2)
                       (longWindow (config session) + 5)) w) as Hdb.
  unfold same in Hdb. rewrite Hf in Hdb. cbn [snd] in Hdb.
  unfold try_catch, evaluate, bind. rewrite Hf.
  destruct (Z.ltb_spec (Z.of_nat (length (closing_prices rt candles)))
              (longWindow (config session))); [|lia].
  unfold runMutation, logEvent, bind, Date_now, db_insert_log, ret, set_db.
  cbn. eexists _, _. split; [reflexivity|].
  unfold logs_of, sessions_of, positions_of. cbn. rewrite Hdb.
  repeat split; reflexivity.
Qed.

Lemma tick_with_insufficient_data_witness :
  let w := Demo.world [Demo.session running (Demo.cfg 1 5) None] [] in
  exists entry w2,
    evaluateSession Demo.paper 0 None w = (Ok tt, w2)
    /\ logs_of w2 = logs_of w ++ [entry]
    /\ level entry = warn
    /\ l_sessionId entry = 0%nat
    /\ sessions_of w2 = sessions_of w
    /\ positions_of w2 = positions_of w.
Proof.
  intros w.
  eapply (tick_with_insufficient_data Demo.paper 0%nat None w
            (Demo.session running (Demo.cfg 1 5) None)).
  - reflexivity.
  - reflexivity.
  - vm_compute. reflexivity.
  - vm_compute. reflexivity.
Defined.

(** ** Order executor: opening a position *)

Lemma logEvent_returns rt sessionId lvl msg dtl w :
  exists w', runMutation (logEvent rt sessionId lvl msg dtl) w = (Ok tt, w').
Proof. eexists. reflexivity. Qed.

Lemma createPositionRecord_cases rt sessionId dir u entry tp sl tradeId w r w' :
  runMutation (createPositionRecord rt sessionId dir u entry tp sl tradeId) w
    = (r, w') ->
  same requests w w'
  /\ match r with
     | Throw _ => db w' = db w
     | Ok _ =>
         exists e t,
           entry = Some e
           /\ positions_of w' = positions_of w ++
                [ {| p_sessionId := sessionId; direction := dir; units := u;
                     entryPrice := e; takeProfitPrice := tp;
                     stopLossPrice := sl; p_status := position_open;
                     oandaTradeId := tradeId; exitPrice := None;
                     realizedPnl := None; closeReason := None;
                     openedAt := t; closedAt := None |} ]
     end.
Proof.
  unfold runMutation, createPositionRecord. destruct entry as [e|].
  - unfold bind, Date_now, db_insert_position, db_patch_session, set_db.
    cbn. destruct (traderSessions (db w) !! sessionId);
      intros [= <- <-]; (split; [reflexivity|]); cbn; [|reflexivity].
    eexists _, _. split; reflexivity.
  - unfold throw. intros [= <- <-]. split; reflexivity.
Qed.

Lemma open_success_record rt sessionId session dir marketPrice w w' :
  openPositionWithBroker rt sessionId session dir marketPrice w = (Ok tt, w') ->
  exists entry tradeId t,
    positions_of w' = positions_of w ++
      [opened_position sessionId session dir (Js.to_number marketPrice)
         entry tradeId t].
Proof.
  unfold openPositionWithBroker. cbv zeta. unfold bind at 1.
  set (broker := if isOandaConfigured rt then _ else _).
  assert (Hb : keeps (same db) broker).
  { subst broker. pose proof (placeMarketOrder_db rt). auto 10 with frame. }
  specialize (Hb w). destruct (broker w) as [[filled|msg] w1]; [|discriminate].
  cbn [snd] in Hb. unfold bind at 1.
  destruct (runMutation (createPositionRecord _ _ _ _ _ _ _ _) w1)
    as [[[]|msg] w2] eqn:Ec; [|discriminate].
  apply createPositionRecord_cases in Ec. destruct Ec as [_ (e & t & _ & Hp)].
  intros Hl.
  pose proof (logEvent_positions rt sessionId trade
                ("Opened " +:+ direction_upper dir +:+ " position ("
                 +:+ number_toString rt (order_units session dir) +:+ " units)")
                (Some [("tradeId", VOptString (fst filled));
                       ("entryPrice", VOptNumber (snd filled));
                       ("takeProfitPrice",
                        VNumber (order_takeProfitPrice session dir
                                   (Js.to_number marketPrice)));
                       ("stopLossPrice",
                        VNumber (order_stopLossPrice session dir
                                   (Js.to_number marketPrice)))])) as Hk.
  apply (keeps_runMutation same_positions_framing) in Hk.
  specialize (Hk w2). rewrite Hl in Hk. unfold same in Hk. cbn [snd] in Hk.
  exists e, (fst filled), t. rewrite Hk, Hp.
  unfold positions_of in *. unfold same in Hb. now rewrite Hb.
Qed.

(** C6: without broker credentials, opening a position at market price
    [p] sends nothing over the network and records an open position with
    no broker trade identifier and entry price [p]; direction, units,
    take-profit and stop-loss of the record are the ones any successful
    open records, the broker's included. *)
Theorem open_in_paper_mode rt sessionId session dir p w stored :
  isOandaConfigured rt = false ->
  sessions_of w !! sessionId = Some stored ->
  exists w' t,
    openPositionWithBroker rt sessionId session dir (Some p) w = (Ok tt, w')
    /\ requests w' = requests w
    /\ positions_of w' = positions_of w ++
         [opened_position sessionId session dir p p None t]
    /\ forall rt' w'',
         openPositionWithBroker rt' sessionId session dir (Some p) w
           = (Ok tt, w'') ->
         exists entry tradeId t',
           positions_of w'' = positions_of w ++
             [opened_position sessionId session dir p entry tradeId t'].
Proof.
  intros Hc Hs. unfold sessions_of in Hs.
  eexists _, _. split; [|split; [|split]].
  - unfold openPositionWithBroker. cbv zeta. rewrite Hc.
    unfold bind, ret, runMutation, createPositionRecord, logEvent, bind,
      Date_now, db_insert_position, db_patch_session, db_insert_log, ret,
      set_db.
    cbn. rewrite Hs. cbn. reflexivity.
  - reflexivity.
  - reflexivity.
  - intros rt' w'' H. now apply open_success_record in H.
Qed.

Lemma open_in_paper_mode_witness :
  let w := Demo.world [Demo.session running (Demo.cfg 1 3) None] [] in
  exists w' t,
    openPositionWithBroker Demo.paper 0
      (Demo.session running (Demo.cfg 1 3) None) dir_long (Some 110%float) w
      = (Ok tt, w')
    /\ requests w' = requests w
    /\ positions_of w' = positions_of w ++
         [opened_position 0 (Demo.session running (Demo.cfg 1 3) None)
            dir_long 110 110 None t].
Proof.
  intros w.
  destruct (open_in_paper_mode Demo.paper 0%nat
              (Demo.session running (Demo.cfg 1 3) None) dir_long 110%float w
              (Demo.session running (Demo.cfg 1 3) None) eq_refl eq_refl)
    as (w' & t & H1 & H2 & H3 & _).
  exists w', t. auto.
Defined.

(** C8: a successful open at market price [p] records take-profit
    p * (1 + tp) and stop-loss p * (1 - sl) for a long position,
    take-profit p * (1 - tp) and stop-loss p * (1 + sl) for a short one,
    and the units |tradeUnits| * 1 for long, which is never negative, and
    |tradeUnits| * -1 for short, which is never positive. *)
Theorem open_targets rt sessionId session dir p w w' :
  openPositionWithBroker rt sessionId session dir (Some p) w = (Ok tt, w') ->
  let tp := takeProfitMultiplier (config session) in
  let sl := stopLossMultiplier (config session) in
  let size := Js.abs (tradeUnits (config session)) in
  exists record,
    positions_of w' = positions_of w ++ [record]
    /\ direction record = dir
    /\ match dir with
       | dir_long =>
           takeProfitPrice record = Some (p * (1 + tp))%float
           /\ stopLossPrice record = Some (p * (1 - sl))%float
           /\ units record = (size * 1)%float
           /\ Js.lt (units record) 0 = false
       | dir_short =>
           takeProfitPrice record = Some (p * (1 - tp))%float
           /\ stopLossPrice record = Some (p * (1 + sl))%float
           /\ units record = (size * -1)%float
           /\ Js.gt (units record) 0 = false
       end.
Proof.
  intros H. apply open_success_record in H.
  destruct H as (entry & tradeId & t & H).
  eexists. split; [exact H|]. split; [reflexivity|].
  destruct dir; repeat split.
  - apply FloatFacts.abs_mul_one_not_negative.
  - apply FloatFacts.abs_mul_minus_one_not_positive.
Qed.

Lemma open_targets_witness :
  let session := Demo.session running (Demo.cfg 1 3) None in
  let w := Demo.world [session] [] in
  exists record,
    positions_of (snd (openPositionWithBroker Demo.paper 0 session dir_short
                         (Some 110%float) w)) = positions_of w ++ [record]
    /\ takeProfitPrice record = Some 55%float
    /\ stopLossPrice record = Some 137.5%float
    /\ units record = (-10)%float.
Proof.
  intros session w.
  destruct (open_targets Demo.paper 0%nat session dir_short 110%float w
              (snd (openPositionWithBroker Demo.paper 0 session dir_short
                      (Some 110%float) w)))
    as (record & H1 & _ & H2 & H3 & H4 & _).
  - vm_compute. reflexivity.
  - exists record. split; [exact H1|].
    rewrite H2, H3, H4. vm_compute. repeat split.
Defined.

(** ** What operations throw

    [throws P m]: every message [m] throws satisfies [P]. *)

Section Throws.

Context (P : string -> Prop).

Lemma throws_ret {A} (a : A) : throws P (ret a).
Proof. intros w message w'. discriminate. Qed.

Lemma throws_throw {A} (message : string) : P message -> throws P (@throw A message).
Proof. intros H w msg w' [= <- _]. exact H. Qed.

Lemma throws_lift {A} (o : outcome A) :
  (forall message, o = Throw message -> P message) -> throws P (lift o).
Proof. intros H w msg w' [= -> _]. now apply H. Qed.

Lemma throws_bind {A B} (m : Action A) (k : A -> Action B) :
  throws P m -> (forall a, throws P (k a)) -> throws P (bind m k).
Proof.
  intros Hm Hk w msg w'. unfold bind.
  destruct (m w) as [[a|msg1] w1] eqn:E.
  - apply Hk.
  - intros [= <- _]. eapply Hm, E.
Qed.

Lemma throws_runMutation {A} (m : Action A) :
  throws P m -> throws P (runMutation m).
Proof.
  intros Hm w msg w'. unfold runMutation.
  destruct (m w) as [[a|msg1] w1] eqn:E; [discriminate|].
  intros [= <- _]. eapply Hm, E.
Qed.

Lemma throws_try_catch {A} (m : Action A) (handler : string -> Action A) :
  (forall e, throws P (handler e)) -> throws P (try_catch m handler).
Proof.
  intros Hh w msg w'. unfold try_catch.
  destruct (m w) as [[a|msg1] w1]; [discriminate|apply Hh].
Qed.

Lemma throws_for_each {A} (xs : list A) (body : A -> Action unit) :
  (forall x, throws P (body x)) -> throws P (for_each xs body).
Proof.
  intros Hb. induction xs as [|x xs IH]; cbn [for_each].
  - apply throws_ret.
  - apply throws_bind; [apply Hb|intros _; exact IH].
Qed.

End Throws.

Create HintDb throwing.
#[local] Hint Resolve throws_ret throws_runMutation : throwing.
#[local] Hint Extern 2 (throws _ (bind _ _)) =>
  apply throws_bind; [|intros ?] : throwing.
#[local] Hint Extern 2 (throws _ (try_catch _ _)) =>
  apply throws_try_catch; intros ? : throwing.
#[local] Hint Extern 2 (throws _ (for_each _ _)) =>
  apply throws_for_each; intros ? : throwing.
#[local] Hint Extern 3 (throws _ (if ?b then _ else _)) => destruct b : throwing.
#[local] Hint Extern 3 (throws _ (match ?x with _ => _ end)) =>
  destruct x : throwing.
#[local] Hint Extern 4 (throws _ (throw _)) =>
  apply throws_throw; discriminate : throwing.

Ltac never_throws :=
  let w := fresh "w" in
  let H := fresh "H" in
  intros w ? ?;
  unfold Date_now, db_get_session, db_get_position, db_insert_session,
    db_insert_position, db_insert_log, scheduler_runAfter, getSessionState,
    getActiveSessionIds;
  repeat match goal with
         | |- context [match ?x with _ => _ end] => destruct x
         end;
  discriminate.

#[local] Hint Extern 5 (throws _ _) => solve [never_throws] : throwing.

Section Messages.

Variable rt : Runtime.
Hypothesis Hrt : failures_have_messages rt.

Lemma db_patch_session_throws sessionId patch :
  throws nonempty (db_patch_session sessionId patch).
Proof.
  intros w msg w'. unfold db_patch_session.
  destruct (_ !! _); [discriminate|]. intros [= <- _]. discriminate.
Qed.

Lemma db_patch_position_throws positionId patch :
  throws nonempty (db_patch_position positionId patch).
Proof.
  intros w msg w'. unfold db_patch_position.
  destruct (_ !! _); [discriminate|]. intros [= <- _]. discriminate.
Qed.

Lemma requireApiKey_throws : throws nonempty (lift (requireApiKey rt)).
Proof.
  apply throws_lift. unfold requireApiKey. intros msg.
  destruct (OANDA_API_KEY rt) as [k|]; [destruct (Js.truthy_string k)|];
    intros [= <-]; discriminate.
Qed.

Lemma requireAccountId_throws : throws nonempty (lift (requireAccountId rt)).
Proof.
  apply throws_lift. unfold requireAccountId. intros msg.
  destruct (OANDA_ACCOUNT_ID rt) as [k|]; [destruct (Js.truthy_string k)|];
    intros [= <-]; discriminate.
Qed.

Lemma oandaFetch_throws path params init_method init_body :
  throws nonempty (oandaFetch rt path params init_method init_body).
Proof.
  unfold oandaFetch. apply throws_bind; [apply requireApiKey_throws|].
  intros apiKey w msg w'. unfold bind at 1, fetch.
  match goal with |- context [network rt ?k ?r] =>
    pose proof (Hrt k r) as Hn; destruct (network rt k r) as [m|st stt txt js]
  end.
  - intros [= <- _]. exact Hn.
  - cbn [r_ok r_status r_statusText r_text r_json].
    destruct (negb _); [intros [= <- _]; discriminate|].
    destruct (_ =? 204); [discriminate|].
    unfold bind, lift. destruct js as [payload|m]; [discriminate|].
    intros [= <- _]. exact Hn.
Qed.

End Messages.

(** ** A failed open *)

Lemma session_stays_framing sessionId : Framing (session_stays sessionId).
Proof. split; unfold session_stays, sessions_of; cbn; auto. Qed.

Lemma same_sessions_stays {A} sessionId (m : Action A) :
  keeps (same sessions_of) m -> keeps (session_stays sessionId) m.
Proof. intros H w. unfold session_stays. now rewrite H. Qed.

Lemma db_patch_session_stays sessionId target patch :
  keeps (session_stays sessionId) (db_patch_session target patch).
Proof.
  intros w. unfold session_stays, sessions_of, db_patch_session.
  destruct (traderSessions (db w) !! target); cbn; [|auto].
  rewrite !lookup_lt_is_Some, length_insert. auto.
Qed.

Lemma db_insert_session_stays sessionId s :
  keeps (session_stays sessionId) (db_insert_session s).
Proof.
  intros w. unfold session_stays, sessions_of, db_insert_session. cbn.
  rewrite !lookup_lt_is_Some, length_app. cbn. lia.
Qed.

#[local] Hint Resolve session_stays_framing db_patch_session_stays
  db_insert_session_stays : frame.
#[local] Hint Extern 6 (keeps (session_stays _) _) =>
  apply same_sessions_stays; solve [primitive_keeps] : frame.

Ltac unfold_handlers :=
  repeat progress unfold evaluateSession, evaluate, settle, openOnSignal, closeOnSignal,
    reconcilePositions, reconcilePosition, refreshed_open_positions,
    openPositionWithBroker, closePositionWithBroker, closeSessionPositions,
    tickActiveSessions, evaluationFailed, createPositionRecord,
    closePositionRecord, logEvent, setStatus, updateAnalytics,
    createSession, updateSession, startSession, stopSession,
    requestImmediateTick, placeMarketOrder, closeTrade, getOpenTrades,
    fetchCandles, oandaFetch, runQuery, runAction.

Lemma settle_stays rt target sessionId session openPositions reason a :
  keeps (session_stays target)
    (settle rt sessionId session openPositions reason a).
Proof. unfold_handlers. auto 30 with frame. Qed.

Lemma openOnSignal_stays rt target sessionId session remaining signal previous
    latestPrice :
  keeps (session_stays target)
    (openOnSignal rt sessionId session remaining signal previous latestPrice).
Proof. unfold_handlers. auto 30 with frame. Qed.

Lemma openPositionWithBroker_throw_positions rt sessionId session dir price
    w message w' :
  openPositionWithBroker rt sessionId session dir price w = (Throw message, w') ->
  positions_of w' = positions_of w.
Proof.
  unfold openPositionWithBroker. cbv zeta. unfold bind at 1.
  set (broker := if isOandaConfigured rt then _ else _).
  assert (Hb : keeps (same db) broker).
  { subst broker. pose proof (placeMarketOrder_db rt). auto 10 with frame. }
  specialize (Hb w). unfold same in Hb.
  destruct (broker w) as [[filled|msg] w1]; cbn [snd] in Hb.
  - unfold bind at 1.
    destruct (runMutation (createPositionRecord _ _ _ _ _ _ _ _) w1)
      as [[[]|msg] w2] eqn:Ec.
    + destruct (logEvent_returns rt sessionId trade
                  ("Opened " +:+ direction_upper dir +:+ " position ("
                   +:+ number_toString rt (order_units session dir)
                   +:+ " units)")
                  (Some [("tradeId", VOptString (fst filled));
                         ("entryPrice", VOptNumber (snd filled));
                         ("takeProfitPrice",
                          VNumber (order_takeProfitPrice session dir
                                     (Js.to_number price)));
                         ("stopLossPrice",
                          VNumber (order_stopLossPrice session dir
                                     (Js.to_number price)))]) w2) as [w3 ->].
      discriminate.
    + apply createPositionRecord_cases in Ec. destruct Ec as [_ Hd].
      intros [= _ <-]. unfold positions_of. now rewrite Hd, Hb.
  - intros [= _ <-]. unfold positions_of. now rewrite Hb.
Qed.

Lemma openOnSignal_throw_positions rt sessionId session remaining signal
    previous latestPrice w message w' :
  openOnSignal rt sessionId session remaining signal previous latestPrice w
    = (Throw message, w') ->
  positions_of w' = positions_of w.
Proof.
  unfold openOnSignal.
  destruct (opens_position remaining signal previous); [|discriminate].
  unfold bind at 1.
  destruct (runMutation (logEvent _ _ _ _ _) w) as [[[]|msg] w1] eqn:El.
  - pose proof (keeps_runMutation same_positions_framing _
                  (logEvent_positions rt sessionId info
                     "Attempting to open new position"
                     (Some [("signal", VString (signal_name signal))])) w) as Hk.
    rewrite El in Hk. unfold same in Hk. cbn [snd] in Hk.
    destruct signal; [| |discriminate]; intros H;
      apply openPositionWithBroker_throw_positions in H; congruence.
  - destruct (logEvent_returns rt sessionId info
                "Attempting to open new position"
                (Some [("signal", VString (signal_name signal))]) w) as [w2 E2].
    congruence.
Qed.

#[local] Hint Extern 4 (throws nonempty (throw _)) =>
  apply throws_throw;
  unfold nonempty, missing_required_field, read_of_undefined; cbn;
  discriminate : throwing.

Lemma openOnSignal_throws rt sessionId session remaining signal previous
    latestPrice :
  failures_have_messages rt ->
  throws nonempty
    (openOnSignal rt sessionId session remaining signal previous latestPrice).
Proof.
  intros Hrt.
  pose proof (oandaFetch_throws rt Hrt).
  pose proof (requireAccountId_throws rt).
  pose proof db_patch_session_throws.
  unfold openOnSignal, openPositionWithBroker, placeMarketOrder,
    createPositionRecord, logEvent.
  auto 30 with throwing.
Qed.

Lemma evaluationFailed_result rt sessionId error w stored :
  sessions_of w !! sessionId = Some stored ->
  exists w' failed,
    evaluationFailed rt sessionId error w = (Ok tt, w')
    /\ sessions_of w' !! sessionId = Some failed
    /\ status failed = status_error
    /\ errorMessage failed = Some error
    /\ positions_of w' = positions_of w.
Proof.
  intros Hs. unfold sessions_of in Hs.
  unfold evaluationFailed, formatError. cbv zeta.
  unfold bind, runMutation, logEvent, setStatus, bind, Date_now, db_insert_log,
    db_patch_session, ret, set_db.
  cbn. rewrite Hs. cbn.
  eexists _, _. split; [reflexivity|]. unfold sessions_of, positions_of. cbn.
  split; [apply list_lookup_insert_eq; now apply lookup_lt_Some in Hs|].
  destruct stored. repeat split.
Qed.

(** C1: take a running session whose tick has fetched enough candles and
    has reached its opening block in world [w0].  If that block throws
    (the order is refused, the network fails, the reply is empty), the
    tick still returns, the session is left in status [error] with the
    thrown message recorded, the message is not empty as long as the
    runtime's own failures carry one, and the positions are exactly those
    of [w0]: nothing was recorded for the failed open. *)
Theorem failed_open_leaves_positions
    rt sessionId reason w session candles wa remaining w0 message w1 :
  failures_have_messages rt ->
  sessions_of w !! sessionId = Some session ->
  status session = running ->
  fetchCandles rt (instrument (config session)) (granularity (config session))
    (Z.max (longWindow (config session) * 2) (longWindow (config session) + 5))
    w = (Ok candles, wa) ->
  longWindow (config session) <= Z.of_nat (length (closing_prices rt candles)) ->
  let a := analyse session (closing_prices rt candles) in
  settle rt sessionId session (open_positions_of sessionId (db w)) reason a wa
    = (Ok remaining, w0) ->
  openOnSignal rt sessionId session remaining (a_signal a) (a_previousSignal a)
    (a_latestPrice a) w0 = (Throw message, w1) ->
  exists w2 failed,
    evaluateSession rt sessionId reason w = (Ok tt, w2)
    /\ sessions_of w2 !! sessionId = Some failed
    /\ status failed = status_error
    /\ errorMessage failed = Some message
    /\ message <> ""
    /\ positions_of w2 = positions_of w0.
Proof.
  intros Hrt Hs Hr Hf Hn a Hsettle Hopen.
  assert (Hstay : is_Some (sessions_of w1 !! sessionId)).
  { pose proof (openOnSignal_stays rt sessionId sessionId session remaining
                  (a_signal a) (a_previousSignal a) (a_latestPrice a) w0) as H1.
    pose proof (settle_stays rt sessionId sessionId session
                  (open_positions_of sessionId (db w)) reason a wa) as H2.
    pose proof (fetchCandles_db rt (instrument (config session))
                  (granularity (config session))
                  (Z.max (longWindow (config session) * 2)
                         (longWindow (config session) + 5)) w) as H3.
    rewrite Hopen in H1. rewrite Hsettle in H2. rewrite Hf in H3.
    unfold same in H3. cbn [snd] in *. apply H1, H2.
    unfold sessions_of in *. rewrite H3, Hs. eauto. }
  destruct Hstay as [stored Hstored].
  destruct (evaluationFailed_result rt sessionId message w1 stored Hstored)
    as (w2 & failed & He & Hl & Hst & Hm & Hp).
  exists w2, failed.
  split.
  - rewrite (evaluateSession_running _ _ _ _ _ Hs Hr).
    unfold try_catch, evaluate, bind. rewrite Hf.
    destruct (Z.ltb_spec (Z.of_nat (length (closing_prices rt candles)))
                (longWindow (config session))); [lia|].
    fold a. rewrite Hsettle, Hopen. exact He.
  - repeat split; try assumption.
    + exact (openOnSignal_throws rt _ _ _ _ _ _ Hrt _ _ _ Hopen).
    + rewrite Hp. exact (openOnSignal_throw_positions _ _ _ _ _ _ _ _ _ _ Hopen).
Qed.

Lemma refusing_has_messages : failures_have_messages Demo.refusing.
Proof.
  intros k request. cbn. unfold Demo.serve.
  destruct (Demo.is_candles request); [exact I|discriminate].
Qed.

Lemma failed_open_leaves_positions_witness :
  let w := Demo.world [Demo.session running (Demo.cfg 1 3) None] [] in
  exists w2 failed,
    evaluateSession Demo.refusing 0 None w = (Ok tt, w2)
    /\ sessions_of w2 !! 0%nat = Some failed
    /\ status failed = status_error
    /\ errorMessage failed
       = Some "OANDA request failed (400 Bad Request): insufficient margin"
    /\ positions_of w2 = [].
Proof.
  intros w.
  edestruct (failed_open_leaves_positions Demo.refusing 0%nat None w
               (Demo.session running (Demo.cfg 1 3) None))
    as (w2 & failed & H1 & H2 & H3 & H4 & _ & H5).
  - exact refusing_has_messages.
  - reflexivity.
  - reflexivity.
  - vm_compute. reflexivity.
  - vm_compute. discriminate.
  - vm_compute. reflexivity.
  - vm_compute. reflexivity.
  - exists w2, failed. repeat split; assumption.
Defined.

(** ** Reconciliation *)

Lemma elem_of_open_positions sessionId d i p :
  (i, p) ∈ open_positions_of sessionId d
  <-> traderPositions d !! i = Some p /\ is_open_position_of sessionId p = true.
Proof.
  unfold open_positions_of. rewrite list_elem_of_filter, elem_of_lookup_imap.
  cbn. split.
  - intros [Ho (j & q & [= -> ->] & Hl)]. auto.
  - intros [Hl Ho]. eauto.
Qed.

Lemma open_positions_NoDup sessionId d :
  NoDup ((open_positions_of sessionId d).*1).
Proof.
  unfold open_positions_of.
  apply (sublist_NoDup _ ((imap pair (traderPositions d)).*1));
    [|apply fmap_sublist, sublist_filter].
  rewrite fmap_imap.
  rewrite (imap_ext _ (fun i _ => i)) by reflexivity.
  rewrite (imap_seq_0 _ (fun i => i)), list_fmap_id. apply NoDup_seq.
Qed.

Lemma closed_as_fields reason price p p' :
  closed_as reason price p p' ->
  p_status p' = position_closed
  /\ closeReason p' = Some reason
  /\ exitPrice p' = match price with Some x => Some x | None => exitPrice p end
  /\ realizedPnl p' = realizedPnl p
  /\ oandaTradeId p' = oandaTradeId p
  /\ entryPrice p' = entryPrice p
  /\ direction p' = direction p
  /\ units p' = units p.
Proof.
  intros [t ->]. destruct p, price; cbn; repeat split.
Qed.

Lemma closePositionRecord_closes rt positionId price reason w p :
  positions_of w !! positionId = Some p ->
  is_Some (sessions_of w !! p_sessionId p) ->
  exists w' p',
    runMutation (closePositionRecord rt positionId price None reason) w
      = (Ok tt, w')
    /\ closed_as reason price p p'
    /\ positions_of w' = <[positionId := p']> (positions_of w)
    /\ length (sessions_of w') = length (sessions_of w).
Proof.
  intros Hp [s Hs]. unfold positions_of, sessions_of in *.
  unfold runMutation, closePositionRecord, bind, db_get_position, Date_now,
    db_patch_position, db_patch_session, set_db.
  cbn. rewrite Hp. cbn. rewrite Hp. cbn. rewrite Hs. cbn.
  eexists _, _. split; [reflexivity|]. split; [eexists; reflexivity|].
  split; [reflexivity|]. apply length_insert.
Qed.

Lemma logEvent_effect rt sessionId lvl msg dtl w :
  exists w',
    runMutation (logEvent rt sessionId lvl msg dtl) w = (Ok tt, w')
    /\ positions_of w' = positions_of w
    /\ sessions_of w' = sessions_of w
    /\ requests w' = requests w.
Proof. eexists. split; [reflexivity|]. repeat split. Qed.

Lemma reconcile_loop rt sessionId liveIds price xs :
  forall w,
    (forall i p, (i, p) ∈ xs ->
                 positions_of w !! i = Some p /\ p_sessionId p = sessionId) ->
    NoDup xs.*1 ->
    is_Some (sessions_of w !! sessionId) ->
    exists w',
      for_each xs (reconcilePosition rt sessionId liveIds price) w = (Ok tt, w')
      /\ is_Some (sessions_of w' !! sessionId)
      /\ forall j q,
           positions_of w !! j = Some q ->
           exists q',
             positions_of w' !! j = Some q'
             /\ if bool_decide (j ∈ xs.*1) && stale liveIds q
                then closed_as "broker-closed" price q q'
                else q' = q.
Proof.
  induction xs as [|[i p] xs IH]; intros w Hxs Hnd Hs.
  - exists w. split; [reflexivity|]. split; [assumption|].
    intros j q Hq. exists q. split; [assumption|].
    rewrite bool_decide_eq_false_2 by apply not_elem_of_nil. reflexivity.
  - assert (Hin : (i, p) ∈ (i, p) :: xs) by apply list_elem_of_here.
    pose proof (Hxs i p Hin) as [Hp Hsid].
    rewrite fmap_cons in Hnd. apply NoDup_cons in Hnd as [Hi Hnd]. cbn in Hi.
    cbn [for_each]. unfold bind at 1. unfold reconcilePosition. cbn [fst snd].
    fold (stale liveIds p).
    destruct (stale liveIds p) eqn:Hst.
    + unfold bind at 1.
      destruct (closePositionRecord_closes rt i price "broker-closed" w p Hp)
        as (w1 & p' & Hrun & Hcl & Hpos & Hlen).
      { now rewrite Hsid. }
      rewrite Hrun.
      destruct (logEvent_effect rt sessionId trade
                  "Detected broker-closed position"
                  (Some [("positionId", VId i);
                         ("tradeId", VOptString (oandaTradeId p))]) w1)
        as (w2 & Hlog & Hp2 & Hs2 & _).
      rewrite Hlog.
      assert (Hs' : is_Some (sessions_of w2 !! sessionId)).
      { rewrite Hs2. apply lookup_lt_is_Some. rewrite Hlen.
        now apply lookup_lt_is_Some. }
      destruct (IH w2) as (w' & Hfor & Hsw' & Hall); [|assumption|assumption|].
      { intros j q Hj.
        assert (Hin' : (j, q) ∈ (i, p) :: xs) by apply list_elem_of_further, Hj.
        pose proof (Hxs j q Hin') as [Hq Hqs].
        split; [|assumption]. rewrite Hp2, Hpos.
        rewrite list_lookup_insert_ne; [assumption|].
        intros ->. apply Hi. apply list_elem_of_fmap. now exists (j, q). }
      exists w'. split; [assumption|]. split; [assumption|].
      intros j q Hq. destruct (decide (j = i)) as [->|Hne].
      * assert (q = p) by congruence. subst q.
        destruct (Hall i p') as (q' & Hq' & Hcase).
        { rewrite Hp2, Hpos. apply list_lookup_insert_eq.
          now apply lookup_lt_Some in Hp. }
        exists q'. split; [assumption|].
        rewrite bool_decide_eq_false_2 in Hcase by assumption.
        cbn in Hcase. subst q'.
        rewrite bool_decide_eq_true_2 by apply list_elem_of_here. now rewrite Hst.
      * destruct (Hall j q) as (q' & Hq' & Hcase).
        { rewrite Hp2, Hpos. now rewrite list_lookup_insert_ne. }
        exists q'. split; [assumption|].
        rewrite fmap_cons. cbn [fst].
        replace (bool_decide (j ∈ i :: xs.*1)) with (bool_decide (j ∈ xs.*1));
          [assumption|].
        apply bool_decide_ext. rewrite elem_of_cons. tauto.
    + unfold ret.
      destruct (IH w) as (w' & Hfor & Hsw' & Hall); [|assumption|assumption|].
      { intros j q Hj. apply Hxs. apply list_elem_of_further, Hj. }
      exists w'. split; [assumption|]. split; [assumption|].
      intros j q Hq. destruct (Hall j q Hq) as (q' & Hq' & Hcase).
      exists q'. split; [assumption|].
      destruct (decide (j = i)) as [->|Hne].
      * assert (q = p) by congruence. subst q.
        rewrite Hst, andb_false_r in *. assumption.
      * rewrite fmap_cons. cbn [fst].
        replace (bool_decide (j ∈ i :: xs.*1)) with (bool_decide (j ∈ xs.*1));
          [assumption|].
        apply bool_decide_ext. rewrite elem_of_cons. tauto.
Qed.

Lemma in_open_positions sessionId w i p :
  positions_of w !! i = Some p ->
  bool_decide (i ∈ (open_positions_of sessionId (db w)).*1)
  = is_open_position_of sessionId p.
Proof.
  intros Hp. unfold positions_of in Hp.
  destruct (is_open_position_of sessionId p) eqn:Ho.
  - apply bool_decide_eq_true_2, list_elem_of_fmap. exists (i, p).
    split; [reflexivity|]. now apply elem_of_open_positions.
  - apply bool_decide_eq_false_2. intros Hin.
    apply list_elem_of_fmap in Hin as ([j q] & -> & Hin).
    apply elem_of_open_positions in Hin as [Hq Hopen]. cbn in *.
    congruence.
Qed.

Lemma open_position_session sessionId p :
  is_open_position_of sessionId p = true -> p_sessionId p = sessionId.
Proof.
  unfold is_open_position_of. intros H.
  apply andb_prop in H as [H _]. now apply Nat.eqb_eq.
Qed.

Lemma reconcilePositions_spec rt sessionId price w stored :
  sessions_of w !! sessionId = Some stored ->
  exists remaining w',
    reconcilePositions rt sessionId (open_positions_of sessionId (db w)) price w
      = (Ok remaining, w')
    /\ remaining = open_positions_of sessionId (db w')
    /\ is_Some (sessions_of w' !! sessionId)
    /\ (forall i p,
           positions_of w !! i = Some p ->
           Js.truthy_ostring (oandaTradeId p) = false ->
           positions_of w' !! i = Some p)
    /\ (forall liveTrades wl,
           isOandaConfigured rt = true ->
           getOpenTrades rt w = (Ok liveTrades, wl) ->
           forall i p,
                positions_of w !! i = Some p ->
                exists p',
                  positions_of w' !! i = Some p'
                  /\ if is_open_position_of sessionId p
                        && stale (map live_id liveTrades) p
                     then p_status p' = position_closed
                          /\ closeReason p' = Some "broker-closed"
                          /\ exitPrice p' = match price with
                                            | Some x => Some x
                                            | None => exitPrice p
                                            end
                          /\ realizedPnl p' = realizedPnl p
                     else p' = p).
Proof.
  intros Hs. unfold reconcilePositions.
  destruct (negb (length (open_positions_of sessionId (db w)) =? 0)%nat
            && isOandaConfigured rt) eqn:Hguard.
  - unfold try_catch, bind at 1.
    pose proof (getOpenTrades_db rt w) as Hdb. unfold same in Hdb.
    destruct (getOpenTrades rt w) as [[liveTrades|msg] wl] eqn:Hg;
      cbn [snd] in Hdb.
    + destruct (reconcile_loop rt sessionId (map live_id liveTrades) price
                  (open_positions_of sessionId (db w)) wl)
        as (w1 & Hloop & Hs1 & Hall).
      { intros i p Hin. apply elem_of_open_positions in Hin as [Hp Ho].
        unfold positions_of. rewrite Hdb.
        split; [assumption|now apply open_position_session]. }
      { apply open_positions_NoDup. }
      { unfold sessions_of in *. rewrite Hdb. eauto. }
      unfold bind at 1. rewrite Hloop.
      destruct Hs1 as [s1 Hs1].
      assert (Hall' : forall j q, positions_of w !! j = Some q ->
                exists q', positions_of w1 !! j = Some q'
                  /\ if is_open_position_of sessionId q
                        && stale (map live_id liveTrades) q
                     then closed_as "broker-closed" price q q' else q' = q).
      { intros j q Hq. rewrite <- (in_open_positions sessionId w j q Hq).
        apply Hall. unfold positions_of in *. now rewrite Hdb. }
      exists (open_positions_of sessionId (db w1)), w1.
      split; [|split; [reflexivity|split; [eauto|split]]].
      * unfold refreshed_open_positions, runQuery, bind, getSessionState.
        unfold sessions_of in Hs1. now rewrite Hs1.
      * intros i p Hp Hpaper. destruct (Hall' i p Hp) as (p' & Hp' & Hcase).
        unfold stale in Hcase. rewrite Hpaper, andb_false_r in Hcase.
        now subst p'.
      * intros liveTrades' wl' _ [= <- _].
        intros i p Hp. destruct (Hall' i p Hp) as (p' & Hp' & Hcase).
        exists p'. split; [assumption|].
        destruct (is_open_position_of sessionId p && stale _ p); [|assumption].
        apply closed_as_fields in Hcase. tauto.
    + destruct (logEvent_effect rt sessionId warn
                  ("Failed to sync open trades: " +:+ formatError msg) None wl)
        as (w1 & Hlog & Hp1 & Hs1 & _).
      unfold bind. rewrite Hlog. unfold ret.
      exists (open_positions_of sessionId (db w)), w1. split; [reflexivity|].
      unfold positions_of, sessions_of in *.
      split; [unfold open_positions_of; now rewrite Hp1, Hdb|].
      split; [rewrite Hs1, Hdb; eauto|].
      split; [|discriminate].
      intros i p Hp _. now rewrite Hp1, Hdb.
  - exists (open_positions_of sessionId (db w)), w.
    split; [reflexivity|]. split; [reflexivity|]. split; [eauto|].
    split; [auto|].
    intros liveTrades wl Hc _. rewrite Hc, andb_true_r in Hguard.
    apply negb_false_iff, Nat.eqb_eq, nil_length_inv in Hguard.
    intros i p Hp. exists p. split; [assumption|].
    rewrite <- (in_open_positions sessionId w i p Hp), Hguard.
    rewrite bool_decide_eq_false_2 by apply not_elem_of_nil. reflexivity.
Qed.


(** ** The recorded error message *)

Lemma retains_framing Q sessionId : Framing (retains Q sessionId).
Proof. split; unfold retains, holds, sessions_of; cbn; auto. Qed.

Lemma same_sessions_retains {A} Q sessionId (a : Action A) :
  keeps (same sessions_of) a -> keeps (retains Q sessionId) a.
Proof. intros H w. unfold retains, holds. now rewrite H. Qed.

Lemma patch_other_retains Q sessionId target patch :
  target <> sessionId ->
  keeps (retains Q sessionId) (db_patch_session target patch).
Proof.
  intros Hne w. unfold retains, holds, sessions_of, db_patch_session.
  destruct (traderSessions (db w) !! target); cbn; [|auto].
  now rewrite list_lookup_insert_ne.
Qed.

Lemma patch_harmless_retains Q sessionId target patch :
  harmless Q patch ->
  keeps (retains Q sessionId) (db_patch_session target patch).
Proof.
  intros Hh w. unfold retains, holds, sessions_of, db_patch_session.
  destruct (traderSessions (db w) !! target) as [s0|] eqn:Ht; cbn; [|auto].
  intros (s & Hs & HQ). destruct (decide (target = sessionId)) as [->|Hne].
  - exists (patch_session patch s0).
    split; [apply list_lookup_insert_eq; now apply lookup_lt_Some in Ht|].
    assert (s0 = s) by congruence. subst s0. now apply Hh.
  - exists s. now rewrite list_lookup_insert_ne.
Qed.

Lemma insert_session_retains Q sessionId s :
  keeps (retains Q sessionId) (db_insert_session s).
Proof.
  intros w. unfold retains, holds, sessions_of, db_insert_session. cbn.
  intros (s0 & Hs & H). exists s0. split; [|assumption].
  now apply lookup_app_l_Some.
Qed.

Lemma harmless_updatedAt m t : harmless (failed_with m) [f_updatedAt t].
Proof. intros [] H. exact H. Qed.

Lemma harmless_config m c t : harmless (failed_with m) [f_config c; f_updatedAt t].
Proof. intros [] H. exact H. Qed.

Lemma signal_harmless_updatedAt sg t :
  harmless (fun s => lastSignal s = Some sg) [f_updatedAt t].
Proof. intros [] H. exact H. Qed.

#[local] Hint Resolve retains_framing insert_session_retains
  harmless_updatedAt harmless_config signal_harmless_updatedAt : frame.
#[local] Hint Extern 4 (keeps (retains _ _) (db_patch_session _ _)) =>
  first [ apply patch_harmless_retains; solve [auto with frame]
        | apply patch_other_retains; solve [auto] ] : frame.
#[local] Hint Extern 6 (keeps (retains _ _) _) =>
  apply same_sessions_retains; solve [primitive_keeps] : frame.

Section Retained.

Variable rt : Runtime.
Variables (sessionId : nat) (m : string).

Lemma evaluateSession_other_retains target reason :
  target <> sessionId ->
  keeps (retains (failed_with m) sessionId) (evaluateSession rt target reason).
Proof. intros Hne. unfold_handlers. auto 40 with frame. Qed.

Lemma evaluateSession_retains target reason :
  keeps (retains (failed_with m) sessionId) (evaluateSession rt target reason).
Proof.
  destruct (decide (target = sessionId)) as [->|Hne];
    [|now apply evaluateSession_other_retains].
  intros w Hin. destruct Hin as (s & Hs & Hst & Hm).
  rewrite (evaluateSession_idle rt sessionId reason w s Hs) by congruence.
  exists s. split; [assumption|now split].
Qed.

Lemma closeSessionPositions_retains target reason :
  keeps (retains (failed_with m) sessionId) (closeSessionPositions rt target reason).
Proof. unfold_handlers. auto 40 with frame. Qed.

Lemma tickActiveSessions_retains :
  keeps (retains (failed_with m) sessionId) (tickActiveSessions rt).
Proof.
  unfold tickActiveSessions, runQuery, runAction.
  pose proof evaluateSession_retains. auto 10 with frame.
Qed.

End Retained.

(** C9, as stated, fails: stopping a session in status [error] removes
    its error message. *)
Lemma error_message_counterexample :
  let w := Demo.world
             [Demo.session status_error (Demo.cfg 1 3) (Some "boom")] [] in
  in_error 0 "boom" w
  /\ (errorMessage <$> sessions_of (after Demo.paper (op_stopSession 0 None) w)
                        !! 0%nat) = Some None.
Proof.
  intros w. split.
  - eexists. repeat split.
  - vm_compute. reflexivity.
Qed.

(** C9 (amended): once a session is in status [error] with a message
    recorded, every engine operation other than a start or a stop of that
    session leaves it in status [error] with that message; a start and a
    stop of the session both remove the message. *)
Theorem error_message_retained rt sessionId m w :
  in_error sessionId m w ->
  (forall op,
      op <> op_startSession sessionId ->
      (forall closePositions, op <> op_stopSession sessionId closePositions) ->
      in_error sessionId m (after rt op w))
  /\ (errorMessage <$> sessions_of (after rt (op_startSession sessionId) w)
                        !! sessionId) = Some None
  /\ (forall closePositions,
        (errorMessage
           <$> sessions_of
                 (after rt (op_stopSession sessionId closePositions) w)
                 !! sessionId) = Some None).
Proof.
  intros Hin. split; [|split].
  - intros op Hstart Hstop. revert Hin. unfold after.
    change (retains (failed_with m) sessionId w (snd (run rt op w))).
    revert w. change (keeps (retains (failed_with m) sessionId) (run rt op)).
    destruct op as [args|target config|target|target closePositions|target
                   |target reason| |target reason]; cbn [run].
    + unfold_handlers. auto 20 with frame.
    + unfold_handlers. auto 20 with frame.
    + assert (target <> sessionId) by congruence.
      unfold_handlers. auto 20 with frame.
    + assert (target <> sessionId) by (intros ->; now apply (Hstop closePositions)).
      unfold_handlers. auto 20 with frame.
    + unfold_handlers. auto 20 with frame.
    + apply closeSessionPositions_retains.
    + apply tickActiveSessions_retains.
    + apply evaluateSession_retains.
  - destruct Hin as (s & Hs & Hst & Hm). unfold sessions_of in Hs.
    unfold after, run, runMutation, startSession, bind, db_get_session, lift,
      requireSession, Date_now, db_patch_session, db_insert_log,
      scheduler_runAfter, set_db.
    cbn. rewrite Hs. cbn. rewrite Hst. cbn. rewrite Hs. cbn.
    unfold sessions_of. cbn.
    rewrite list_lookup_insert_eq by (now apply lookup_lt_Some in Hs).
    now destruct s.
  - intros closePositions.
    destruct Hin as (s & Hs & Hst & Hm). unfold sessions_of in Hs.
    unfold after, run, runMutation, stopSession, bind, db_get_session, lift,
      requireSession, Date_now, db_patch_session, db_insert_log,
      scheduler_runAfter, set_db.
    cbn. rewrite Hs. cbn.
    destruct (default true closePositions); unfold sessions_of; cbn;
      rewrite list_lookup_insert_eq by (now apply lookup_lt_Some in Hs);
      now destruct s.
Qed.

Lemma error_message_retained_witness :
  let w := Demo.world
             [Demo.session status_error (Demo.cfg 1 3) (Some "boom")] [] in
  in_error 0 "boom" (after Demo.paper (op_evaluateSession 0 None) w)
  /\ in_error 0 "boom" (after Demo.paper (op_updateSession 0 (Demo.cfg 2 5)) w).
Proof.
  intros w.
  assert (Hin : in_error 0 "boom" w) by (eexists; repeat split).
  destruct (error_message_retained Demo.paper 0%nat "boom" w Hin) as [H _].
  split; apply H; discriminate.
Defined.

(** ** When a tick opens a position *)

Lemma position_count_framing : Framing (same position_count).
Proof.
  split; unfold same, position_count, positions_of; intros; cbn; congruence.
Qed.

Lemma db_patch_position_count positionId patch :
  keeps (same position_count) (db_patch_position positionId patch).
Proof.
  intros w. unfold same, position_count, positions_of, db_patch_position.
  destruct (traderPositions (db w) !! positionId); cbn; [|reflexivity].
  apply length_insert.
Qed.

#[local] Hint Resolve position_count_framing db_patch_position_count : frame.

Lemma bind_Ok {A B} (m : Action A) (k : A -> Action B) w b w' :
  bind m k w = (Ok b, w') ->
  exists a w1, m w = (Ok a, w1) /\ k a w1 = (Ok b, w').
Proof.
  unfold bind. destruct (m w) as [[a|msg] w1]; [eauto|discriminate].
Qed.

Lemma open_positions_same sessionId d d' :
  traderPositions d' = traderPositions d ->
  open_positions_of sessionId d' = open_positions_of sessionId d.
Proof. unfold open_positions_of. intros Hd. now rewrite Hd. Qed.

Lemma open_positions_app sessionId d d' p :
  traderPositions d' = traderPositions d ++ [p] ->
  is_open_position_of sessionId p = true ->
  open_positions_of sessionId d'
  = open_positions_of sessionId d ++ [(length (traderPositions d), p)].
Proof.
  intros Hd Hp. unfold open_positions_of. rewrite Hd.
  rewrite imap_app, filter_app. f_equal. cbn.
  rewrite Nat.add_0_r.
  destruct (decide (is_open_position_of sessionId p = true));
    [reflexivity|contradiction].
Qed.

Section Opening.

Variable rt : Runtime.

Lemma settle_count sessionId session openPositions reason a :
  keeps (same position_count)
    (settle rt sessionId session openPositions reason a).
Proof. unfold_handlers. auto 40 with frame. Qed.

Lemma evaluationFailed_count sessionId error :
  keeps (same position_count) (evaluationFailed rt sessionId error).
Proof. unfold_handlers. auto 20 with frame. Qed.

Lemma refreshed_view sessionId w :
  is_Some (sessions_of w !! sessionId) ->
  refreshed_open_positions sessionId w
  = (Ok (open_positions_of sessionId (db w)), w).
Proof.
  intros [s Hs]. unfold sessions_of in Hs.
  unfold refreshed_open_positions, runQuery, bind, getSessionState.
  now rewrite Hs.
Qed.

Lemma closePositionWithBroker_stays target sessionId session position price
    reason :
  keeps (session_stays target)
    (closePositionWithBroker rt sessionId session position price reason).
Proof. unfold_handlers. auto 30 with frame. Qed.

Lemma closeOnSignal_view sessionId session signal price w remaining w' :
  is_Some (sessions_of w !! sessionId) ->
  closeOnSignal rt sessionId session (open_positions_of sessionId (db w))
    signal price w = (Ok remaining, w') ->
  remaining = open_positions_of sessionId (db w')
  /\ is_Some (sessions_of w' !! sessionId).
Proof.
  intros Hs. unfold closeOnSignal.
  destruct (head (open_positions_of sessionId (db w))) as [active|];
    [|intros [= <- <-]; auto].
  destruct (_ || _); [|intros [= <- <-]; auto].
  intros H. apply bind_Ok in H as ([] & w1 & Hlog & H).
  apply bind_Ok in H as ([] & w2 & Hclose & H).
  assert (Hs2 : is_Some (sessions_of w2 !! sessionId)).
  { pose proof (closePositionWithBroker_stays sessionId sessionId session active
                  price (if signal_eqb signal neutral then "neutral-signal"
                         else "signal-flip") w1) as Hk.
    rewrite Hclose in Hk. apply Hk.
    destruct (logEvent_effect rt sessionId info
                "Signal requires closing current position"
                (Some [("signal", VString (signal_name signal));
                       ("activeDirection",
                        VString (direction_name (direction (snd active))))]) w)
      as (w1' & Hlog' & _ & Hs1 & _).
    rewrite Hlog in Hlog'. injection Hlog' as <-. now rewrite Hs1. }
  rewrite (refreshed_view sessionId w2 Hs2) in H.
  injection H as <- <-. auto.
Qed.

Lemma settle_view sessionId session reason a w stored remaining w' :
  sessions_of w !! sessionId = Some stored ->
  settle rt sessionId session (open_positions_of sessionId (db w)) reason a w
    = (Ok remaining, w') ->
  remaining = open_positions_of sessionId (db w')
  /\ is_Some (sessions_of w' !! sessionId).
Proof.
  intros Hs H. unfold settle in H.
  apply bind_Ok in H as (t & w1 & Hnow & H).
  apply bind_Ok in H as ([] & w2 & Hupd & H).
  apply bind_Ok in H as ([] & w3 & Hlog & H).
  apply bind_Ok in H as (reconciled & w4 & Hrec & H).
  assert (Hp3 : positions_of w3 = positions_of w).
  { pose proof (keeps_runMutation same_positions_framing _
                  (logEvent_positions rt sessionId analysis "Tick processed"
                     (Some [("shortMA", VOptNumber (a_shortMA a));
                            ("longMA", VOptNumber (a_longMA a));
                            ("latestPrice", VOptNumber (a_latestPrice a));
                            ("signal", VString (signal_name (a_signal a)));
                            ("previousSignal",
                             VString (signal_name (a_previousSignal a)));
                            ("reason", VString (default "scheduled" reason))]))
                  w2) as H3.
    pose proof (keeps_runMutation same_positions_framing _
                  (updateAnalytics_positions rt sessionId (a_shortMA a)
                     (a_longMA a) (a_latestPrice a) (Some (a_signal a))
                     (Some t) None) w1) as H2.
    rewrite Hlog in H3. rewrite Hupd in H2. unfold same in *. cbn [snd] in *.
    rewrite H3, H2. injection Hnow as _ <-. reflexivity. }
  assert (Hs3 : is_Some (sessions_of w3 !! sessionId)).
  { assert (Hk : keeps (session_stays sessionId)
                   (t <- Date_now rt ;;
                    runMutation
                      (updateAnalytics rt sessionId (a_shortMA a) (a_longMA a)
                         (a_latestPrice a) (Some (a_signal a)) (Some t) None) ;;
                    runMutation
                      (logEvent rt sessionId analysis "Tick processed"
                         (Some [("shortMA", VOptNumber (a_shortMA a));
                                ("longMA", VOptNumber (a_longMA a));
                                ("latestPrice", VOptNumber (a_latestPrice a));
                                ("signal", VString (signal_name (a_signal a)));
                                ("previousSignal",
                                 VString (signal_name (a_previousSignal a)));
                                ("reason",
                                 VString (default "scheduled" reason))])))).
    { unfold_handlers. auto 30 with frame. }
    specialize (Hk w). unfold bind in Hk. rewrite Hnow, Hupd, Hlog in Hk.
    apply Hk. eauto. }
  destruct Hs3 as [s3 Hs3].
  rewrite <- (open_positions_same sessionId (db w) (db w3) Hp3) in Hrec.
  destruct (reconcilePositions_spec rt sessionId (a_latestPrice a) w3 s3 Hs3)
    as (reconciled' & w4' & Hrec' & Hview & Hs4 & _).
  rewrite Hrec in Hrec'. injection Hrec' as <- <-. subst reconciled.
  now apply closeOnSignal_view in H.
Qed.

End Opening.

Lemma signal_eqb_spec a b : signal_eqb a b = true <-> a = b.
Proof. destruct a, b; cbn; split; congruence. Qed.

Lemma opens_position_spec remaining signal previous :
  opens_position remaining signal previous = true
  <-> remaining = [] /\ signal <> neutral /\ signal <> previous.
Proof.
  unfold opens_position. rewrite !andb_true_iff, !negb_true_iff, Nat.eqb_eq.
  rewrite <- !not_true_iff_false, !signal_eqb_spec.
  split; intros [[H1 H2] H3] || intros [H1 [H2 H3]]; repeat split; auto.
  - now apply nil_length_inv.
  - now rewrite H1.
Qed.

Section OpeningTick.

Variable rt : Runtime.

Lemma updateAnalytics_signal sessionId a b c sg e w w' :
  runMutation (updateAnalytics rt sessionId a b c (Some sg) e None) w
    = (Ok tt, w') ->
  holds (fun s => lastSignal s = Some sg) sessionId w'.
Proof.
  unfold runMutation, updateAnalytics, bind, Date_now, db_patch_session, set_db.
  cbn. destruct (traderSessions (db w) !! sessionId) as [s|] eqn:Hs;
    [|discriminate].
  intros [= <-]. unfold holds, sessions_of. cbn.
  eexists. split; [apply list_lookup_insert_eq; now apply lookup_lt_Some in Hs|].
  unfold patch_session. rewrite !fold_left_app.
  destruct s, a, b, c, e; reflexivity.
Qed.

Lemma settle_signal sessionId session openPositions reason a w remaining w' :
  settle rt sessionId session openPositions reason a w = (Ok remaining, w') ->
  holds (fun s => lastSignal s = Some (a_signal a)) sessionId w'.
Proof.
  intros H. unfold settle in H.
  apply bind_Ok in H as (t & w1 & Hnow & H).
  apply bind_Ok in H as ([] & w2 & Hupd & H).
  apply updateAnalytics_signal in Hupd.
  match type of H with
  | bind ?m ?k w2 = _ =>
      assert (Hk : keeps (retains (fun s => lastSignal s = Some (a_signal a))
                            sessionId) (bind m k))
  end.
  { unfold_handlers. auto 40 with frame. }
  specialize (Hk w2). rewrite H in Hk. now apply Hk.
Qed.

Lemma openOnSignal_signal sessionId session remaining signal previous price sg :
  keeps (retains (fun s => lastSignal s = Some sg) sessionId)
    (openOnSignal rt sessionId session remaining signal previous price).
Proof. unfold_handlers. auto 40 with frame. Qed.

Lemma evaluate_throw_count sessionId session openPositions reason w msg w' :
  evaluate rt sessionId session openPositions reason w = (Throw msg, w') ->
  position_count w' = position_count w.
Proof.
  unfold evaluate. unfold bind at 1.
  pose proof (fetchCandles_db rt (instrument (config session))
                (granularity (config session))
                (Z.max (longWindow (config session) * 2)
                       (longWindow (config session) + 5)) w) as Hdb.
  unfold same in Hdb.
  destruct (fetchCandles _ _ _ _ w) as [[candles|m0] wa]; cbn [snd] in Hdb.
  - destruct (_ <? _).
    + destruct (logEvent_returns rt sessionId warn
                  ("Not enough historical candles to evaluate strategy (have "
                   +:+ pretty (length (closing_prices rt candles)) +:+ ", need "
                   +:+ pretty (longWindow (config session)) +:+ ")") None wa)
        as [w1 ->]. discriminate.
    + cbv zeta. unfold bind at 1.
      pose proof (settle_count rt sessionId session openPositions reason
                    (analyse session (closing_prices rt candles)) wa) as Hc.
      unfold same in Hc.
      destruct (settle _ _ _ _ _ _ wa) as [[remaining|m1] w0]; cbn [snd] in Hc.
      * intros H. apply openOnSignal_throw_positions in H.
        unfold position_count, positions_of in *. now rewrite H, Hc, Hdb.
      * intros [= _ <-]. unfold position_count, positions_of in *.
        now rewrite Hc, Hdb.
  - intros [= _ <-]. unfold position_count, positions_of. now rewrite Hdb.
Qed.

End OpeningTick.

(** C2: the opening block of a tick does nothing unless the local list
    of open positions is empty, the new signal is not neutral and it
    differs from the previously recorded signal.  Consequently a tick
    inserts at most one position, and when it inserts one, that position
    is the session's only open position afterwards, its direction differs
    from the signal recorded before the tick, and its direction is the
    signal the tick leaves recorded. *)
Theorem opening_guard rt sessionId reason w :
  let w' := snd (evaluateSession rt sessionId reason w) in
  (forall remaining signal previous,
      opens_position remaining signal previous = true
      <-> remaining = [] /\ signal <> neutral /\ signal <> previous)
  /\ (forall session remaining signal previous price w0,
         opens_position remaining signal previous = false ->
         openOnSignal rt sessionId session remaining signal previous price w0
         = (Ok tt, w0))
  /\ (position_count w' = position_count w
      \/ exists session record,
           sessions_of w !! sessionId = Some session
           /\ position_count w' = S (position_count w)
           /\ positions_of w' !! position_count w = Some record
           /\ p_sessionId record = sessionId
           /\ p_status record = position_open
           /\ open_positions_of sessionId (db w') = [(position_count w, record)]
           /\ signal_of_direction (direction record)
              <> default neutral (lastSignal session)
           /\ holds (fun s => lastSignal s
                              = Some (signal_of_direction (direction record)))
                sessionId w').
Proof.
  intros w'. split; [exact opens_position_spec|]. split.
  { intros session remaining signal previous price w0 H.
    unfold openOnSignal. now rewrite H. }
  subst w'.
  destruct (sessions_of w !! sessionId) as [session|] eqn:Hs;
    [|rewrite evaluateSession_missing by assumption; now left].
  assert (Hr : status session = running \/ status session <> running)
    by (destruct (status session); [right|left|right]; congruence).
  destruct Hr as [Hr|Hr];
    [|rewrite (evaluateSession_idle rt _ _ _ _ Hs Hr); now left].
  rewrite (evaluateSession_running rt _ _ _ _ Hs Hr). unfold try_catch.
  destruct (evaluate rt sessionId session (open_positions_of sessionId (db w))
              reason w) as [[[]|msg] w1] eqn:He; cbn [snd].
  2:{ left. apply evaluate_throw_count in He.
      rewrite <- He. apply (evaluationFailed_count rt sessionId msg w1). }
  unfold evaluate in He. apply bind_Ok in He as (candles & wa & Hf & He).
  pose proof (fetchCandles_db rt (instrument (config session))
                (granularity (config session))
                (Z.max (longWindow (config session) * 2)
                       (longWindow (config session) + 5)) w) as Hdb.
  rewrite Hf in Hdb. unfold same in Hdb. cbn [snd] in Hdb.
  destruct (_ <? _).
  { left.
    pose proof (keeps_runMutation same_positions_framing _
                  (logEvent_positions rt sessionId warn
                     ("Not enough historical candles to evaluate strategy (have "
                      +:+ pretty (length (closing_prices rt candles))
                      +:+ ", need " +:+ pretty (longWindow (config session))
                      +:+ ")") None) wa) as Hk.
    rewrite He in Hk. unfold same in Hk. cbn [snd] in Hk.
    unfold position_count, positions_of in *. now rewrite Hk, Hdb. }
  cbv zeta in He. set (a := analyse session (closing_prices rt candles)) in *.
  apply bind_Ok in He as (remaining & w0 & Hsettle & Hopen).
  pose proof (settle_count rt sessionId session
                (open_positions_of sessionId (db w)) reason a wa) as Hc.
  rewrite Hsettle in Hc. unfold same in Hc. cbn [snd] in Hc.
  assert (Hcount : position_count w0 = position_count w).
  { rewrite Hc. unfold position_count, positions_of. now rewrite Hdb. }
  pose proof (settle_signal rt _ _ _ _ _ _ _ _ Hsettle) as Hsig.
  rewrite <- Hdb in Hsettle.
  apply (settle_view rt sessionId session reason a wa session) in Hsettle;
    [|unfold sessions_of in *; now rewrite Hdb].
  destruct Hsettle as [Hview _].
  unfold openOnSignal in Hopen.
  destruct (opens_position remaining (a_signal a) (a_previousSignal a)) eqn:Hg;
    [|injection Hopen as <-; now left].
  apply opens_position_spec in Hg as (Hnil & Hneutral & Hprev).
  apply bind_Ok in Hopen as ([] & wl & Hlog & Hopen).
  destruct (logEvent_effect rt sessionId info "Attempting to open new position"
              (Some [("signal", VString (signal_name (a_signal a)))]) w0)
    as (wl' & Hlog' & Hpl & Hsl & _).
  rewrite Hlog in Hlog'. injection Hlog' as <-.
  assert (Hsigl : holds (fun s => lastSignal s = Some (a_signal a)) sessionId wl).
  { destruct Hsig as (s & Hs0 & Hq). exists s. now rewrite Hsl. }
  assert (Hopened : exists dir, signal_of_direction dir = a_signal a
            /\ openPositionWithBroker rt sessionId session dir (a_latestPrice a) wl
               = (Ok tt, w1)).
  { destruct (a_signal a); [exists dir_long|exists dir_short|congruence];
      split; auto. }
  destruct Hopened as (dir & Hdir & Hrun).
  assert (Hsig1 : holds (fun s => lastSignal s = Some (a_signal a)) sessionId w1).
  { assert (Hk : keeps (retains (fun s => lastSignal s = Some (a_signal a))
                          sessionId)
                   (openPositionWithBroker rt sessionId session dir
                      (a_latestPrice a))).
    { unfold_handlers. auto 40 with frame. }
    specialize (Hk wl). rewrite Hrun in Hk. now apply Hk. }
  apply open_success_record in Hrun as (entry & tradeId & t & Hrec).
  right. eexists session, _.
  split; [reflexivity|].
  assert (Hlen : length (positions_of wl) = position_count w).
  { rewrite Hpl. exact Hcount. }
  unfold position_count in *.
  split; [rewrite Hrec, length_app, Hlen; cbn; lia|].
  split; [rewrite Hrec, <- Hlen; apply list_lookup_middle; reflexivity|].
  split; [reflexivity|]. split; [reflexivity|].
  split.
  - rewrite (open_positions_app sessionId (db wl) (db w1) _ Hrec).
    + rewrite (open_positions_same sessionId (db w0) (db wl) Hpl).
      rewrite <- Hview, Hnil. cbn. unfold positions_of in Hlen.
      now rewrite Hlen.
    + unfold is_open_position_of. cbn. now rewrite Nat.eqb_refl.
  - cbn. rewrite Hdir. split; [exact Hprev|exact Hsig1].
Qed.

Lemma opening_guard_witness :
  let w := Demo.world [Demo.session running (Demo.cfg 1 3) None] [] in
  let w' := snd (evaluateSession Demo.paper 0 None w) in
  exists record,
    open_positions_of 0 (db w') = [(0%nat, record)]
    /\ direction record = dir_long
    /\ holds (fun s => lastSignal s = Some long) 0 w'.
Proof.
  intros w w'.
  destruct (opening_guard Demo.paper 0%nat None w) as (_ & _ & [H|H]).
  - vm_compute in H. discriminate.
  - destruct H as (session & record & _ & _ & Hl & _ & _ & Ho & _ & Hs).
    exists record. split; [exact Ho|].
    assert (Hd : direction record = dir_long).
    { vm_compute in Hl. now injection Hl as <-. }
    split; [exact Hd|]. now rewrite Hd in Hs.
Defined.


(** * Further properties of the engine

    Properties of the parts of [convex/trader.ts] and [convex/lib/oanda.ts]
    the first part does not reach: validation, the session life cycle, the
    OANDA client, closing, the periodic sweep, the queries. *)

(** ** Validation *)

Lemma leb_zero_false x :
  PrimFloat.leb x 0 = false <-> positive_or_nan x.
Proof.
  unfold positive_or_nan, Js.gt.
  destruct (PrimFloat.is_nan x) eqn:Hn.
  - rewrite (FloatFacts.leb_nan_l x 0 Hn). tauto.
  - rewrite (FloatFacts.leb_negb_ltb 0 x eq_refl Hn).
    destruct (PrimFloat.ltb 0 x); cbn; intuition congruence.
Qed.

Lemma ltb_zero_false x :
  PrimFloat.ltb x 0 = false <-> nonnegative_or_nan x.
Proof.
  unfold nonnegative_or_nan, Js.ge.
  destruct (PrimFloat.is_nan x) eqn:Hn.
  - rewrite (FloatFacts.ltb_nan_l x 0 Hn). tauto.
  - rewrite (FloatFacts.leb_negb_ltb x 0 Hn eq_refl).
    destruct (PrimFloat.ltb x 0); cbn; intuition congruence.
Qed.

(** X1: [validateConfig], on windows that are whole numbers.  If the long
    window is not above the short one the configuration is rejected, with
    the message about the windows.  If it is above, the configuration is
    accepted exactly when the trade units and the two multipliers are
    positive or NaN and the neutral threshold is at least zero or NaN: NaN
    passes each of these checks, because each is a comparison that fails;
    the windows' signs are not looked at. *)
Theorem validateConfig_accepts (config : SessionConfig) :
  (longWindow config <= shortWindow config ->
   validateConfig config
   = Throw "Long window must be greater than short window.")
  /\ (shortWindow config < longWindow config ->
      (validateConfig config = Ok tt
       <-> positive_or_nan (tradeUnits config)
           /\ positive_or_nan (takeProfitMultiplier config)
           /\ positive_or_nan (stopLossMultiplier config)
           /\ nonnegative_or_nan (neutralThreshold config))).
Proof.
  unfold validateConfig, Js.le, Js.lt.
  rewrite <- !leb_zero_false, <- ltb_zero_false.
  destruct (Z.leb_spec (longWindow config) (shortWindow config)) as [Hle|Hlt].
  - split; [reflexivity|lia].
  - split; [lia|intros _].
    destruct (PrimFloat.leb (tradeUnits config) 0);
      [split; [discriminate|intuition congruence]|].
    destruct (PrimFloat.leb (takeProfitMultiplier config) 0);
      [split; [discriminate|intuition congruence]|].
    destruct (PrimFloat.leb (stopLossMultiplier config) 0);
      [split; [discriminate|intuition congruence]|].
    destruct (PrimFloat.ltb (neutralThreshold config) 0);
      [split; [discriminate|intuition congruence]|].
    cbn. tauto.
Qed.

Lemma validateConfig_accepts_witness :
  validateConfig (Demo.cfg 3 1)
  = Throw "Long window must be greater than short window.".
Proof. apply (proj1 (validateConfig_accepts (Demo.cfg 3 1))). cbn. lia. Defined.

(** ** The session life cycle *)

Lemma rollback_same w : rollback w w = w.
Proof. now destruct w. Qed.

(** X2: [createSession] stores nothing for a configuration the validator
    rejects.  For an accepted one it appends a session in status
    [stopped] with signal neutral and no error, returns the identifier
    under which [sessionById] then finds it, appends one info log entry of
    that session, and touches neither the sessions already stored nor the
    positions nor the scheduler. *)
Theorem createSession_stores rt args w :
  match validateConfig args with
  | Throw m => run rt (op_createSession args) w = (Throw m, w)
  | Ok _ =>
      exists w' t entry,
        createSession rt args w = (Ok (length (sessions_of w)), w')
        /\ sessions_of w' = sessions_of w ++
             [ {| config := args; status := stopped;
                  lastSignal := Some neutral; lastShortMA := None;
                  lastLongMA := None; lastPrice := None;
                  lastEvaluationTime := None; errorMessage := None;
                  createdAt := t; updatedAt := t |} ]
        /\ sessionById (length (sessions_of w)) w'
           = (Ok (Some {| config := args; status := stopped;
                          lastSignal := Some neutral; lastShortMA := None;
                          lastLongMA := None; lastPrice := None;
                          lastEvaluationTime := None; errorMessage := None;
                          createdAt := t; updatedAt := t |}), w')
        /\ logs_of w' = logs_of w ++ [entry]
        /\ l_sessionId entry = length (sessions_of w)
        /\ level entry = info
        /\ positions_of w' = positions_of w
        /\ scheduled w' = scheduled w
  end.
Proof.
  destruct (validateConfig args) as [[]|m] eqn:Hv.
  - unfold createSession, bind, lift. rewrite Hv.
    unfold Date_now, db_insert_session, db_insert_log, ret, set_db. cbn.
    eexists _, _, _. split; [reflexivity|].
    unfold sessions_of, logs_of, positions_of, sessionById. cbn.
    split; [reflexivity|]. split; [|repeat split].
    now rewrite list_lookup_middle.
  - unfold run, runMutation, createSession, bind, lift. rewrite Hv.
    now rewrite rollback_same.
Qed.

(** X3: [updateSession] changes nothing in the store when the validator
    rejects the configuration or the session does not exist.  Otherwise it
    replaces the configuration of that one session, whatever its status,
    and leaves its status, signal, analytics and error message, every
    other session and every position as they were. *)
Theorem updateSession_config_only rt sessionId new_config w :
  let r := run rt (op_updateSession sessionId new_config) w in
  match fst r with
  | Throw _ =>
      (validateConfig new_config <> Ok tt \/ sessions_of w !! sessionId = None)
      /\ db (snd r) = db w
  | Ok _ =>
      validateConfig new_config = Ok tt
      /\ positions_of (snd r) = positions_of w
      /\ exists s s',
           sessions_of w !! sessionId = Some s
           /\ sessions_of (snd r) = <[sessionId := s']> (sessions_of w)
           /\ config s' = new_config
           /\ status s' = status s
           /\ lastSignal s' = lastSignal s
           /\ lastShortMA s' = lastShortMA s
           /\ lastLongMA s' = lastLongMA s
           /\ lastPrice s' = lastPrice s
           /\ lastEvaluationTime s' = lastEvaluationTime s
           /\ errorMessage s' = errorMessage s
           /\ createdAt s' = createdAt s
  end.
Proof.
  cbv zeta. unfold run, runMutation, updateSession, bind, lift.
  destruct (validateConfig new_config) as [[]|m] eqn:Hv.
  - unfold Date_now, db_patch_session, db_insert_log, ret, set_db. cbn.
    destruct (traderSessions (db w) !! sessionId) as [s|] eqn:Hs; cbn.
    + split; [reflexivity|]. split; [reflexivity|].
      eexists s, _. split; [exact Hs|]. split; [reflexivity|].
      destruct s. cbn. repeat split.
    + split; [now right|reflexivity].
  - cbn. split; [left; discriminate|reflexivity].
Qed.

(** X4: [startSession] on a session that is already running does nothing
    at all: no log entry, no second tick scheduled.  On a stopped or failed
    session it sets the status to running, removes the error message,
    keeps every other field but the update time, appends one info log
    entry and schedules exactly one evaluation of that session.  On an
    unknown identifier it throws and changes nothing. *)
Theorem startSession_effect rt sessionId w :
  let r := run rt (op_startSession sessionId) w in
  match sessions_of w !! sessionId with
  | None =>
      r = (Throw ("Trader session " +:+ pretty sessionId +:+ " not found"), w)
  | Some s =>
      match status s with
      | running => r = (Ok tt, w)
      | _ =>
          fst r = Ok tt
          /\ (exists t,
                sessions_of (snd r)
                = <[sessionId :=
                      patch_session [f_status running; f_updatedAt t;
                                     f_errorMessage None] s]> (sessions_of w))
          /\ (exists entry,
                logs_of (snd r) = logs_of w ++ [entry]
                /\ level entry = info /\ l_sessionId entry = sessionId)
          /\ scheduled (snd r)
             = scheduled w ++ [job_evaluateSession sessionId (Some "manual-start")]
          /\ positions_of (snd r) = positions_of w
      end
  end.
Proof.
  cbv zeta. unfold run, runMutation, startSession, bind, db_get_session, lift,
    requireSession, sessions_of.
  destruct (traderSessions (db w) !! sessionId) as [s|] eqn:Hs; cbn.
  - destruct (status s) eqn:Hst; cbn.
    2:{ reflexivity. }
    all: unfold bind, Date_now, db_patch_session, db_insert_log,
           scheduler_runAfter, set_db; cbn; rewrite Hs; cbn;
         unfold logs_of, positions_of; cbn;
         (split; [reflexivity|]); (split; [eexists; reflexivity|]);
         (split; [eexists; repeat split|]); split; reflexivity.
  - now rewrite rollback_same.
Qed.

(** X5: [stopSession] is not guarded by the status: on every stored
    session it sets the status to stopped, removes the error message,
    appends one info log entry, and schedules the closing of the session's
    positions unless it is called with [closePositions = false].  It closes
    nothing itself: the positions are as they were. *)
Theorem stopSession_effect rt sessionId closePositions w s :
  sessions_of w !! sessionId = Some s ->
  let r := run rt (op_stopSession sessionId closePositions) w in
  fst r = Ok tt
  /\ (exists t,
        sessions_of (snd r)
        = <[sessionId :=
              patch_session [f_status stopped; f_updatedAt t;
                             f_errorMessage None] s]> (sessions_of w))
  /\ (exists entry,
        logs_of (snd r) = logs_of w ++ [entry]
        /\ level entry = info /\ l_sessionId entry = sessionId)
  /\ scheduled (snd r)
     = scheduled w ++
       match closePositions with
       | Some false => []
       | _ => [job_closeSessionPositions sessionId (Some "manual-stop")]
       end
  /\ positions_of (snd r) = positions_of w.
Proof.
  intros Hs. cbv zeta. unfold sessions_of in Hs.
  unfold run, runMutation, stopSession, bind, db_get_session, lift,
    requireSession, Date_now, db_patch_session, db_insert_log,
    scheduler_runAfter, ret, set_db.
  cbn. rewrite Hs. cbn. unfold sessions_of, logs_of, positions_of.
  destruct closePositions as [[]|]; cbn;
    (split; [reflexivity|]); (split; [eexists; reflexivity|]);
    (split; [eexists; repeat split|]); split;
    rewrite ?app_nil_r; reflexivity.
Qed.

Lemma stopSession_effect_witness :
  let w := Demo.world [Demo.session running (Demo.cfg 1 3) None]
             [Demo.position None dir_long] in
  let r := run Demo.paper (op_stopSession 0 (Some false)) w in
  fst r = Ok tt /\ scheduled (snd r) = [] /\ positions_of (snd r) = positions_of w.
Proof.
  intros w r.
  destruct (stopSession_effect Demo.paper 0%nat (Some false) w
              (Demo.session running (Demo.cfg 1 3) None) eq_refl)
    as (H1 & _ & _ & H2 & H3).
  split; [exact H1|]. split; [exact H2|exact H3].
Defined.

(** X6: [requestImmediateTick] does not look at the status.  On a session
    that is not running it appends its log entry and schedules a tick, and
    that tick, when it runs, changes nothing: all a manual tick leaves
    behind on a stopped or failed session is the one log entry. *)
Theorem manual_tick_when_not_running rt sessionId w s :
  sessions_of w !! sessionId = Some s ->
  status s <> running ->
  let w1 := after rt (op_requestImmediateTick sessionId) w in
  scheduled w1 = scheduled w ++ [job_evaluateSession sessionId (Some "manual-tick")]
  /\ (exists entry,
        logs_of w1 = logs_of w ++ [entry]
        /\ message entry = "Manual tick requested")
  /\ sessions_of w1 = sessions_of w
  /\ positions_of w1 = positions_of w
  /\ run rt (op_evaluateSession sessionId (Some "manual-tick")) w1 = (Ok tt, w1).
Proof.
  intros Hs Hr. cbv zeta.
  assert (E : after rt (op_requestImmediateTick sessionId) w
              = snd (scheduler_runAfter
                       (job_evaluateSession sessionId (Some "manual-tick"))
                       (snd (db_insert_log
                               {| l_sessionId := sessionId; level := info;
                                  message := "Manual tick requested";
                                  details := None;
                                  l_createdAt := clock_reading rt (clock w) |}
                               (snd (Date_now rt w)))))).
  { unfold after, run, runMutation, requestImmediateTick, bind, db_get_session,
      lift, requireSession.
    unfold sessions_of in Hs. rewrite Hs. reflexivity. }
  rewrite E. cbn.
  split; [reflexivity|]. split; [eexists; split; reflexivity|].
  split; [reflexivity|]. split; [reflexivity|].
  apply evaluateSession_idle with (session := s); [exact Hs|exact Hr].
Qed.

Lemma manual_tick_when_not_running_witness :
  let w := Demo.world [Demo.session stopped (Demo.cfg 1 3) None] [] in
  let w1 := after Demo.paper (op_requestImmediateTick 0) w in
  run Demo.paper (op_evaluateSession 0 (Some "manual-tick")) w1 = (Ok tt, w1)
  /\ sessions_of w1 = sessions_of w.
Proof.
  intros w w1.
  destruct (manual_tick_when_not_running Demo.paper 0%nat w
              (Demo.session stopped (Demo.cfg 1 3) None) eq_refl)
    as (_ & _ & H1 & _ & H2); [discriminate|].
  split; [exact H2|exact H1].
Defined.

(** ** What no operation does *)

Lemma same_scheduled_framing : Framing (same scheduled).
Proof. split; unfold same; intros; cbn; congruence. Qed.

#[local] Hint Resolve same_scheduled_framing : frame.

(** X7: the three actions never schedule anything.  A tick does not
    schedule the next tick, the sweep schedules no tick, and closing a
    session's positions schedules nothing: only the start, stop and
    manual-tick mutations put jobs in the queue. *)
Theorem actions_schedule_nothing rt op w :
  match op with
  | op_closeSessionPositions _ _ | op_tickActiveSessions
  | op_evaluateSession _ _ => scheduled (after rt op w) = scheduled w
  | _ => True
  end.
Proof.
  destruct op as [args|target config|target|target closePositions|target
                 |target reason| |target reason]; try exact I; unfold after.
  - change (same scheduled w (snd (run rt (op_closeSessionPositions target reason) w))).
    revert w. change (keeps (same scheduled)
                        (run rt (op_closeSessionPositions target reason))).
    cbn [run]. unfold_handlers. auto 40 with frame.
  - change (same scheduled w (snd (run rt op_tickActiveSessions w))).
    revert w. change (keeps (same scheduled) (run rt op_tickActiveSessions)).
    cbn [run]. unfold_handlers. auto 40 with frame.
  - change (same scheduled w (snd (run rt (op_evaluateSession target reason) w))).
    revert w. change (keeps (same scheduled)
                        (run rt (op_evaluateSession target reason))).
    cbn [run]. unfold_handlers. auto 40 with frame.
Qed.

Lemma extends_logs_framing : Framing extends_logs.
Proof.
  split; unfold extends_logs, logs_of.
  - intros w. exists []. now rewrite app_nil_r.
  - intros w1 w2 w3 [l1 H1] [l2 H2]. exists (l1 ++ l2).
    now rewrite H2, H1, app_assoc.
  - intros w w' _. exists []. cbn. now rewrite app_nil_r.
Qed.

Lemma same_logs_extends {A} (a : Action A) :
  keeps (same logs_of) a -> keeps extends_logs a.
Proof. intros H w. exists []. rewrite H. now rewrite app_nil_r. Qed.

Lemma db_insert_log_extends entry : keeps extends_logs (db_insert_log entry).
Proof. intros w. now exists [entry]. Qed.

#[local] Hint Resolve extends_logs_framing db_insert_log_extends : frame.
#[local] Hint Extern 6 (keeps extends_logs _) =>
  apply same_logs_extends; solve [primitive_keeps] : frame.

(** X8: the log is append-only.  Whatever the operation and whether it
    returns or throws, the log afterwards is the log before followed by
    new entries: no entry is ever changed, reordered or removed. *)
Theorem log_is_append_only rt op w :
  exists entries, logs_of (after rt op w) = logs_of w ++ entries.
Proof.
  unfold after. change (extends_logs w (snd (run rt op w))).
  revert w. change (keeps extends_logs (run rt op)).
  destruct op; cbn [run]; unfold_handlers; auto 40 with frame.
Qed.

Lemma positions_kept_framing : Framing positions_kept.
Proof.
  split; unfold positions_kept, positions_of.
  - intros w i p Hp. eauto.
  - intros w1 w2 w3 H1 H2 i p Hp.
    destruct (H1 i p Hp) as (p1 & Hp1 & Ho1 & Hc1).
    destruct (H2 i p1 Hp1) as (p2 & Hp2 & Ho2 & Hc2).
    exists p2. split; [assumption|]. split; [congruence|auto].
  - intros w w' _ i p Hp. cbn. eauto.
Qed.

Lemma same_positions_kept {A} (a : Action A) :
  keeps (same positions_of) a -> keeps positions_kept a.
Proof. intros H w i p Hp. rewrite H. eauto. Qed.

Lemma db_insert_position_kept p : keeps positions_kept (db_insert_position p).
Proof.
  intros w i q Hq. unfold positions_of in *. cbn.
  exists q. split; [now apply lookup_app_l_Some|auto].
Qed.

Lemma db_patch_position_kept positionId patch :
  closing patch -> keeps positions_kept (db_patch_position positionId patch).
Proof.
  intros Hc w i q Hq. unfold positions_of, db_patch_position in *.
  destruct (traderPositions (db w) !! positionId) as [p|] eqn:Hp; cbn;
    [|eauto].
  destruct (decide (positionId = i)) as [->|Hne].
  - assert (p = q) by congruence. subst p.
    exists (patch_position patch q). destruct (Hc q) as [H1 H2].
    split; [apply list_lookup_insert_eq; now apply lookup_lt_Some in Hq|auto].
  - exists q. rewrite list_lookup_insert_ne by assumption. auto.
Qed.

Lemma closing_close t reason a b :
  closing ([f_p_status position_closed; f_closedAt t; f_closeReason reason]
           ++ when_defined f_exitPrice a ++ when_defined f_realizedPnl b).
Proof. intros p. destruct p, a, b; cbn; split; reflexivity. Qed.

#[local] Hint Resolve positions_kept_framing db_insert_position_kept : frame.
#[local] Hint Extern 4 (keeps positions_kept (db_patch_position _ _)) =>
  apply db_patch_position_kept, closing_close : frame.
#[local] Hint Extern 6 (keeps positions_kept _) =>
  apply same_positions_kept; solve [primitive_keeps] : frame.

(** X9: no operation deletes a position, changes what it was opened with
    (session, direction, units, entry price, targets, broker trade
    identifier, opening time) or reopens it: a position that is closed stays
    closed under every operation, whether the operation returns or throws. *)
Theorem positions_are_kept rt op w i p :
  positions_of w !! i = Some p ->
  exists p',
    positions_of (after rt op w) !! i = Some p'
    /\ p_sessionId p' = p_sessionId p
    /\ direction p' = direction p
    /\ units p' = units p
    /\ entryPrice p' = entryPrice p
    /\ takeProfitPrice p' = takeProfitPrice p
    /\ stopLossPrice p' = stopLossPrice p
    /\ oandaTradeId p' = oandaTradeId p
    /\ openedAt p' = openedAt p
    /\ (p_status p = position_closed -> p_status p' = position_closed).
Proof.
  assert (H : keeps positions_kept (run rt op)).
  { destruct op; cbn [run]; unfold_handlers; auto 40 with frame. }
  intros Hp. destruct (H w i p Hp) as (p' & Hp' & Ho & Hc).
  exists p'. split; [exact Hp'|].
  unfold opening_data in Ho. injection Ho as -> -> -> -> -> -> -> ->.
  repeat split; auto.
Qed.

Lemma positions_are_kept_witness :
  let session := Scenario.session_with running (Demo.cfg 1 3) long in
  let w := Demo.world [session] [Demo.position None dir_long] in
  exists p',
    positions_of (after Scenario.paper_falling (op_evaluateSession 0 None) w)
      !! 0%nat = Some p'
    /\ entryPrice p' = 100%float
    /\ units p' = 10%float.
Proof.
  intros session w.
  destruct (positions_are_kept Scenario.paper_falling (op_evaluateSession 0 None)
              w 0%nat (Demo.position None dir_long) eq_refl)
    as (p' & H & _ & _ & Hu & He & _).
  exists p'. split; [exact H|]. split; [exact He|exact Hu].
Defined.

(** ** Failures stay inside the tick *)

Lemma evaluate_stays rt target sessionId session openPositions reason :
  keeps (session_stays target)
    (evaluate rt sessionId session openPositions reason).
Proof. unfold_handlers. auto 40 with frame. Qed.

Lemma evaluateSession_returns rt sessionId reason w :
  fst (evaluateSession rt sessionId reason w) = Ok tt.
Proof.
  destruct (sessions_of w !! sessionId) as [session|] eqn:Hs;
    [|now rewrite evaluateSession_missing].
  assert (Hr : status session = running \/ status session <> running)
    by (destruct (status session); [right|left|right]; congruence).
  destruct Hr as [Hr|Hr];
    [|now rewrite (evaluateSession_idle rt _ _ _ _ Hs Hr)].
  rewrite (evaluateSession_running rt _ _ _ _ Hs Hr). unfold try_catch.
  pose proof (evaluate_stays rt sessionId sessionId session
                (open_positions_of sessionId (db w)) reason w) as Hk.
  destruct (evaluate rt sessionId session _ reason w) as [[[]|msg] w1];
    [reflexivity|].
  cbn [snd] in Hk. destruct Hk as [stored Hstored]; [rewrite Hs; eauto|].
  destruct (evaluationFailed_result rt sessionId msg w1 stored Hstored)
    as (w2 & failed & -> & _).
  reflexivity.
Qed.

Lemma for_each_returns {A} (xs : list A) (body : A -> Action unit) :
  (forall x w, fst (body x w) = Ok tt) ->
  forall w, fst (for_each xs body w) = Ok tt.
Proof.
  intros Hb. induction xs as [|x xs IH]; intros w; [reflexivity|].
  cbn [for_each]. unfold bind. specialize (Hb x w).
  destruct (body x w) as [[[]|msg] w1]; [apply IH|discriminate].
Qed.

(** X10: a tick never throws.  Whatever the broker answers and whatever
    the store holds, [evaluateSession] returns normally: every failure of
    the evaluation is caught and written into the session.  The sweep
    [tickActiveSessions] therefore never throws either, so one failing
    session cannot keep the sessions after it from being evaluated. *)
Theorem ticks_never_throw rt w :
  (forall sessionId reason, fst (evaluateSession rt sessionId reason w) = Ok tt)
  /\ fst (tickActiveSessions rt w) = Ok tt.
Proof.
  split; [intros; apply evaluateSession_returns|].
  unfold tickActiveSessions, runQuery, runAction, bind, getActiveSessionIds.
  apply for_each_returns. intros. apply evaluateSession_returns.
Qed.

(** ** The OANDA client *)

Lemma requireApiKey_cases rt :
  if Js.truthy_ostring (OANDA_API_KEY rt)
  then exists key, requireApiKey rt = Ok key /\ OANDA_API_KEY rt = Some key
  else requireApiKey rt = Throw missing_api_key.
Proof.
  unfold requireApiKey, Js.truthy_ostring.
  destruct (OANDA_API_KEY rt) as [key|]; [|reflexivity].
  destruct (Js.truthy_string key); [eauto|reflexivity].
Qed.

(** X11: [oandaFetch] sends nothing when the API key is missing or empty:
    it throws and the world is as before.  With a key it sends exactly one
    request, to the base URL followed by the path and with the key as
    bearer token, whether the call then succeeds or fails (there is no
    retry), and it never writes to the store or the scheduler.  A reply
    outside 200-299 is thrown as "OANDA request failed (...)", and a 204
    reply yields no body. *)
Theorem oandaFetch_one_request rt path params init_method init_body w :
  let r := oandaFetch rt path params init_method init_body w in
  match OANDA_API_KEY rt with
  | Some (String c rest) =>
      let request :=
        {| url := baseUrl rt +:+ path; query := params; method := init_method;
           authorization := "Bearer " +:+ String c rest;
           contentType := match init_body with
                          | Some _ => Some "application/json"
                          | None => None
                          end;
           body := init_body |} in
      requests (snd r) = requests w ++ [request]
      /\ db (snd r) = db w
      /\ scheduled (snd r) = scheduled w
      /\ fst r =
         match network rt (length (requests w)) request with
         | FetchRejected message => Throw message
         | HttpResponse st stText text json =>
             if (200 <=? st) && (st <=? 299) then
               if st =? 204 then Ok None
               else match json with
                    | Ok payload => Ok (Some payload)
                    | Throw message => Throw message
                    end
             else Throw ("OANDA request failed (" +:+ pretty st +:+ " "
                         +:+ stText +:+ "): " +:+ text)
         end
  | _ => r = (Throw missing_api_key, w)
  end.
Proof.
  cbv zeta. unfold oandaFetch, bind at 1, lift, requireApiKey.
  destruct (OANDA_API_KEY rt) as [[|c rest]|]; try reflexivity.
  cbn [Js.truthy_string]. unfold bind, fetch.
  destruct (network rt _ _) as [m|st stText text json]; cbn.
  - repeat split.
  - unfold r_ok. cbn.
    destruct ((200 <=? st) && (st <=? 299)); cbn; [|repeat split].
    destruct (st =? 204); cbn; [repeat split|].
    destruct json; cbn; repeat split.
Qed.

Lemma fetchCandles_count_request rt instr gran count w key :
  requireApiKey rt = Ok key ->
  exists request,
    requests (snd (fetchCandles rt instr gran count w)) = requests w ++ [request]
    /\ method request = "GET"
    /\ body request = None
    /\ url request = baseUrl rt +:+ "/instruments/" +:+ instr +:+ "/candles"
    /\ query request
       = [("price", "M"); ("granularity", gran);
          ("count", pretty (Z.min 5000 (Z.max 1 count)))].
Proof.
  intros Hk. unfold fetchCandles, bind at 1, oandaFetch, bind at 1, lift.
  rewrite Hk. unfold bind at 1, fetch.
  eexists. split.
  - destruct (network rt _ _) as [m|st stText text json]; cbn; [reflexivity|].
    unfold r_ok. cbn. destruct (negb _); cbn; [reflexivity|].
    destruct (st =? 204); cbn; [reflexivity|].
    unfold bind, lift. destruct json as [[[cs|]| |]|m]; reflexivity.
  - cbn. repeat split.
Qed.

(** X12: with an API key, [fetchCandles] sends one GET request, without
    a body, to the candles of the instrument.  For a count that is a whole
    number, as a tick's is when the long window is one, the [count]
    parameter it sends is that count clamped to 1..5000: a count below 1
    is sent as 1, one above 5000 as 5000, and any other as it is. *)
Theorem fetchCandles_count rt instr gran count w key :
  requireApiKey rt = Ok key ->
  exists request c,
    requests (snd (fetchCandles rt instr gran count w)) = requests w ++ [request]
    /\ method request = "GET"
    /\ body request = None
    /\ url request = baseUrl rt +:+ "/instruments/" +:+ instr +:+ "/candles"
    /\ query request
       = [("price", "M"); ("granularity", gran); ("count", pretty c)]
    /\ (count < 1 -> c = 1)
    /\ (1 <= count <= 5000 -> c = count)
    /\ (5000 < count -> c = 5000).
Proof.
  intros Hk.
  destruct (fetchCandles_count_request rt instr gran count w key Hk)
    as (request & Hsent & Hmethod & Hbody & Hurl & Hquery).
  exists request, (Z.min 5000 (Z.max 1 count)).
  repeat (split; [assumption|]).
  repeat split; lia.
Qed.

Lemma fetchCandles_count_witness :
  exists request,
    requests (snd (fetchCandles Demo.paper "EUR_USD" "M5" 6000 (Demo.world [] [])))
    = [request]
    /\ query request = [("price", "M"); ("granularity", "M5"); ("count", "5000")].
Proof.
  destruct (fetchCandles_count Demo.paper "EUR_USD" "M5" 6000 (Demo.world [] [])
              "key" eq_refl)
    as (request & c & H1 & _ & _ & _ & H2 & _ & _ & H3).
  exists request. split; [exact H1|]. rewrite H2, H3 by lia. reflexivity.
Defined.

Lemma fetchCandles_keyless rt instr gran count w :
  Js.truthy_ostring (OANDA_API_KEY rt) = false ->
  fetchCandles rt instr gran count w = (Throw missing_api_key, w).
Proof.
  intros Hk. pose proof (requireApiKey_cases rt) as H. rewrite Hk in H.
  unfold fetchCandles, bind at 1, oandaFetch, bind at 1, lift. now rewrite H.
Qed.

(** X13: without an API key no tick can evaluate, paper trading included:
    a tick on a running session sends nothing, fails on the candle fetch
    and leaves the session in status [error] with the "Missing
    OANDA_API_KEY" message; its signal, analytics and positions are as
    before. *)
Theorem tick_without_api_key rt sessionId reason w session :
  Js.truthy_ostring (OANDA_API_KEY rt) = false ->
  sessions_of w !! sessionId = Some session ->
  status session = running ->
  exists w' t,
    evaluateSession rt sessionId reason w = (Ok tt, w')
    /\ sessions_of w'
       = <[sessionId :=
             patch_session [f_status status_error; f_updatedAt t;
                            f_errorMessage (Some missing_api_key)] session]>
           (sessions_of w)
    /\ requests w' = requests w
    /\ positions_of w' = positions_of w
    /\ scheduled w' = scheduled w.
Proof.
  intros Hk Hs Hr.
  rewrite (evaluateSession_running rt _ _ _ _ Hs Hr).
  unfold try_catch, evaluate, bind at 1.
  rewrite (fetchCandles_keyless rt _ _ _ w Hk).
  unfold sessions_of in Hs.
  unfold evaluationFailed, formatError. cbv zeta.
  unfold bind, runMutation, logEvent, setStatus, bind, Date_now, db_insert_log,
    db_patch_session, ret, set_db.
  cbn. rewrite Hs. cbn.
  eexists _, _. split; [reflexivity|]. repeat split.
Qed.

Lemma tick_without_api_key_witness :
  let session := Demo.session running (Demo.cfg 1 3) None in
  let w := Demo.world [session] [] in
  exists w' failed,
    evaluateSession Scenario.keyless 0 None w = (Ok tt, w')
    /\ sessions_of w' !! 0%nat = Some failed
    /\ status failed = status_error
    /\ errorMessage failed = Some missing_api_key
    /\ requests w' = [].
Proof.
  intros session w.
  destruct (tick_without_api_key Scenario.keyless 0%nat None w session
              eq_refl eq_refl eq_refl) as (w' & t & H1 & H2 & H3 & _).
  exists w'. eexists. split; [exact H1|].
  split; [rewrite H2; reflexivity|]. repeat split. exact H3.
Defined.

(** ** Paper trading

    Without both credentials the engine trades on paper: it reads
    candles, and every order is filled locally at the market price. *)

Section Paper.

Variable rt : Runtime.
Hypothesis paper : isOandaConfigured rt = false.

Lemma reconcilePositions_paper sessionId openPositions price :
  reconcilePositions rt sessionId openPositions price = ret openPositions.
Proof. unfold reconcilePositions. now rewrite paper, andb_false_r. Qed.

Lemma closePositionWithBroker_paper_requests sessionId session position price
    reason :
  keeps (same requests)
    (closePositionWithBroker rt sessionId session position price reason).
Proof.
  unfold closePositionWithBroker. rewrite paper, andb_false_r.
  unfold closePositionRecord, logEvent. auto 20 with frame.
Qed.

Lemma openPositionWithBroker_paper_requests sessionId session dir price :
  keeps (same requests) (openPositionWithBroker rt sessionId session dir price).
Proof.
  unfold openPositionWithBroker. rewrite paper.
  unfold createPositionRecord, logEvent. auto 20 with frame.
Qed.

Lemma settle_paper_requests sessionId session openPositions reason a :
  keeps (same requests) (settle rt sessionId session openPositions reason a).
Proof.
  assert (forall s o p, keeps (same requests) (reconcilePositions rt s o p))
    by (intros; rewrite reconcilePositions_paper; auto with frame).
  pose proof closePositionWithBroker_paper_requests.
  unfold settle, closeOnSignal, refreshed_open_positions, updateAnalytics,
    logEvent, runQuery.
  auto 30 with frame.
Qed.

Lemma openOnSignal_paper_requests sessionId session remaining signal previous
    price :
  keeps (same requests)
    (openOnSignal rt sessionId session remaining signal previous price).
Proof.
  pose proof openPositionWithBroker_paper_requests.
  unfold openOnSignal, logEvent. auto 30 with frame.
Qed.

End Paper.

Lemma evaluationFailed_requests rt sessionId error :
  keeps (same requests) (evaluationFailed rt sessionId error).
Proof. unfold evaluationFailed, logEvent, setStatus. auto 20 with frame. Qed.

Lemma requests_after_first {A B} (m : Action A) (k : A -> Action B)
    (handler : string -> Action B) (P : list Request -> Prop) w :
  P (requests (snd (m w))) ->
  (forall a, keeps (same requests) (k a)) ->
  (forall e, keeps (same requests) (handler e)) ->
  P (requests (snd (try_catch (bind m k) handler w))).
Proof.
  intros Hm Hk Hh. unfold try_catch, bind.
  destruct (m w) as [[a|msg] w1]; cbn [snd] in Hm.
  - specialize (Hk a w1). unfold same in Hk.
    destruct (k a w1) as [[b|msg] w2]; cbn [snd] in *; [now rewrite Hk|].
    specialize (Hh msg w2). unfold same in Hh. now rewrite Hh, Hk.
  - specialize (Hh msg w1). unfold same in Hh. now rewrite Hh.
Qed.

(** X14: on paper a tick talks to the network at most once, and only to
    read: whatever the signal makes it close or open, the one request it
    may send is the GET for the candles. *)
Theorem paper_tick_reads_only rt sessionId reason w :
  isOandaConfigured rt = false ->
  let sent := requests (snd (evaluateSession rt sessionId reason w)) in
  sent = requests w
  \/ exists request,
       sent = requests w ++ [request]
       /\ method request = "GET"
       /\ body request = None.
Proof.
  intros Hpaper. cbv zeta.
  destruct (sessions_of w !! sessionId) as [session|] eqn:Hs;
    [|rewrite evaluateSession_missing by assumption; now left].
  assert (Hr : status session = running \/ status session <> running)
    by (destruct (status session); [right|left|right]; congruence).
  destruct Hr as [Hr|Hr];
    [|rewrite (evaluateSession_idle rt _ _ _ _ Hs Hr); now left].
  rewrite (evaluateSession_running rt _ _ _ _ Hs Hr).
  unfold evaluate. cbv zeta.
  apply (requests_after_first _ _ _
           (fun sent => sent = requests w
                        \/ exists request,
                             sent = requests w ++ [request]
                             /\ method request = "GET"
                             /\ body request = None)).
  - pose proof (requireApiKey_cases rt) as Hk.
    destruct (Js.truthy_ostring (OANDA_API_KEY rt)) eqn:Hkey.
    + destruct Hk as (key & Hk & _).
      destruct (fetchCandles_count_request rt (instrument (config session))
                  (granularity (config session))
                  (Z.max (longWindow (config session) * 2)
                     (longWindow (config session) + 5)) w key Hk)
        as (request & H1 & H2 & H3 & _).
      right. eauto.
    + left. now rewrite fetchCandles_keyless.
  - intros candles.
    pose proof (settle_paper_requests rt Hpaper).
    pose proof (openOnSignal_paper_requests rt Hpaper).
    unfold logEvent. auto 20 with frame.
  - intros e. apply evaluationFailed_requests.
Qed.

Lemma paper_tick_reads_only_witness :
  let session := Demo.session running (Demo.cfg 1 3) None in
  let w := Demo.world [session] [] in
  let sent := requests (snd (evaluateSession Demo.paper 0 None w)) in
  sent = requests w
  \/ exists request,
       sent = requests w ++ [request]
       /\ method request = "GET"
       /\ body request = None.
Proof.
  intros session w. exact (paper_tick_reads_only Demo.paper 0%nat None w eq_refl).
Defined.

(** ** Closing a position *)

Lemma closePositionRecord_effect rt positionId price pnl reason w p :
  positions_of w !! positionId = Some p ->
  is_Some (sessions_of w !! p_sessionId p) ->
  exists w' t,
    runMutation (closePositionRecord rt positionId price pnl reason) w
      = (Ok tt, w')
    /\ positions_of w'
       = <[positionId :=
             patch_position
               ([f_p_status position_closed; f_closedAt t; f_closeReason reason]
                ++ when_defined f_exitPrice price
                ++ when_defined f_realizedPnl pnl) p]> (positions_of w)
    /\ length (sessions_of w') = length (sessions_of w)
    /\ requests w' = requests w
    /\ logs_of w' = logs_of w.
Proof.
  intros Hp [s Hs]. unfold positions_of, sessions_of, logs_of in *.
  unfold runMutation, closePositionRecord, bind, db_get_position, Date_now,
    db_patch_position, db_patch_session, set_db.
  cbn. rewrite Hp. cbn. rewrite Hp. cbn. rewrite Hs. cbn.
  eexists _, _. split; [reflexivity|]. split; [reflexivity|].
  split; [apply length_insert|]. split; reflexivity.
Qed.

Lemma logEvent_appends rt sessionId lvl msg dtl w :
  exists w' t,
    runMutation (logEvent rt sessionId lvl msg dtl) w = (Ok tt, w')
    /\ positions_of w' = positions_of w
    /\ sessions_of w' = sessions_of w
    /\ requests w' = requests w
    /\ logs_of w'
       = logs_of w ++ [{| l_sessionId := sessionId; level := lvl;
                          message := msg; details := dtl; l_createdAt := t |}].
Proof. eexists _, _. split; [reflexivity|]. repeat split. Qed.

Lemma closePositionWithBroker_local rt sessionId session i p price reason w :
  Js.truthy_ostring (oandaTradeId p) && isOandaConfigured rt = false ->
  positions_of w !! i = Some p ->
  is_Some (sessions_of w !! p_sessionId p) ->
  exists w' p' entry,
    closePositionWithBroker rt sessionId session (i, p) price reason w
      = (Ok tt, w')
    /\ closed_as reason price p p'
    /\ positions_of w' = <[i := p']> (positions_of w)
    /\ length (sessions_of w') = length (sessions_of w)
    /\ requests w' = requests w
    /\ logs_of w' = logs_of w ++ [entry]
    /\ l_sessionId entry = sessionId
    /\ level entry = trade.
Proof.
  intros Hlocal Hp Hs. unfold closePositionWithBroker. cbn [fst snd].
  rewrite Hlocal. unfold bind at 1, ret. cbn [fst snd]. unfold bind at 1.
  destruct (closePositionRecord_effect rt i price None reason w p Hp Hs)
    as (w1 & t & Hrun & Hpos & Hlen & Hreq & Hlogs).
  rewrite Hrun.
  destruct (logEvent_appends rt sessionId trade
              ("Closed position " +:+ pretty i +:+ " (" +:+ reason +:+ ")")
              (Some [("tradeId", VOptString (oandaTradeId p));
                     ("exitPrice", VOptNumber price);
                     ("realizedPnl", VOptNumber None)]) w1)
    as (w2 & t2 & Hlog & Hp2 & Hs2 & Hr2 & Hl2).
  rewrite Hlog. eexists w2, _, _. split; [reflexivity|].
  split; [exists t; reflexivity|].
  split; [now rewrite Hp2, Hpos|].
  split; [now rewrite Hs2|].
  split; [now rewrite Hr2|].
  split; [rewrite Hl2, Hlogs; reflexivity|]. split; reflexivity.
Qed.

(** X15: a position without a broker trade identifier, and any position
    when the broker is not configured, is closed locally: no request is
    sent, the position becomes [closed] with the given reason, its exit
    price is the market price when there is one (else left as it was), no
    realized P&L is recorded, and exactly one [trade] log entry is
    written.  No other position changes. *)
Theorem close_without_broker rt sessionId session i p price reason w :
  Js.truthy_ostring (oandaTradeId p) && isOandaConfigured rt = false ->
  positions_of w !! i = Some p ->
  is_Some (sessions_of w !! p_sessionId p) ->
  exists w' p' entry,
    closePositionWithBroker rt sessionId session (i, p) price reason w
      = (Ok tt, w')
    /\ positions_of w' = <[i := p']> (positions_of w)
    /\ p_status p' = position_closed
    /\ closeReason p' = Some reason
    /\ exitPrice p' = match price with Some x => Some x | None => exitPrice p end
    /\ realizedPnl p' = realizedPnl p
    /\ opening_data p' = opening_data p
    /\ requests w' = requests w
    /\ logs_of w' = logs_of w ++ [entry]
    /\ level entry = trade.
Proof.
  intros Hlocal Hp Hs.
  destruct (closePositionWithBroker_local rt sessionId session i p price reason
              w Hlocal Hp Hs)
    as (w' & p' & entry & Hrun & Hcl & Hpos & _ & Hreq & Hlogs & _ & Hlvl).
  exists w', p', entry. split; [assumption|]. split; [assumption|].
  pose proof (closed_as_fields _ _ _ _ Hcl) as (H1 & H2 & H3 & H4 & _).
  repeat (split; [assumption|]).
  split; [|auto].
  destruct Hcl as [t ->]. destruct p, price; reflexivity.
Qed.

Lemma close_without_broker_witness :
  let session := Demo.session running (Demo.cfg 1 3) None in
  let p := Demo.position None dir_long in
  let w := Demo.world [session] [p] in
  exists w' p',
    closePositionWithBroker Demo.broker 0 session (0%nat, p) (Some 104%float)
      "manual" w = (Ok tt, w')
    /\ positions_of w' = [p']
    /\ p_status p' = position_closed
    /\ exitPrice p' = Some 104%float
    /\ requests w' = [].
Proof.
  intros session p w.
  destruct (close_without_broker Demo.broker 0%nat session 0%nat p
              (Some 104%float) "manual" w eq_refl eq_refl
              (ex_intro _ session eq_refl))
    as (w' & p' & entry & H1 & H2 & H3 & _ & H5 & _ & _ & H8 & _).
  exists w', p'. repeat split; assumption.
Defined.

(** X16: closing a position that holds a broker trade, with the broker
    configured, asks the broker first.  If the broker answers with a body,
    the position is closed with the broker's figures: the fill price
    replaces the market price as exit price, and the fill's [pl] is
    recorded as realized P&L (an absent one leaves the field alone).  If
    the call fails, or yields no body, the failure is passed on and the
    position stays as it was, still open locally. *)
Theorem close_with_broker rt sessionId session i p tradeId price reason w :
  oandaTradeId p = Some tradeId ->
  Js.truthy_string tradeId = true ->
  isOandaConfigured rt = true ->
  positions_of w !! i = Some p ->
  is_Some (sessions_of w !! p_sessionId p) ->
  let r := closePositionWithBroker rt sessionId session (i, p) price reason w in
  match closeTrade rt tradeId w with
  | (Ok (Some response), w1) =>
      exists p',
        fst r = Ok tt
        /\ positions_of (snd r) = <[i := p']> (positions_of w)
        /\ p_status p' = position_closed
        /\ closeReason p' = Some reason
        /\ exitPrice p'
           = match fill_price rt (first_fill response) price with
             | Some x => Some x
             | None => exitPrice p
             end
        /\ realizedPnl p'
           = match first_fill response with
             | Some fill =>
                 if Js.truthy_ostring (pl fill)
                 then Some (parseFloat rt (default "" (pl fill)))
                 else realizedPnl p
             | None => realizedPnl p
             end
        /\ opening_data p' = opening_data p
        /\ requests (snd r) = requests w1
  | (Ok None, w1) =>
      r = (Throw (read_of_undefined "orderFillTransaction"), w1)
      /\ positions_of w1 = positions_of w
  | (Throw message, w1) =>
      r = (Throw message, w1) /\ positions_of w1 = positions_of w
  end.
Proof.
  intros Hid Htruthy Hcfg Hp Hs. cbv zeta.
  assert (Hrun : closePositionWithBroker rt sessionId session (i, p) price
                   reason w
                 = match closeTrade rt tradeId w with
                   | (Ok (Some response), w1) =>
                       (runMutation
                          (closePositionRecord rt i
                             (fill_price rt (first_fill response) price)
                             match first_fill response with
                             | Some fill =>
                                 if Js.truthy_ostring (pl fill)
                                 then Some (parseFloat rt (default "" (pl fill)))
                                 else None
                             | None => None
                             end reason) ;;
                        runMutation
                          (logEvent rt sessionId trade
                             ("Closed position " +:+ pretty i +:+ " (" +:+ reason
                              +:+ ")")
                             (Some [("tradeId", VOptString (oandaTradeId p));
                                    ("exitPrice",
                                     VOptNumber
                                       (fill_price rt (first_fill response) price));
                                    ("realizedPnl",
                                     VOptNumber
                                       match first_fill response with
                                       | Some fill =>
                                           if Js.truthy_ostring (pl fill)
                                           then Some (parseFloat rt
                                                        (default "" (pl fill)))
                                           else None
                                       | None => None
                                       end)]))) w1
                   | (Ok None, w1) =>
                       (Throw (read_of_undefined "orderFillTransaction"), w1)
                   | (Throw message, w1) => (Throw message, w1)
                   end).
  { unfold closePositionWithBroker. cbn [fst snd]. rewrite Hid.
    cbn [Js.truthy_ostring]. rewrite Htruthy, Hcfg. cbn [andb].
    change (default "" (Some tradeId)) with tradeId.
    unfold bind at 1. unfold bind at 1.
    destruct (closeTrade rt tradeId w) as [[[response|]|message] w1];
      reflexivity. }
  rewrite Hrun. clear Hrun.
  pose proof (closeTrade_db rt tradeId w) as Hdb. unfold same in Hdb.
  destruct (closeTrade rt tradeId w) as [[[response|]|message] w1];
    cbn [snd] in Hdb; unfold positions_of, sessions_of in *;
    [|split; [reflexivity|now rewrite Hdb]..].
  unfold bind.
  rewrite <- Hdb in Hp, Hs.
  destruct (closePositionRecord_effect rt i
              (fill_price rt (first_fill response) price)
              match first_fill response with
              | Some fill =>
                  if Js.truthy_ostring (pl fill)
                  then Some (parseFloat rt (default "" (pl fill)))
                  else None
              | None => None
              end reason w1 p Hp Hs)
    as (w2 & t & Hrun & Hpos & _ & Hreq & _).
  rewrite Hrun.
  match goal with
  | |- context [runMutation (logEvent rt sessionId trade ?m ?d) w2] =>
      destruct (logEvent_appends rt sessionId trade m d w2)
        as (w3 & t3 & Hlog & Hp3 & _ & Hr3 & _)
  end.
  rewrite Hlog. cbn [fst snd]. unfold positions_of in *.
  eexists. split; [reflexivity|].
  split; [rewrite Hp3, Hpos, Hdb; reflexivity|]. rewrite Hr3.
  destruct p, (fill_price rt (first_fill response) price),
    (first_fill response) as [fill|]; cbn;
    try destruct (Js.truthy_ostring (pl fill)); cbn; repeat split;
    try exact Hreq.
Qed.

Lemma close_with_broker_witness :
  let session := Demo.session running (Demo.cfg 1 3) None in
  let p := Demo.position (Some "T1") dir_long in
  let w := Demo.world [session] [p] in
  let r := closePositionWithBroker Scenario.closing 0 session (0%nat, p)
             (Some 100%float) "manual" w in
  exists p',
    fst r = Ok tt
    /\ positions_of (snd r) = [p']
    /\ p_status p' = position_closed
    /\ exitPrice p' = Some (parseFloat Scenario.closing "104")
    /\ realizedPnl p' = Some (parseFloat Scenario.closing "101").
Proof.
  intros session p w r.
  pose proof (close_with_broker Scenario.closing 0%nat session 0%nat p "T1"
                (Some 100%float) "manual" w eq_refl eq_refl eq_refl eq_refl
                (ex_intro _ session eq_refl)) as H.
  cbv zeta in H.
  change (closeTrade Scenario.closing "T1" w)
    with (Ok (Some {| orderFillTransaction :=
                        Some {| price := Some "104"; fullPrice := None;
                                pl := Some "101"; tradeOpened := None;
                                tradesOpened := None; tradeReduced := None;
                                tradesClosed := Some ["T1"] |};
                      orderFillTransactions := None |}),
          snd (closeTrade Scenario.closing "T1" w)) in H.
  destruct H as (p' & H1 & H2 & H3 & _ & H5 & H6 & _).
  exists p'. repeat split; assumption.
Defined.

Lemma close_loop rt sessionId session reason
    (price : TraderPosition -> option float) xs :
  forall w,
    (forall i p, (i, p) ∈ xs ->
                 positions_of w !! i = Some p
                 /\ p_sessionId p = sessionId
                 /\ Js.truthy_ostring (oandaTradeId p) && isOandaConfigured rt
                    = false) ->
    NoDup xs.*1 ->
    is_Some (sessions_of w !! sessionId) ->
    exists w',
      for_each xs
        (fun position =>
           closePositionWithBroker rt sessionId session position
             (price (snd position)) reason) w = (Ok tt, w')
      /\ is_Some (sessions_of w' !! sessionId)
      /\ requests w' = requests w
      /\ length (positions_of w') = length (positions_of w)
      /\ forall j q,
           positions_of w !! j = Some q ->
           exists q',
             positions_of w' !! j = Some q'
             /\ if bool_decide (j ∈ xs.*1)
                then closed_as reason (price q) q q'
                else q' = q.
Proof.
  induction xs as [|[i p] xs IH]; intros w Hxs Hnd Hs.
  - exists w. split; [reflexivity|]. split; [assumption|].
    split; [reflexivity|]. split; [reflexivity|].
    intros j q Hq. exists q. split; [assumption|].
    rewrite bool_decide_eq_false_2 by apply not_elem_of_nil. reflexivity.
  - assert (Hin : (i, p) ∈ (i, p) :: xs) by apply list_elem_of_here.
    pose proof (Hxs i p Hin) as (Hp & Hsid & Hlocal).
    rewrite fmap_cons in Hnd. apply NoDup_cons in Hnd as [Hi Hnd]. cbn in Hi.
    cbn [for_each]. unfold bind at 1. cbn [snd].
    destruct (closePositionWithBroker_local rt sessionId session i p (price p)
                reason w Hlocal Hp)
      as (w1 & p' & entry & Hrun & Hcl & Hpos & Hlen & Hreq & _).
    { now rewrite Hsid. }
    rewrite Hrun.
    assert (Hs1 : is_Some (sessions_of w1 !! sessionId)).
    { apply lookup_lt_is_Some. rewrite Hlen. now apply lookup_lt_is_Some. }
    destruct (IH w1) as (w' & Hfor & Hsw' & Hreq' & Hlen' & Hall);
      [|assumption|assumption|].
    { intros j q Hj.
      assert (Hin' : (j, q) ∈ (i, p) :: xs) by apply list_elem_of_further, Hj.
      pose proof (Hxs j q Hin') as (Hq & Hqs & Hql).
      split; [|auto]. rewrite Hpos.
      rewrite list_lookup_insert_ne; [assumption|].
      intros ->. apply Hi. apply list_elem_of_fmap. now exists (j, q). }
    exists w'. split; [assumption|]. split; [assumption|].
    split; [congruence|].
    split; [rewrite Hlen', Hpos; apply length_insert|].
    intros j q Hq. destruct (decide (j = i)) as [->|Hne].
    + assert (q = p) by congruence. subst q.
      destruct (Hall i p') as (q' & Hq' & Hcase).
      { rewrite Hpos. apply list_lookup_insert_eq.
        now apply lookup_lt_Some in Hp. }
      exists q'. split; [assumption|].
      rewrite bool_decide_eq_false_2 in Hcase by assumption. subst q'.
      rewrite bool_decide_eq_true_2 by apply list_elem_of_here. assumption.
    + destruct (Hall j q) as (q' & Hq' & Hcase).
      { rewrite Hpos. now rewrite list_lookup_insert_ne. }
      exists q'. split; [assumption|].
      rewrite fmap_cons. cbn [fst].
      replace (bool_decide (j ∈ i :: xs.*1)) with (bool_decide (j ∈ xs.*1));
        [assumption|].
      apply bool_decide_ext. rewrite elem_of_cons. tauto.
Qed.

Lemma closed_not_open sessionId p :
  p_status p = position_closed -> is_open_position_of sessionId p = false.
Proof.
  intros H. unfold is_open_position_of. rewrite H. apply andb_false_r.
Qed.

(** X17: [closeSessionPositions] flattens the session.  When none of its
    open positions has to be closed at the broker (paper trading, or
    positions without a trade identifier), every open position of the
    session ends up closed, with the given reason or "manual", at the
    session's last price or, if it has none, at the position's own entry
    price; the session then has no open position, no request was sent, and
    positions of other sessions and closed positions are untouched. *)
Theorem closeSessionPositions_closes_all rt sessionId reason w session :
  sessions_of w !! sessionId = Some session ->
  (forall i p,
     positions_of w !! i = Some p ->
     is_open_position_of sessionId p = true ->
     Js.truthy_ostring (oandaTradeId p) && isOandaConfigured rt = false) ->
  exists w',
    closeSessionPositions rt sessionId reason w = (Ok tt, w')
    /\ open_positions_of sessionId (db w') = []
    /\ requests w' = requests w
    /\ length (positions_of w') = length (positions_of w)
    /\ forall i p,
         positions_of w !! i = Some p ->
         exists p',
           positions_of w' !! i = Some p'
           /\ if is_open_position_of sessionId p
              then p_status p' = position_closed
                   /\ closeReason p' = Some (default "manual" reason)
                   /\ exitPrice p'
                      = Some (default (entryPrice p) (lastPrice session))
                   /\ realizedPnl p' = realizedPnl p
              else p' = p.
Proof.
  intros Hs Hlocal.
  unfold closeSessionPositions, runQuery, bind at 1, getSessionState.
  pose proof Hs as Hs0. unfold sessions_of in Hs0. rewrite Hs0.
  destruct (close_loop rt sessionId session (default "manual" reason)
              (fun p => Some (default (entryPrice p) (lastPrice session)))
              (open_positions_of sessionId (db w)) w)
    as (w' & Hrun & Hs' & Hreq & Hlen & Hall).
  { intros i p Hin. apply elem_of_open_positions in Hin as [Hp Ho].
    split; [exact Hp|]. split; [now apply open_position_session|].
    now apply (Hlocal i p). }
  { apply open_positions_NoDup. }
  { rewrite Hs. eauto. }
  exists w'. split; [exact Hrun|].
  assert (Hfinal : forall i p,
             positions_of w !! i = Some p ->
             exists p',
               positions_of w' !! i = Some p'
               /\ if is_open_position_of sessionId p
                  then closed_as (default "manual" reason)
                         (Some (default (entryPrice p) (lastPrice session))) p p'
                  else p' = p).
  { intros i p Hp. destruct (Hall i p Hp) as (p' & Hp' & Hcase).
    exists p'. split; [assumption|].
    now rewrite (in_open_positions sessionId w i p Hp) in Hcase. }
  split.
  { apply elem_of_nil_inv. intros [j q'] Hin.
    apply elem_of_open_positions in Hin as [Hq' Ho].
    assert (Hj : is_Some (positions_of w !! j)).
    { apply lookup_lt_is_Some. rewrite <- Hlen. now apply lookup_lt_Some in Hq'. }
    destruct Hj as [q Hq]. destruct (Hfinal j q Hq) as (q'' & Hq'' & Hcase).
    unfold positions_of in Hq''. assert (q'' = q') by congruence. subst q''.
    destruct (is_open_position_of sessionId q) eqn:Hopen.
    - apply closed_as_fields in Hcase as (Hst & _).
      rewrite (closed_not_open sessionId q' Hst) in Ho. discriminate.
    - subst q'. congruence. }
  split; [assumption|]. split; [assumption|].
  intros i p Hp. destruct (Hfinal i p Hp) as (p' & Hp' & Hcase).
  exists p'. split; [assumption|].
  destruct (is_open_position_of sessionId p); [|assumption].
  apply closed_as_fields in Hcase. tauto.
Qed.

Lemma closeSessionPositions_closes_all_witness :
  let session := Demo.session stopped (Demo.cfg 1 3) None in
  let w := Demo.world [session]
             [Demo.position None dir_long; Demo.position (Some "T1") dir_short] in
  exists w',
    closeSessionPositions Demo.paper 0 None w = (Ok tt, w')
    /\ open_positions_of 0 (db w') = []
    /\ requests w' = [].
Proof.
  intros session w.
  destruct (closeSessionPositions_closes_all Demo.paper 0%nat None w session
              eq_refl)
    as (w' & H1 & H2 & H3 & _).
  { intros i p _ _. apply andb_false_r. }
  exists w'. repeat split; assumption.
Defined.

(** ** What a tick records *)

Lemma bind_step {A B} (m : Action A) (k : A -> Action B) w a w' :
  m w = (Ok a, w') -> bind m k w = k a w'.
Proof. intros H. unfold bind. now rewrite H. Qed.

Lemma try_bind_step {A B C} (m : Action A) (k1 : A -> Action B)
    (k2 : B -> Action C) handler w a w' :
  m w = (Ok a, w') ->
  try_catch (bind (bind m k1) k2) handler w
  = try_catch (bind (k1 a) k2) handler w'.
Proof. intros H. unfold try_catch, bind. now rewrite H. Qed.

Lemma holds_after {A} Q sessionId (m : Action A) w :
  holds Q sessionId w ->
  keeps (retains Q sessionId) m ->
  holds Q sessionId (snd (m w)).
Proof. intros H Hk. now apply Hk. Qed.

Lemma updateAnalytics_effect rt sessionId a sg t w s :
  sessions_of w !! sessionId = Some s ->
  exists w' s',
    runMutation
      (updateAnalytics rt sessionId (a_shortMA a) (a_longMA a)
         (a_latestPrice a) (Some sg) (Some t) None) w = (Ok tt, w')
    /\ sessions_of w' = <[sessionId := s']> (sessions_of w)
    /\ lastSignal s' = Some sg
    /\ lastShortMA s' = or_kept (a_shortMA a) (lastShortMA s)
    /\ lastLongMA s' = or_kept (a_longMA a) (lastLongMA s)
    /\ lastPrice s' = or_kept (a_latestPrice a) (lastPrice s)
    /\ lastEvaluationTime s' = Some t
    /\ config s' = config s
    /\ status s' = status s
    /\ errorMessage s' = errorMessage s
    /\ positions_of w' = positions_of w
    /\ requests w' = requests w
    /\ logs_of w' = logs_of w.
Proof.
  intros Hs. unfold sessions_of in *.
  unfold runMutation, updateAnalytics, bind, Date_now, db_patch_session, set_db.
  cbn. rewrite Hs. eexists _, _. split; [reflexivity|].
  split; [reflexivity|].
  unfold patch_session. rewrite !fold_left_app.
  destruct s, a as [[x|] [y|] [z|] ? ?]; cbn; repeat split.
Qed.

Lemma recorded_harmless_updatedAt a before t :
  harmless (recorded a before) [f_updatedAt t].
Proof. intros [] H. exact H. Qed.

Lemma recorded_harmless_status a before st t message :
  harmless (recorded a before)
    ([f_status st; f_updatedAt t]
     ++ when_defined (fun m => f_errorMessage (Some m)) message).
Proof. intros [] H. destruct message; exact H. Qed.

Lemma tail_retains_recorded rt a before sessionId session openPositions reason :
  keeps (retains (recorded a before) sessionId)
    (try_catch
       (remaining <-
          (runMutation
             (logEvent rt sessionId analysis "Tick processed"
             (Some [("shortMA", VOptNumber (a_shortMA a));
                    ("longMA", VOptNumber (a_longMA a));
                    ("latestPrice", VOptNumber (a_latestPrice a));
                    ("signal", VString (signal_name (a_signal a)));
                    ("previousSignal",
                     VString (signal_name (a_previousSignal a)));
                    ("reason", VString (default "scheduled" reason))])) ;;
        reconciled <- reconcilePositions rt sessionId openPositions
                        (a_latestPrice a) ;;
        closeOnSignal rt sessionId session reconciled (a_signal a)
          (a_latestPrice a)) ;;
        openOnSignal rt sessionId session remaining (a_signal a)
          (a_previousSignal a) (a_latestPrice a))
       (evaluationFailed rt sessionId)).
Proof.
  pose proof (recorded_harmless_updatedAt a before).
  pose proof (recorded_harmless_status a before).
  unfold_handlers. auto 40 with frame.
Qed.

(** X18: once a tick has its candles and enough of them, the analysis is
    recorded in the session whatever happens next.  The signal, the two
    averages and the latest price are written before the engine turns to
    the broker, and neither a failed reconciliation, close or open, nor the
    failure handler, takes them back: after the tick the session shows the
    new signal even if it ended in status [error]. *)
Theorem analysis_is_recorded rt sessionId reason w session candles w1 :
  sessions_of w !! sessionId = Some session ->
  status session = running ->
  fetchCandles rt (instrument (config session)) (granularity (config session))
    (Z.max (longWindow (config session) * 2) (longWindow (config session) + 5))
    w = (Ok candles, w1) ->
  (Z.of_nat (length (closing_prices rt candles)) <? longWindow (config session))
  = false ->
  holds (recorded (analyse session (closing_prices rt candles)) session)
    sessionId (snd (evaluateSession rt sessionId reason w)).
Proof.
  intros Hs Hr Hfetch Hlen.
  rewrite (evaluateSession_running rt _ _ _ _ Hs Hr).
  pose proof (fetchCandles_db rt (instrument (config session))
                (granularity (config session))
                (Z.max (longWindow (config session) * 2)
                   (longWindow (config session) + 5)) w) as Hdb.
  rewrite Hfetch in Hdb. unfold same in Hdb. cbn [snd] in Hdb.
  unfold evaluate. cbv zeta.
  unfold try_catch at 1, bind at 1. rewrite Hfetch, Hlen.
  set (a := analyse session (closing_prices rt candles)).
  fold (try_catch
          (remaining <- settle rt sessionId session
                          (open_positions_of sessionId (db w)) reason a ;;
           openOnSignal rt sessionId session remaining (a_signal a)
             (a_previousSignal a) (a_latestPrice a))
          (evaluationFailed rt sessionId) w1).
  unfold settle.
  rewrite (try_bind_step (Date_now rt) _ _ _ w1 _ _ eq_refl).
  assert (Hs1 : sessions_of
                  {| db := db w1; scheduled := scheduled w1;
                     requests := requests w1; clock := S (clock w1) |}
                !! sessionId = Some session)
    by (unfold sessions_of in *; cbn; now rewrite Hdb).
  destruct (updateAnalytics_effect rt sessionId a (a_signal a)
              (clock_reading rt (clock w1)) _ session Hs1)
    as (w2 & s2 & Hupd & Hs2 & H1 & H2 & H3 & H4 & _ & H5 & _).
  rewrite (try_bind_step _ _ _ _ _ _ _ Hupd).
  apply holds_after; [|apply tail_retains_recorded].
  exists s2. split; [|repeat split; assumption].
  rewrite Hs2. apply list_lookup_insert_eq. now apply lookup_lt_Some in Hs1.
Qed.

Lemma analysis_is_recorded_witness :
  let session := Demo.session running (Demo.cfg 1 3) None in
  let w := Demo.world [session] [] in
  holds (recorded (analyse session (closing_prices Demo.paper Demo.rising))
           session)
    0 (snd (evaluateSession Demo.paper 0 None w)).
Proof.
  intros session w.
  apply (analysis_is_recorded Demo.paper 0%nat None w session Demo.rising
           (snd (fetchCandles Demo.paper "EUR_USD" "M5" 8 w)));
    reflexivity.
Defined.

(** ** Acting on the signal, on paper *)

Lemma filter_open_insert sessionId (l : list TraderPosition) :
  forall k i p rest p',
    filter (fun doc => is_open_position_of sessionId (snd doc) = true)
      (imap (fun j => pair (k + j)%nat) l) = ((k + i)%nat, p) :: rest ->
    is_open_position_of sessionId p' = false ->
    filter (fun doc => is_open_position_of sessionId (snd doc) = true)
      (imap (fun j => pair (k + j)%nat) (<[i := p']> l)) = rest.
Proof.
  induction l as [|x l IH]; intros k i p rest p' H Hp'; [discriminate|].
  assert (Hshift : forall l',
             imap ((fun j => pair (k + j)%nat) ∘ S) l'
             = imap (fun j => @pair nat TraderPosition (S k + j)%nat) l').
  { intros l'. apply imap_ext. intros j y _. cbn. f_equal. lia. }
  cbn [imap] in H. rewrite filter_cons in H. cbn [snd] in H.
  destruct i as [|i]; cbn [insert list_insert imap];
    rewrite filter_cons; cbn [snd].
  - rewrite Hp'. destruct (decide (false = true)) as [|_]; [discriminate|].
    destruct (decide (is_open_position_of sessionId x = true)) as [Hx|Hx].
    + now injection H as _ <-.
    + exfalso.
      assert (Hin : ((k + 0)%nat, p)
                    ∈ filter (fun doc => is_open_position_of sessionId (snd doc)
                                         = true)
                        (imap ((fun j => pair (k + j)%nat) ∘ S) l))
        by (rewrite H; apply list_elem_of_here).
      apply list_elem_of_filter in Hin as [_ Hin].
      apply elem_of_lookup_imap in Hin as (j & y & Heq & _).
      cbn in Heq. injection Heq as Heq _. lia.
  - destruct (decide (is_open_position_of sessionId x = true)) as [Hx|Hx].
    + injection H as Heq _. lia.
    + rewrite Hshift in *. apply (IH (S k) i p); [|assumption].
      rewrite H. f_equal. f_equal. lia.
Qed.

Lemma open_positions_after_close sessionId d d' i p rest p' :
  open_positions_of sessionId d = (i, p) :: rest ->
  traderPositions d' = <[i := p']> (traderPositions d) ->
  is_open_position_of sessionId p' = false ->
  open_positions_of sessionId d' = rest.
Proof.
  unfold open_positions_of. intros H -> Hp'.
  apply (filter_open_insert sessionId (traderPositions d) 0 i p rest p' H Hp').
Qed.

Section PaperTick.

Variable rt : Runtime.
Hypothesis paper : isOandaConfigured rt = false.

Lemma openPositionWithBroker_paper sessionId session dir price w :
  is_Some (sessions_of w !! sessionId) ->
  exists w' t,
    openPositionWithBroker rt sessionId session dir (Some price) w = (Ok tt, w')
    /\ requests w' = requests w
    /\ positions_of w' = positions_of w ++
         [opened_position sessionId session dir price price None t].
Proof.
  intros [s Hs]. unfold sessions_of in Hs.
  eexists _, _. split; [|split].
  - unfold openPositionWithBroker. cbv zeta. rewrite paper.
    unfold bind, ret, runMutation, createPositionRecord, logEvent, bind,
      Date_now, db_insert_position, db_patch_session, db_insert_log, ret,
      set_db.
    cbn. rewrite Hs. cbn. reflexivity.
  - reflexivity.
  - reflexivity.
Qed.

Lemma openOnSignal_paper sessionId session remaining signal previous price w :
  is_Some (sessions_of w !! sessionId) ->
  exists w' t,
    openOnSignal rt sessionId session remaining signal previous (Some price) w
      = (Ok tt, w')
    /\ requests w' = requests w
    /\ positions_of w' = positions_of w ++
         (if opens_position remaining signal previous
          then [opened_position sessionId session (direction_of_signal signal)
                  price price None t]
          else []).
Proof.
  intros Hs. unfold openOnSignal.
  destruct (opens_position remaining signal previous) eqn:Hopens.
  - destruct (logEvent_appends rt sessionId info "Attempting to open new position"
                (Some [("signal", VString (signal_name signal))]) w)
      as (w1 & t1 & Hlog & Hp1 & Hs1 & Hr1 & _).
    rewrite (bind_step _ _ _ _ _ Hlog).
    apply opens_position_spec in Hopens as (_ & Hneutral & _).
    rewrite <- Hs1 in Hs.
    destruct signal; [| |congruence];
      match goal with
      | |- context [openPositionWithBroker rt sessionId session ?dir] =>
          destruct (openPositionWithBroker_paper sessionId session dir price w1 Hs)
            as (w' & t & Hopen & Hreq & Hpos)
      end;
      exists w', t; (split; [exact Hopen|]); rewrite Hreq, Hpos, Hr1, Hp1; auto.
  - exists w, 0. unfold ret. rewrite app_nil_r. auto.
Qed.

Lemma settle_paper_prefix sessionId session openPositions reason a w s :
  sessions_of w !! sessionId = Some s ->
  exists w' s',
    settle rt sessionId session openPositions reason a w
      = closeOnSignal rt sessionId session openPositions (a_signal a)
          (a_latestPrice a) w'
    /\ sessions_of w' = <[sessionId := s']> (sessions_of w)
    /\ recorded a s s'
    /\ status s' = status s
    /\ errorMessage s' = errorMessage s
    /\ positions_of w' = positions_of w
    /\ requests w' = requests w.
Proof.
  intros Hs. unfold settle.
  rewrite (bind_step (Date_now rt) _ w _ _ eq_refl).
  assert (Hs1 : sessions_of
                  {| db := db w; scheduled := scheduled w;
                     requests := requests w; clock := S (clock w) |}
                !! sessionId = Some s) by exact Hs.
  destruct (updateAnalytics_effect rt sessionId a (a_signal a)
              (clock_reading rt (clock w)) _ s Hs1)
    as (w2 & s2 & Hupd & Hs2 & H1 & H2 & H3 & H4 & _ & H5 & H6 & H7 & Hp2
        & Hr2 & _).
  rewrite (bind_step _ _ _ _ _ Hupd).
  match goal with
  | |- context [runMutation (logEvent rt sessionId analysis ?m ?d)] =>
      destruct (logEvent_appends rt sessionId analysis m d w2)
        as (w3 & t3 & Hlog & Hp3 & Hs3 & Hr3 & _)
  end.
  rewrite (bind_step _ _ _ _ _ Hlog).
  rewrite reconcilePositions_paper by exact paper.
  rewrite (bind_step (ret openPositions) _ w3 _ _ eq_refl).
  exists w3, s2. split; [reflexivity|].
  split; [now rewrite Hs3, Hs2|].
  split; [repeat split; assumption|].
  split; [assumption|]. split; [assumption|].
  split; [now rewrite Hp3, Hp2|now rewrite Hr3, Hr2].
Qed.

Lemma closeOnSignal_holds sessionId session i p rest signal price w :
  signal = signal_of_direction (direction p) ->
  closeOnSignal rt sessionId session ((i, p) :: rest) signal price w
  = (Ok ((i, p) :: rest), w).
Proof.
  intros ->. unfold closeOnSignal. cbn [head snd].
  destruct (direction p); reflexivity.
Qed.

Lemma closeOnSignal_paper_closes sessionId session i p rest signal price w :
  signal <> signal_of_direction (direction p) ->
  open_positions_of sessionId (db w) = (i, p) :: rest ->
  is_Some (sessions_of w !! sessionId) ->
  exists w' p',
    closeOnSignal rt sessionId session ((i, p) :: rest) signal price w
      = (Ok rest, w')
    /\ closed_as (closing_reason signal) price p p'
    /\ positions_of w' = <[i := p']> (positions_of w)
    /\ requests w' = requests w
    /\ length (sessions_of w') = length (sessions_of w).
Proof.
  intros Hneq Hopen Hs. unfold closeOnSignal. cbn [head snd].
  assert (Hcond : signal_eqb signal neutral
                  || negb (signal_eqb signal
                             (signal_of_direction (direction p))) = true).
  { destruct signal, (direction p); cbn in *; congruence. }
  rewrite Hcond.
  match goal with
  | |- context [runMutation (logEvent rt sessionId info ?m ?d)] =>
      destruct (logEvent_appends rt sessionId info m d w)
        as (w1 & t1 & Hlog & Hp1 & Hs1 & Hr1 & _)
  end.
  rewrite (bind_step _ _ _ _ _ Hlog).
  assert (Hin : (i, p) ∈ open_positions_of sessionId (db w))
    by (rewrite Hopen; apply list_elem_of_here).
  apply elem_of_open_positions in Hin as [Hp Hisopen].
  pose proof (open_position_session _ _ Hisopen) as Hsid.
  destruct (closePositionWithBroker_local rt sessionId session i p price
              (closing_reason signal) w1)
    as (w2 & p' & entry & Hclose & Hcl & Hpos & Hlen & Hreq & _).
  { rewrite paper. apply andb_false_r. }
  { now rewrite Hp1. }
  { now rewrite Hsid, Hs1. }
  fold (closing_reason signal).
  rewrite (bind_step _ _ _ _ _ Hclose).
  rewrite refreshed_view
    by (apply lookup_lt_is_Some; rewrite Hlen, Hs1; now apply lookup_lt_is_Some).
  exists w2, p'.
  rewrite (open_positions_after_close sessionId (db w) (db w2) i p rest p' Hopen).
  - split; [reflexivity|]. split; [assumption|].
    split; [now rewrite Hpos, Hp1|]. split; [now rewrite Hreq, Hr1|].
    now rewrite Hlen, Hs1.
  - unfold positions_of in *. now rewrite Hpos, Hp1.
  - apply closed_not_open. now apply closed_as_fields in Hcl as [? _].
Qed.

End PaperTick.

Lemma evaluate_paper_tick rt sessionId reason w session candles w1 :
  sessions_of w !! sessionId = Some session ->
  status session = running ->
  fetchCandles rt (instrument (config session)) (granularity (config session))
    (Z.max (longWindow (config session) * 2) (longWindow (config session) + 5))
    w = (Ok candles, w1) ->
  (Z.of_nat (length (closing_prices rt candles)) <? longWindow (config session))
  = false ->
  let a := analyse session (closing_prices rt candles) in
  db w1 = db w
  /\ evaluateSession rt sessionId reason w
     = try_catch
         (remaining <- settle rt sessionId session
                         (open_positions_of sessionId (db w)) reason a ;;
          openOnSignal rt sessionId session remaining (a_signal a)
            (a_previousSignal a) (a_latestPrice a))
         (evaluationFailed rt sessionId) w1.
Proof.
  intros Hs Hr Hfetch Hlen a.
  pose proof (fetchCandles_db rt (instrument (config session))
                (granularity (config session))
                (Z.max (longWindow (config session) * 2)
                   (longWindow (config session) + 5)) w) as Hdb.
  rewrite Hfetch in Hdb. unfold same in Hdb. cbn [snd] in Hdb.
  split; [exact Hdb|].
  rewrite (evaluateSession_running rt _ _ _ _ Hs Hr).
  unfold evaluate. cbv zeta.
  unfold try_catch at 1, bind at 1. rewrite Hfetch, Hlen. reflexivity.
Qed.

(** X19: on paper, a running session whose oldest open position agrees
    with the new signal holds it: the tick closes nothing and opens
    nothing, so the positions are exactly as before, and the session keeps
    running with the new analysis recorded. *)
Theorem hold_while_signal_agrees rt sessionId reason w session candles w1 i p
    rest :
  isOandaConfigured rt = false ->
  sessions_of w !! sessionId = Some session ->
  status session = running ->
  fetchCandles rt (instrument (config session)) (granularity (config session))
    (Z.max (longWindow (config session) * 2) (longWindow (config session) + 5))
    w = (Ok candles, w1) ->
  let a := analyse session (closing_prices rt candles) in
  (Z.of_nat (length (closing_prices rt candles)) <? longWindow (config session))
  = false ->
  open_positions_of sessionId (db w) = (i, p) :: rest ->
  a_signal a = signal_of_direction (direction p) ->
  exists w',
    evaluateSession rt sessionId reason w = (Ok tt, w')
    /\ positions_of w' = positions_of w
    /\ requests w' = requests w1
    /\ holds (fun s => status s = running /\ recorded a session s) sessionId w'.
Proof.
  intros Hpaper Hs Hr Hfetch a Hlen Hopen Hsig.
  destruct (evaluate_paper_tick rt sessionId reason w session candles w1
              Hs Hr Hfetch Hlen) as [Hdb ->].
  fold a. rewrite Hopen.
  assert (Hs1 : sessions_of w1 !! sessionId = Some session)
    by (unfold sessions_of in *; now rewrite Hdb).
  destruct (settle_paper_prefix rt Hpaper sessionId session ((i, p) :: rest)
              reason a w1 session Hs1)
    as (w3 & s3 & Hsettle & Hs3 & Hrec & Hst & _ & Hp3 & Hr3).
  unfold try_catch, bind. rewrite Hsettle.
  rewrite (closeOnSignal_holds rt sessionId session i p rest _ _ w3 Hsig).
  unfold openOnSignal, opens_position. cbn [length Nat.eqb andb]. unfold ret.
  exists w3. split; [reflexivity|].
  split; [unfold positions_of in *; now rewrite Hp3, Hdb|].
  split; [assumption|].
  exists s3. split; [|split; [congruence|assumption]].
  rewrite Hs3. apply list_lookup_insert_eq. now apply lookup_lt_Some in Hs1.
Qed.

Lemma hold_while_signal_agrees_witness :
  let session := Demo.session running (Demo.cfg 1 3) None in
  let p := Demo.position None dir_long in
  let w := Demo.world [session] [p] in
  exists w',
    evaluateSession Demo.paper 0 None w = (Ok tt, w')
    /\ positions_of w' = [p].
Proof.
  intros session p w.
  destruct (hold_while_signal_agrees Demo.paper 0%nat None w session Demo.rising
              (snd (fetchCandles Demo.paper "EUR_USD" "M5" 8 w)) 0%nat p []
              eq_refl eq_refl eq_refl eq_refl eq_refl eq_refl eq_refl)
    as (w' & H1 & H2 & _).
  exists w'. split; assumption.
Defined.

(** X20: on paper, when the new signal is neutral or opposite to the
    oldest open position of a running session, the tick closes that
    position at the latest price, with reason "neutral-signal" or
    "signal-flip", and sends no order.  It then opens a position in the
    new direction only if no other position of the session is left open,
    the signal is not neutral, and the signal differs from the one the
    session had recorded before the tick; otherwise it leaves the session
    flat. *)
Theorem close_on_signal_change rt sessionId reason w session candles w1 i p rest
    price :
  isOandaConfigured rt = false ->
  sessions_of w !! sessionId = Some session ->
  status session = running ->
  fetchCandles rt (instrument (config session)) (granularity (config session))
    (Z.max (longWindow (config session) * 2) (longWindow (config session) + 5))
    w = (Ok candles, w1) ->
  let a := analyse session (closing_prices rt candles) in
  (Z.of_nat (length (closing_prices rt candles)) <? longWindow (config session))
  = false ->
  a_latestPrice a = Some price ->
  open_positions_of sessionId (db w) = (i, p) :: rest ->
  a_signal a <> signal_of_direction (direction p) ->
  exists w' p' t,
    evaluateSession rt sessionId reason w = (Ok tt, w')
    /\ p_status p' = position_closed
    /\ closeReason p' = Some (closing_reason (a_signal a))
    /\ exitPrice p' = Some price
    /\ opening_data p' = opening_data p
    /\ positions_of w'
       = <[i := p']> (positions_of w) ++
         (if opens_position rest (a_signal a) (default neutral (lastSignal session))
          then [opened_position sessionId session
                  (direction_of_signal (a_signal a)) price price None t]
          else [])
    /\ requests w' = requests w1.
Proof.
  intros Hpaper Hs Hr Hfetch a Hlen Hprice Hopen Hsig.
  destruct (evaluate_paper_tick rt sessionId reason w session candles w1
              Hs Hr Hfetch Hlen) as [Hdb ->].
  fold a. rewrite Hopen.
  assert (Hs1 : sessions_of w1 !! sessionId = Some session)
    by (unfold sessions_of in *; now rewrite Hdb).
  destruct (settle_paper_prefix rt Hpaper sessionId session ((i, p) :: rest)
              reason a w1 session Hs1)
    as (w3 & s3 & Hsettle & Hs3 & _ & _ & _ & Hp3 & Hr3).
  assert (Hopen3 : open_positions_of sessionId (db w3) = (i, p) :: rest).
  { rewrite <- Hopen. unfold open_positions_of, positions_of in *.
    now rewrite Hp3, Hdb. }
  assert (Hsome3 : is_Some (sessions_of w3 !! sessionId)).
  { apply lookup_lt_is_Some. rewrite Hs3, length_insert.
    now apply lookup_lt_Some in Hs1. }
  destruct (closeOnSignal_paper_closes rt Hpaper sessionId session i p rest
              (a_signal a) (a_latestPrice a) w3 Hsig Hopen3 Hsome3)
    as (w4 & p' & Hclose & Hcl & Hp4 & Hr4 & Hlen4).
  assert (Hsome4 : is_Some (sessions_of w4 !! sessionId)).
  { apply lookup_lt_is_Some. rewrite Hlen4. now apply lookup_lt_is_Some. }
  unfold try_catch, bind. rewrite Hsettle, Hclose, Hprice.
  destruct (openOnSignal_paper rt Hpaper sessionId session rest (a_signal a)
              (a_previousSignal a) price w4 Hsome4)
    as (w5 & t & Hopens & Hr5 & Hp5).
  rewrite Hopens. exists w5, p', t. split; [reflexivity|].
  rewrite Hprice in Hcl.
  pose proof (closed_as_fields _ _ _ _ Hcl) as (H1 & H2 & H3 & _).
  repeat (split; [assumption|]).
  split; [destruct Hcl as [tc ->]; destruct p; reflexivity|].
  split; [|congruence].
  rewrite Hp5, Hp4. unfold positions_of in *. rewrite Hp3, Hdb. reflexivity.
Qed.

Lemma close_on_signal_change_witness :
  let session := Scenario.session_with running (Demo.cfg 1 3) long in
  let p := Demo.position None dir_long in
  let w := Demo.world [session] [p] in
  exists w' p' t,
    evaluateSession Scenario.paper_falling 0 None w = (Ok tt, w')
    /\ p_status p' = position_closed
    /\ closeReason p' = Some "signal-flip"
    /\ positions_of w'
       = [p'; opened_position 0 session dir_short
                (parseFloat Scenario.paper_falling "99")
                (parseFloat Scenario.paper_falling "99") None t].
Proof.
  intros session p w.
  destruct (close_on_signal_change Scenario.paper_falling 0%nat None w session
              Scenario.falling
              (snd (fetchCandles Scenario.paper_falling "EUR_USD" "M5" 8 w))
              0%nat p [] (parseFloat Scenario.paper_falling "99")
              eq_refl eq_refl eq_refl eq_refl eq_refl eq_refl eq_refl)
    as (w' & p' & t & H1 & H2 & H3 & _ & _ & H6 & _).
  { vm_compute. discriminate. }
  exists w', p', t. repeat split; assumption.
Defined.

(** ** Sessions the scheduler passes over *)

Section Idle.

Variable rt : Runtime.
Variables (sessionId : nat) (before : TraderSession).
Hypothesis idle : status before <> running.

Lemma touched_only_harmless t : harmless (touched_only before) [f_updatedAt t].
Proof. intros s [t0 ->]. exists t. now destruct before. Qed.

Lemma evaluateSession_spares target reason :
  keeps (retains (touched_only before) sessionId)
    (evaluateSession rt target reason).
Proof.
  destruct (decide (target = sessionId)) as [->|Hne].
  - intros w (s & Hs & Hq).
    rewrite (evaluateSession_idle rt sessionId reason w s Hs).
    + exists s. now split.
    + destruct Hq as [t ->]. now destruct before.
  - pose proof touched_only_harmless. unfold_handlers. auto 40 with frame.
Qed.

Lemma closeSessionPositions_spares target reason :
  keeps (retains (touched_only before) sessionId)
    (closeSessionPositions rt target reason).
Proof. pose proof touched_only_harmless. unfold_handlers. auto 40 with frame. Qed.

Lemma tickActiveSessions_spares :
  keeps (retains (touched_only before) sessionId) (tickActiveSessions rt).
Proof.
  unfold tickActiveSessions, runQuery, runAction.
  pose proof evaluateSession_spares. auto 10 with frame.
Qed.

End Idle.

(** X21: the scheduled actions pass over a session that is not running.
    Whatever the sweep, a tick (of this session or of another) or the
    closing of positions does, such a session keeps its configuration,
    status, signal, analytics and error message; at most the time of its
    last update moves. *)
Theorem idle_sessions_are_spared rt op sessionId before w :
  sessions_of w !! sessionId = Some before ->
  status before <> running ->
  match op with
  | op_closeSessionPositions _ _ | op_tickActiveSessions
  | op_evaluateSession _ _ =>
      exists s,
        sessions_of (after rt op w) !! sessionId = Some s
        /\ touched_only before s
  | _ => True
  end.
Proof.
  intros Hs Hidle.
  assert (Hstart : holds (touched_only before) sessionId w).
  { exists before. split; [assumption|].
    exists (updatedAt before). now destruct before. }
  destruct op as [args|target config|target|target closePositions|target
                 |target reason| |target reason]; try exact I; unfold after;
    cbn [run].
  - now apply (closeSessionPositions_spares rt sessionId before Hidle target reason w).
  - now apply (tickActiveSessions_spares rt sessionId before Hidle w).
  - now apply (evaluateSession_spares rt sessionId before Hidle target reason w).
Qed.

Lemma idle_sessions_are_spared_witness :
  let idle := Demo.session stopped (Demo.cfg 1 3) None in
  let busy := Demo.session running (Demo.cfg 1 3) None in
  let w := Demo.world [idle; busy] [] in
  exists s,
    sessions_of (after Demo.paper op_tickActiveSessions w) !! 0%nat = Some s
    /\ touched_only idle s.
Proof.
  intros idle busy w.
  apply (idle_sessions_are_spared Demo.paper op_tickActiveSessions 0%nat idle w
           eq_refl).
  discriminate.
Defined.

(** ** What the dashboard reads *)

Lemma imap_pair_increasing {A} (l : list A) :
  forall k,
    StronglySorted (fun a b : nat * A => (fst a < fst b)%nat)
      (imap (fun i => pair (k + i)%nat) l).
Proof.
  induction l as [|x l IH]; intros k; [constructor|].
  cbn [imap].
  rewrite (imap_ext _ (fun i => pair (S k + i)%nat)) by (intros; cbn; f_equal; lia).
  constructor; [apply IH|].
  apply Forall_forall. intros [j y] Hin.
  apply elem_of_lookup_imap in Hin as (i & z & [= -> ->] & _). cbn. lia.
Qed.

Lemma StronglySorted_filter {A} (R : relation A) (P : A -> Prop)
    `{forall x, Decision (P x)} (l : list A) :
  StronglySorted R l -> StronglySorted R (filter P l).
Proof.
  induction 1 as [|x l Hl IH Hx]; [constructor|].
  rewrite filter_cons. destruct (decide (P x)); [|exact IH].
  constructor; [exact IH|].
  rewrite Forall_forall in Hx |- *. intros y Hy.
  apply list_elem_of_filter in Hy as [_ Hy]. now apply Hx.
Qed.

Lemma StronglySorted_reverse {A} (R : relation A) (l : list A) :
  StronglySorted R l -> StronglySorted (flip R) (reverse l).
Proof.
  induction 1 as [|x l Hl IH Hx]; [constructor|].
  rewrite reverse_cons. apply StronglySorted_app_2;
    [|exact IH|repeat constructor].
  intros y z Hy Hz. rewrite elem_of_reverse in Hy.
  apply list_elem_of_singleton in Hz as ->.
  rewrite Forall_forall in Hx. unfold flip. now apply Hx.
Qed.

Lemma StronglySorted_take {A} (R : relation A) (l : list A) :
  StronglySorted R l -> forall n, StronglySorted R (take n l).
Proof.
  induction 1 as [|x l Hl IH Hx]; intros [|n]; cbn; try constructor.
  - apply IH.
  - now apply Forall_take.
Qed.

(** In a list sorted newest first, whatever the first [n] elements
    include, they include everything newer. *)
Lemma newest_first_take_closed {A} (l : list (nat * A)) :
  StronglySorted (fun newer older => (fst older < fst newer)%nat) l ->
  forall n x y,
    x ∈ take n l -> y ∈ l -> (fst x < fst y)%nat -> y ∈ take n l.
Proof.
  induction 1 as [|a l Hl IH Ha]; intros n x y Hx Hy Hlt;
    [now apply not_elem_of_nil in Hy|].
  destruct n as [|n]; [now apply not_elem_of_nil in Hx|].
  cbn [take] in *. apply elem_of_cons in Hy as [->|Hy];
    [apply list_elem_of_here|].
  apply list_elem_of_further.
  apply elem_of_cons in Hx as [->|Hx]; [|now apply (IH n x y)].
  rewrite Forall_forall in Ha. specialize (Ha y Hy). cbn in Ha. lia.
Qed.

(** X22: [listLogs], for a limit that is a whole number (or none, which
    stands for 100), reads a window of one session's log and changes
    nothing.  The entries returned are stored log entries of that session,
    at most 500 and at most max(1, limit) of them.  They come newest
    first, and they are the newest: no entry of the session newer than a
    returned one is left out, and when fewer than the bound are returned
    they are all the session has.  The result is never empty when the
    session has logged anything: with a limit of zero or less it still
    returns the newest entry. *)
Theorem listLogs_window sessionId limit w :
  exists entries,
    listLogs (Some sessionId) limit w = (Ok entries, w)
    /\ Z.of_nat (length entries) <= 500
    /\ Z.of_nat (length entries) <= Z.max 1 (default 100 limit)
    /\ (forall i e, (i, e) ∈ entries ->
                    logs_of w !! i = Some e /\ l_sessionId e = sessionId)
    /\ StronglySorted (fun newer older => (fst older < fst newer)%nat) entries
    /\ (forall i e j e',
          (i, e) ∈ entries ->
          logs_of w !! j = Some e' ->
          l_sessionId e' = sessionId ->
          (i < j)%nat ->
          (j, e') ∈ entries)
    /\ (forall j e',
          logs_of w !! j = Some e' ->
          l_sessionId e' = sessionId ->
          entries <> []
          /\ (Z.of_nat (length entries)
              < Z.min 500 (Z.max 1 (default 100 limit)) ->
              (j, e') ∈ entries)).
Proof.
  unfold listLogs. cbv zeta. eexists. split; [reflexivity|].
  set (n := Z.to_nat (Z.min 500 (Z.max 1 (default 100 limit)))).
  set (newest := reverse
                   (filter (fun doc : nat * TraderLog =>
                              l_sessionId (snd doc) = sessionId)
                      (imap pair (traderLogs (db w))))).
  assert (Hsorted : StronglySorted
                      (fun newer older : nat * TraderLog =>
                         (fst older < fst newer)%nat) newest).
  { apply (StronglySorted_reverse
             (fun a b : nat * TraderLog => (fst a < fst b)%nat)).
    apply StronglySorted_filter.
    apply (imap_pair_increasing (traderLogs (db w)) 0). }
  assert (Hmember : forall j e',
             logs_of w !! j = Some e' -> l_sessionId e' = sessionId ->
             (j, e') ∈ newest).
  { intros j e' Hl Hsid. apply elem_of_reverse, list_elem_of_filter.
    split; [exact Hsid|]. apply elem_of_lookup_imap. eauto. }
  split; [rewrite length_take; lia|].
  split; [rewrite length_take; lia|].
  split.
  { intros i e Hin. apply subseteq_take in Hin.
    apply elem_of_reverse, list_elem_of_filter in Hin as [Hsid Hin].
    apply elem_of_lookup_imap in Hin as (j & y & [= -> ->] & Hl).
    split; assumption. }
  split; [now apply StronglySorted_take|].
  split.
  { intros i e j e' Hin Hl Hsid Hlt.
    apply (newest_first_take_closed newest Hsorted n (i, e) (j, e'));
      [exact Hin|now apply Hmember|exact Hlt]. }
  intros j e' Hl Hsid. pose proof (Hmember j e' Hl Hsid) as Hin. split.
  - destruct newest as [|x rest]; [now apply not_elem_of_nil in Hin|].
    destruct n as [|n'] eqn:Hn; [lia|]. discriminate.
  - intros Hshort. rewrite take_ge; [exact Hin|].
    rewrite length_take in Hshort. lia.
Qed.

(** X23: the dashboard shows as open exactly the positions the engine
    treats as open.  Filtering what [listPositions] returns for a session
    by "status is not closed", as the dashboard does, gives the open
    positions [getSessionState] hands to a tick, newest first. *)
Theorem dashboard_shows_open_positions sessionId w :
  exists positions,
    listPositions (Some sessionId) w = (Ok positions, w)
    /\ dashboard_openPositions (Some positions)
       = reverse (open_positions_of sessionId (db w)).
Proof.
  eexists. split; [reflexivity|].
  unfold dashboard_openPositions, open_positions_of.
  rewrite filter_reverse. f_equal. rewrite list_filter_filter.
  apply list_filter_iff. intros [i p]. cbn [snd].
  unfold is_open_position_of. rewrite andb_true_iff, Nat.eqb_eq. tauto.
Qed.

(** ** The base URL *)

Lemma strip_trailing_slash_cons c rest :
  rest <> EmptyString ->
  strip_trailing_slash (String c rest) = String c (strip_trailing_slash rest).
Proof. destruct rest; [congruence|reflexivity]. Qed.

Lemma strip_trailing_slash_slash u : strip_trailing_slash (u +:+ "/") = u.
Proof.
  induction u as [|c u IH]; [reflexivity|].
  change (String c u +:+ "/") with (String c (u +:+ "/")).
  rewrite strip_trailing_slash_cons, IH; [reflexivity|].
  now destruct u.
Qed.

Lemma strip_trailing_slash_other u :
  (forall t, u <> t +:+ "/") -> strip_trailing_slash u = u.
Proof.
  induction u as [|c u IH]; intros Hu; [reflexivity|].
  destruct u as [|c' u'].
  - cbn. destruct (Ascii.eqb_spec c "/") as [->|_]; [|reflexivity].
    now destruct (Hu EmptyString).
  - rewrite strip_trailing_slash_cons by discriminate. f_equal.
    apply IH. intros t Ht. apply (Hu (String c t)).
    change (String c t +:+ "/") with (String c (t +:+ "/")).
    now rewrite <- Ht.
Qed.

(** X24: the base URL is the configured one, or the practice endpoint
    when none (or an empty one) is configured, less one trailing slash:
    a URL ending in a slash loses exactly that slash, so one ending in two
    keeps one, and any other URL is used as it is. *)
Theorem baseUrl_strips_one_slash rt :
  (Js.truthy_ostring (OANDA_API_URL rt) = false -> baseUrl rt = DEFAULT_BASE_URL)
  /\ (forall u, OANDA_API_URL rt = Some (u +:+ "/") -> baseUrl rt = u)
  /\ (forall u, OANDA_API_URL rt = Some u -> u <> EmptyString ->
                (forall t, u <> t +:+ "/") -> baseUrl rt = u).
Proof.
  unfold baseUrl. split; [|split].
  - intros ->. reflexivity.
  - intros u ->. cbn [Js.truthy_ostring default].
    replace (Js.truthy_string (u +:+ "/")) with true
      by (now destruct u).
    apply strip_trailing_slash_slash.
  - intros u -> Hne Hu. cbn [Js.truthy_ostring].
    replace (Js.truthy_string u) with true by (now destruct u).
    now apply strip_trailing_slash_other.
Qed.

Lemma baseUrl_strips_one_slash_witness :
  baseUrl Demo.paper = DEFAULT_BASE_URL.
Proof. apply (proj1 (baseUrl_strips_one_slash Demo.paper)). reflexivity. Defined.

(** ** Orders the broker does not fill *)

(** X25: what is recorded depends on the fill, not on the order.  When
    the broker is configured and answers an order without any fill
    transaction, [openPositionWithBroker] still records an open position:
    at the market price, with no broker trade identifier, exactly the
    record paper trading would have made. *)
Theorem unfilled_order_is_recorded rt sessionId session dir price w response w1
    stored :
  isOandaConfigured rt = true ->
  placeMarketOrder rt (instrument (config session)) (order_units session dir)
    (order_takeProfitPrice session dir price)
    (order_stopLossPrice session dir price) w = (Ok (Some response), w1) ->
  first_fill response = None ->
  sessions_of w !! sessionId = Some stored ->
  exists w' t,
    openPositionWithBroker rt sessionId session dir (Some price) w = (Ok tt, w')
    /\ positions_of w' = positions_of w ++
         [opened_position sessionId session dir price price None t]
    /\ requests w' = requests w1.
Proof.
  intros Hcfg Hplace Hfill Hs.
  pose proof (placeMarketOrder_db rt (instrument (config session))
                (order_units session dir)
                (order_takeProfitPrice session dir price)
                (order_stopLossPrice session dir price) w) as Hdb.
  rewrite Hplace in Hdb. unfold same in Hdb. cbn [snd] in Hdb.
  unfold sessions_of, positions_of in *. rewrite <- Hdb in Hs. rewrite <- Hdb.
  unfold openPositionWithBroker. cbv zeta. rewrite Hcfg. cbn [Js.to_number].
  unfold bind at 1. rewrite (bind_step _ _ _ _ _ Hplace).
  unfold extractTradeId. rewrite Hfill.
  unfold bind, ret, runMutation, createPositionRecord, logEvent, bind,
    Date_now, db_insert_position, db_patch_session, db_insert_log, ret,
    set_db.
  cbn. rewrite Hs. cbn. eexists _, _. repeat split.
Qed.

Lemma unfilled_order_is_recorded_witness :
  let session := Demo.session running (Demo.cfg 1 3) None in
  let w := Demo.world [session] [] in
  exists w' t,
    openPositionWithBroker Demo.broker 0 session dir_long (Some 110%float) w
      = (Ok tt, w')
    /\ positions_of w' = [opened_position 0 session dir_long 110 110 None t].
Proof.
  intros session w.
  destruct (unfilled_order_is_recorded Demo.broker 0%nat session dir_long
              110%float w no_fill
              (snd (placeMarketOrder Demo.broker "EUR_USD"
                      (order_units session dir_long)
                      (order_takeProfitPrice session dir_long 110)
                      (order_stopLossPrice session dir_long 110) w))
              session eq_refl eq_refl eq_refl eq_refl)
    as (w' & t & H1 & H2 & _).
  exists w', t. split; assumption.
Defined.

(** ** The sweep *)

Lemma filter_none {A} (f : A -> bool) (l : list A) :
  (forall x, x ∈ l -> f x = false) -> List.filter f l = [].
Proof.
  induction l as [|x l IH]; intros H; [reflexivity|]. cbn.
  rewrite (H x) by apply list_elem_of_here.
  apply IH. intros y Hy. apply H. now apply list_elem_of_further.
Qed.

(** X26: the sweep does nothing at all when no session is running: no
    request, no log entry, no write, not even a reading of the clock. *)
Theorem sweep_without_running_sessions rt w :
  (forall i s, sessions_of w !! i = Some s -> status s <> running) ->
  tickActiveSessions rt w = (Ok tt, w).
Proof.
  intros Hidle. unfold tickActiveSessions, runQuery, bind, getActiveSessionIds.
  rewrite filter_none; [reflexivity|].
  intros [i s] Hin. apply elem_of_lookup_imap in Hin as (j & y & [= -> ->] & Hl).
  specialize (Hidle j y Hl). cbn. unfold is_running.
  destruct (status y); congruence.
Qed.

Lemma sweep_without_running_sessions_witness :
  let w := Demo.world [Demo.session stopped (Demo.cfg 1 3) None;
                       Demo.session status_error (Demo.cfg 1 3) (Some "down")]
             [] in
  tickActiveSessions Demo.paper w = (Ok tt, w).
Proof.
  intros w. apply sweep_without_running_sessions.
  intros [|[|i]] s [= <-]; discriminate.
Defined.

(** ** The averaged window *)

(** X27: for a whole number [k] of values, at most as many as the series
    has, [movingAverage] with window [k] averages exactly the last [k]
    values: it sums the tail of the series that has [k] elements and
    divides by [k]. *)
Theorem movingAverage_window (series : list float) (k : nat) :
  (k <= length series)%nat ->
  let recent := drop (length series - k) series in
  length recent = k
  /\ movingAverage series (Z.of_nat k)
     = Some (Js.sum recent / Js.of_length k)%float.
Proof.
  intros Hk. cbv zeta.
  assert (Hlen : length (drop (length series - k) series) = k)
    by (rewrite length_drop; lia).
  split; [exact Hlen|].
  unfold movingAverage. cbv zeta.
  destruct (Z.ltb_spec (Z.of_nat (length series)) (Z.of_nat k)) as [|_]; [lia|].
  assert (Hslice : Js.slice series (Z.of_nat (length series) - Z.of_nat k)
                   = drop (length series - k) series).
  { unfold Js.slice. cbv zeta.
    destruct (Z.ltb_spec (Z.of_nat (length series) - Z.of_nat k) 0) as [|_];
      [lia|].
    f_equal. lia. }
  rewrite Hslice, Hlen. reflexivity.
Qed.

Lemma movingAverage_window_witness :
  movingAverage [1; 2; 3; 4]%float 2
  = Some (Js.sum [3; 4]%float / Js.of_length 2)%float.
Proof.
  apply (proj2 (movingAverage_window [1; 2; 3; 4]%float 2 ltac:(cbn; lia))).
Defined.

(** ** Listing sessions *)

(** X28: a session just created heads the list of sessions.  For an
    accepted configuration, [listSessions] after [createSession] is the
    listing before it with the new session, under the identifier
    [createSession] returned, put in front. *)
Theorem created_session_is_listed_first rt args w :
  validateConfig args = Ok tt ->
  exists sessionId w' s listing,
    createSession rt args w = (Ok sessionId, w')
    /\ listSessions w = (Ok listing, w)
    /\ listSessions w' = (Ok ((sessionId, s) :: listing), w')
    /\ config s = args
    /\ status s = stopped.
Proof.
  intros Hv. unfold createSession, bind, lift. rewrite Hv.
  unfold Date_now, db_insert_session, db_insert_log, ret, set_db, listSessions.
  cbn. eexists _, _, _, _. split; [reflexivity|]. split; [reflexivity|].
  split; [cbn [db traderSessions]; rewrite imap_app, reverse_app; cbn;
          now rewrite Nat.add_0_r|].
  split; reflexivity.
Qed.

Lemma created_session_is_listed_first_witness :
  exists sessionId w' s,
    createSession Demo.paper (Demo.cfg 1 3)
      (Demo.world [Demo.session stopped (Demo.cfg 2 5) None] [])
    = (Ok sessionId, w')
    /\ listSessions w'
       = (Ok [(sessionId, s); (0%nat, Demo.session stopped (Demo.cfg 2 5) None)],
          w').
Proof.
  destruct (created_session_is_listed_first Demo.paper (Demo.cfg 1 3)
              (Demo.world [Demo.session stopped (Demo.cfg 2 5) None] [])
              eq_refl)
    as (sessionId & w' & s & listing & H1 & H2 & H3 & _).
  injection H2 as <-. exists sessionId, w', s. split; assumption.
Defined.

(** * Reconciliation within a tick *)

Lemma bind_bind_step {A B C} (m : Action A) (k1 : A -> Action B)
    (k2 : B -> Action C) w a w' :
  m w = (Ok a, w') -> bind (bind m k1) k2 w = bind (k1 a) k2 w'.
Proof. intros H. unfold bind. now rewrite H. Qed.

Lemma bind_bind_throw {A B C} (m : Action A) (k1 : A -> Action B)
    (k2 : B -> Action C) w message w' :
  m w = (Throw message, w') -> bind (bind m k1) k2 w = (Throw message, w').
Proof. intros H. unfold bind. now rewrite H. Qed.

Lemma bind_throw {A B} (m : Action A) (k : A -> Action B) w message w' :
  m w = (Throw message, w') -> bind m k w = (Throw message, w').
Proof. intros H. unfold bind. now rewrite H. Qed.

(** What the broker answers to the open-trades query depends on the world
    only through the requests sent so far. *)
Lemma getOpenTrades_reply rt w w' :
  requests w' = requests w ->
  fst (getOpenTrades rt w') = fst (getOpenTrades rt w).
Proof.
  intros H.
  unfold getOpenTrades, oandaFetch, bind, lift, fetch.
  destruct (requireAccountId rt); [|reflexivity].
  destruct (requireApiKey rt); [|reflexivity].
  rewrite H.
  destruct (network rt _ _) as [m|st stText text json]; cbn; [reflexivity|].
  unfold r_ok. cbn. destruct (negb _); cbn; [reflexivity|].
  destruct (st =? 204); cbn; [reflexivity|].
  destruct json as [[cs|r|[trades|]]|m]; reflexivity.
Qed.

Lemma settle_prefix rt sessionId session openPositions reason a w s :
  sessions_of w !! sessionId = Some s ->
  exists w' s',
    settle rt sessionId session openPositions reason a w
      = (reconciled <- reconcilePositions rt sessionId openPositions
                         (a_latestPrice a) ;;
         closeOnSignal rt sessionId session reconciled (a_signal a)
           (a_latestPrice a)) w'
    /\ sessions_of w' = <[sessionId := s']> (sessions_of w)
    /\ positions_of w' = positions_of w
    /\ requests w' = requests w.
Proof.
  intros Hs. unfold settle.
  rewrite (bind_step (Date_now rt) _ w _ _ eq_refl).
  assert (Hs1 : sessions_of
                  {| db := db w; scheduled := scheduled w;
                     requests := requests w; clock := S (clock w) |}
                !! sessionId = Some s) by exact Hs.
  destruct (updateAnalytics_effect rt sessionId a (a_signal a)
              (clock_reading rt (clock w)) _ s Hs1)
    as (w2 & s2 & Hupd & Hs2 & _ & _ & _ & _ & _ & _ & _ & _ & Hp2 & Hr2 & _).
  rewrite (bind_step _ _ _ _ _ Hupd).
  match goal with
  | |- context [runMutation (logEvent rt sessionId analysis ?m ?d)] =>
      destruct (logEvent_appends rt sessionId analysis m d w2)
        as (w3 & t3 & Hlog & Hp3 & Hs3 & Hr3 & _)
  end.
  rewrite (bind_step _ _ _ _ _ Hlog).
  exists w3, s2. split; [reflexivity|].
  split; [now rewrite Hs3, Hs2|].
  split; [now rewrite Hp3, Hp2|now rewrite Hr3, Hr2].
Qed.

(** Closing a position, at the broker or locally, writes to that position
    at most, and only to close it. *)
Lemma closePositionWithBroker_touches rt sessionId session i p price reason w :
  positions_of w !! i = Some p ->
  is_Some (sessions_of w !! p_sessionId p) ->
  let w' := snd (closePositionWithBroker rt sessionId session (i, p) price
                   reason w) in
  positions_of w' = positions_of w
  \/ exists p',
       positions_of w' = <[i := p']> (positions_of w)
       /\ p_status p' = position_closed
       /\ closeReason p' = Some reason.
Proof.
  intros Hp Hs. cbv zeta.
  assert (Hrecord : forall exit pnl w1,
             db w1 = db w ->
             let w' := snd ((runMutation
                               (closePositionRecord rt i exit pnl reason) ;;
                             runMutation
                               (logEvent rt sessionId trade
                                  ("Closed position " +:+ pretty i +:+ " ("
                                   +:+ reason +:+ ")")
                                  (Some [("tradeId",
                                          VOptString (oandaTradeId p));
                                         ("exitPrice", VOptNumber exit);
                                         ("realizedPnl", VOptNumber pnl)])))
                              w1) in
             exists p',
               positions_of w' = <[i := p']> (positions_of w)
               /\ p_status p' = position_closed
               /\ closeReason p' = Some reason).
  { intros exit pnl w1 Hdb. cbv zeta.
    assert (Hp1 : positions_of w1 !! i = Some p)
      by (unfold positions_of in *; now rewrite Hdb).
    assert (Hs1 : is_Some (sessions_of w1 !! p_sessionId p))
      by (unfold sessions_of in *; now rewrite Hdb).
    destruct (closePositionRecord_effect rt i exit pnl reason w1 p Hp1 Hs1)
      as (w2 & t & Hrun & Hpos & _).
    rewrite (bind_step _ _ _ _ _ Hrun).
    match goal with
    | |- context [runMutation (logEvent rt sessionId trade ?m ?d) w2] =>
        destruct (logEvent_appends rt sessionId trade m d w2)
          as (w3 & t3 & Hlog & Hp3 & _)
    end.
    rewrite Hlog. cbn [snd]. eexists. split.
    - rewrite Hp3, Hpos. unfold positions_of. now rewrite Hdb.
    - destruct p, exit, pnl; split; reflexivity. }
  unfold closePositionWithBroker. cbn [fst snd].
  destruct (Js.truthy_ostring (oandaTradeId p) && isOandaConfigured rt).
  - pose proof (closeTrade_db rt (default "" (oandaTradeId p)) w) as Hdb.
    unfold same in Hdb.
    destruct (closeTrade rt (default "" (oandaTradeId p)) w)
      as [[[response|]|message] w1] eqn:Hct; cbn [snd] in Hdb.
    + rewrite (bind_bind_step _ _ _ _ _ _ Hct).
      rewrite (bind_step (ret _) _ w1 _ _ eq_refl). cbn [fst snd].
      right. apply Hrecord. exact Hdb.
    + rewrite (bind_bind_step _ _ _ _ _ _ Hct).
      left. unfold bind, throw. cbn. unfold positions_of. now rewrite Hdb.
    + rewrite (bind_bind_throw _ _ _ _ _ _ Hct).
      left. cbn. unfold positions_of. now rewrite Hdb.
  - rewrite (bind_step (ret _) _ w _ _ eq_refl). cbn [fst snd].
    right. now apply Hrecord.
Qed.

Lemma refreshed_world sessionId w :
  snd (refreshed_open_positions sessionId w) = w.
Proof.
  unfold refreshed_open_positions, runQuery, bind, getSessionState.
  now destruct (traderSessions (db w) !! sessionId).
Qed.

(** The closing block leaves every position as it was, except that it may
    close one open position of the session, with the reason the signal
    gives. *)
Lemma closeOnSignal_touches rt sessionId session signal price w :
  is_Some (sessions_of w !! sessionId) ->
  let w' := snd (closeOnSignal rt sessionId session
                   (open_positions_of sessionId (db w)) signal price w) in
  forall j q,
    positions_of w !! j = Some q ->
    exists q',
      positions_of w' !! j = Some q'
      /\ (q' = q
          \/ (is_open_position_of sessionId q = true
              /\ p_status q' = position_closed
              /\ closeReason q' = Some (closing_reason signal))).
Proof.
  intros Hs. cbv zeta. unfold closeOnSignal.
  destruct (head (open_positions_of sessionId (db w))) as [[i p]|] eqn:Hhead;
    [|intros j q Hq; exists q; auto].
  destruct (_ || _); [|intros j q Hq; exists q; auto].
  apply head_Some_elem_of, elem_of_open_positions in Hhead as [Hp Hopen].
  pose proof (open_position_session _ _ Hopen) as Hsid.
  match goal with
  | |- context [runMutation (logEvent rt sessionId info ?m ?d)] =>
      destruct (logEvent_appends rt sessionId info m d w)
        as (w1 & t1 & Hlog & Hp1 & Hs1 & _)
  end.
  rewrite (bind_step _ _ _ _ _ Hlog). fold (closing_reason signal).
  assert (Hw2 : forall (k : unit -> Action (list (nat * TraderPosition))),
             (forall w2, snd (k tt w2) = w2) ->
             snd ((closePositionWithBroker rt sessionId session (i, p) price
                     (closing_reason signal) ;; k tt) w1)
             = snd (closePositionWithBroker rt sessionId session (i, p) price
                      (closing_reason signal) w1)).
  { intros k Hk. unfold bind.
    destruct (closePositionWithBroker rt sessionId session (i, p) price
                (closing_reason signal) w1) as [[[]|message] w2];
      [apply Hk|reflexivity]. }
  rewrite (Hw2 (fun _ => refreshed_open_positions sessionId))
    by (intros; apply refreshed_world).
  destruct (closePositionWithBroker_touches rt sessionId session i p price
              (closing_reason signal) w1) as [Hsame|(p' & Hpos & Hst & Hreason)].
  { unfold positions_of in *. now rewrite Hp1. }
  { rewrite Hsid, Hs1. exact Hs. }
  - intros j q Hq. exists q. split; [|now left].
    now rewrite Hsame, Hp1.
  - intros j q Hq. destruct (decide (j = i)) as [->|Hne].
    + exists p'. split.
      * rewrite Hpos, Hp1. apply list_lookup_insert_eq.
        now apply lookup_lt_Some in Hq.
      * right. unfold positions_of in Hq. assert (q = p) by congruence.
        subst q. auto.
    + exists q. split; [|now left].
      rewrite Hpos, Hp1. now rewrite list_lookup_insert_ne.
Qed.

Lemma extends_positions_framing : Framing extends_positions.
Proof.
  split; unfold extends_positions, positions_of.
  - intros w. exists []. now rewrite app_nil_r.
  - intros w1 w2 w3 [l1 H1] [l2 H2]. exists (l1 ++ l2).
    now rewrite H2, H1, app_assoc.
  - intros w w' _. exists []. cbn. now rewrite app_nil_r.
Qed.

Lemma same_positions_extends {A} (a : Action A) :
  keeps (same positions_of) a -> keeps extends_positions a.
Proof. intros H w. exists []. rewrite H. now rewrite app_nil_r. Qed.

Lemma db_insert_position_extends p :
  keeps extends_positions (db_insert_position p).
Proof. intros w. now exists [p]. Qed.

#[local] Hint Resolve extends_positions_framing db_insert_position_extends
  : frame.
#[local] Hint Extern 6 (keeps extends_positions _) =>
  apply same_positions_extends; solve [primitive_keeps] : frame.

(** The opening block and the failure handler never write to a position
    that is already there. *)
Lemma openOnSignal_extends rt sessionId session remaining signal previous price :
  keeps extends_positions
    (openOnSignal rt sessionId session remaining signal previous price).
Proof. unfold_handlers. auto 40 with frame. Qed.

Lemma evaluationFailed_extends rt sessionId error :
  keeps extends_positions (evaluationFailed rt sessionId error).
Proof. unfold_handlers. auto 40 with frame. Qed.

(** After reconciliation the tick closes at most one more position, one
    that is still open, and otherwise only adds to the table. *)
Lemma tick_tail_positions rt sessionId session signal previous price w :
  is_Some (sessions_of w !! sessionId) ->
  let w' :=
    snd (try_catch
           (remaining <- closeOnSignal rt sessionId session
                           (open_positions_of sessionId (db w)) signal price ;;
            openOnSignal rt sessionId session remaining signal previous price)
           (evaluationFailed rt sessionId) w) in
  forall j q,
    positions_of w !! j = Some q ->
    exists q',
      positions_of w' !! j = Some q'
      /\ (q' = q
          \/ (is_open_position_of sessionId q = true
              /\ p_status q' = position_closed
              /\ closeReason q' = Some (closing_reason signal))).
Proof.
  intros Hs. cbv zeta. intros j q Hq.
  destruct (closeOnSignal_touches rt sessionId session signal price w Hs j q Hq)
    as (q' & Hq' & Hcase).
  exists q'. split; [|exact Hcase].
  assert (Hext : extends_positions
                   (snd (closeOnSignal rt sessionId session
                           (open_positions_of sessionId (db w)) signal price w))
                   (snd (try_catch
                           (remaining <- closeOnSignal rt sessionId session
                                           (open_positions_of sessionId (db w))
                                           signal price ;;
                            openOnSignal rt sessionId session remaining signal
                              previous price)
                           (evaluationFailed rt sessionId) w))).
  { unfold try_catch, bind.
    destruct (closeOnSignal rt sessionId session
                (open_positions_of sessionId (db w)) signal price w)
      as [[remaining|message] w5]; cbn [snd].
    - pose proof (openOnSignal_extends rt sessionId session remaining signal
                    previous price w5) as Hopen.
      destruct (openOnSignal rt sessionId session remaining signal previous
                  price w5) as [[[]|message] w6]; cbn [snd] in *;
        [exact Hopen|].
      eapply (framing_trans _ extends_positions_framing); [exact Hopen|].
      apply evaluationFailed_extends.
    - apply evaluationFailed_extends. }
  destruct Hext as [opened Hext]. rewrite Hext.
  now apply lookup_app_l_Some.
Qed.

(** C7: a tick reconciles against the broker at the latest close, and
    never reconciles a paper position.  Take a running session for which
    the tick has its candles, enough of them.  (1) A position without a
    (non-empty) broker trade identifier is not touched by reconciliation,
    whatever the broker does: after the tick it is as it was, unless it
    was open and the signal closed it, with the signal's reason.  (2) When
    the broker is configured and answers the open-trades query, which the
    tick sends next after the candle request, every position of the
    session that was open and holds an identifier the broker does not list
    is, after the tick, closed with reason "broker-closed", its exit price
    the last closing price of the candles just fetched (left as it was if
    there is no closing price at all), its realized P&L as it was. *)
Theorem reconcile_broker_closed rt sessionId reason w session candles w1 :
  sessions_of w !! sessionId = Some session ->
  status session = running ->
  fetchCandles rt (instrument (config session)) (granularity (config session))
    (Z.max (longWindow (config session) * 2) (longWindow (config session) + 5))
    w = (Ok candles, w1) ->
  (Z.of_nat (length (closing_prices rt candles)) <? longWindow (config session))
  = false ->
  let latest := last (closing_prices rt candles) in
  let signal := a_signal (analyse session (closing_prices rt candles)) in
  let w' := snd (evaluateSession rt sessionId reason w) in
  (forall i p,
     positions_of w !! i = Some p ->
     Js.truthy_ostring (oandaTradeId p) = false ->
     exists p',
       positions_of w' !! i = Some p'
       /\ (p' = p
           \/ (is_open_position_of sessionId p = true
               /\ p_status p' = position_closed
               /\ closeReason p' = Some (closing_reason signal))))
  /\ (forall liveTrades,
        isOandaConfigured rt = true ->
        fst (getOpenTrades rt w1) = Ok liveTrades ->
        forall i p,
          positions_of w !! i = Some p ->
          is_open_position_of sessionId p = true ->
          stale (map live_id liveTrades) p = true ->
          exists p',
            positions_of w' !! i = Some p'
            /\ p_status p' = position_closed
            /\ closeReason p' = Some "broker-closed"
            /\ exitPrice p' = or_kept latest (exitPrice p)
            /\ realizedPnl p' = realizedPnl p).
Proof.
  intros Hs Hr Hfetch Hlen. cbv zeta.
  destruct (evaluate_paper_tick rt sessionId reason w session candles w1
              Hs Hr Hfetch Hlen) as [Hdb ->].
  set (a := analyse session (closing_prices rt candles)).
  assert (Hlatest : a_latestPrice a = last (closing_prices rt candles))
    by apply index_last.
  assert (Hs1 : sessions_of w1 !! sessionId = Some session)
    by (unfold sessions_of in *; now rewrite Hdb).
  destruct (settle_prefix rt sessionId session
              (open_positions_of sessionId (db w)) reason a w1 session Hs1)
    as (w3 & s3 & Hsettle & Hs3 & Hp3 & Hr3).
  assert (Hpos3 : positions_of w3 = positions_of w)
    by (unfold positions_of in *; now rewrite Hp3, Hdb).
  assert (Hstored3 : sessions_of w3 !! sessionId = Some s3).
  { rewrite Hs3. apply list_lookup_insert_eq. now apply lookup_lt_Some in Hs1. }
  destruct (reconcilePositions_spec rt sessionId (a_latestPrice a) w3 s3 Hstored3)
    as (remaining & w4 & Hrun & Hview & Hs4 & Hpaper & Hlive).
  rewrite (open_positions_same sessionId (db w) (db w3) Hpos3) in Hrun.
  rewrite (bind_step _ _ _ _ _ Hrun) in Hsettle. subst remaining.
  assert (Htick :
            try_catch
              (remaining <- settle rt sessionId session
                              (open_positions_of sessionId (db w)) reason a ;;
               openOnSignal rt sessionId session remaining (a_signal a)
                 (a_previousSignal a) (a_latestPrice a))
              (evaluationFailed rt sessionId) w1
            = try_catch
                (remaining <- closeOnSignal rt sessionId session
                                (open_positions_of sessionId (db w4)) (a_signal a)
                                (a_latestPrice a) ;;
                 openOnSignal rt sessionId session remaining (a_signal a)
                   (a_previousSignal a) (a_latestPrice a))
                (evaluationFailed rt sessionId) w4).
  { unfold try_catch, bind. now rewrite Hsettle. }
  rewrite Htick.
  pose proof (tick_tail_positions rt sessionId session (a_signal a)
                (a_previousSignal a) (a_latestPrice a) w4 Hs4) as Htail.
  cbv zeta in Htail. rewrite <- Hpos3. split.
  - intros i p Hp Hpaper_p.
    apply (Htail i p). now apply Hpaper.
  - intros liveTrades Hcfg Hget i p Hp Hopen Hstale.
    assert (Hget3 : getOpenTrades rt w3
                    = (Ok liveTrades, snd (getOpenTrades rt w3))).
    { pose proof (getOpenTrades_reply rt w1 w3 Hr3) as Hreply.
      rewrite Hget in Hreply.
      destruct (getOpenTrades rt w3) as [o wl]. cbn in *. now subst o. }
    destruct (Hlive liveTrades _ Hcfg Hget3 i p Hp) as (p4 & Hp4 & Hcase).
    rewrite Hopen, Hstale in Hcase. cbn [andb] in Hcase.
    destruct Hcase as (Hst & Hreason & Hexit & Hpnl).
    destruct (Htail i p4 Hp4) as (p' & Hp' & [->|(Hopen4 & _)]).
    + exists p4. rewrite <- Hlatest. repeat split; assumption.
    + rewrite (closed_not_open sessionId p4 Hst) in Hopen4. discriminate.
Qed.

Lemma reconcile_broker_closed_witness :
  let session := Demo.session running (Demo.cfg 1 3) None in
  let w := Demo.world [session]
             [Demo.position (Some "T1") dir_long;
              Demo.position (Some "T2") dir_long;
              Demo.position None dir_long] in
  let w' := snd (evaluateSession Demo.broker 0 None w) in
  exists closed,
    positions_of w' !! 1%nat = Some closed
    /\ p_status closed = position_closed
    /\ closeReason closed = Some "broker-closed"
    /\ exitPrice closed = Some (parseFloat Demo.broker "110")
    /\ realizedPnl closed = None.
Proof.
  intros session w w'.
  destruct (reconcile_broker_closed Demo.broker 0%nat None w session Demo.rising
              (snd (fetchCandles Demo.broker "EUR_USD" "M5" 8 w))
              eq_refl eq_refl eq_refl eq_refl) as [_ Hstale].
  exact (Hstale [ {| id := Some "T1"; tradeID := None |} ] eq_refl eq_refl
           1%nat (Demo.position (Some "T2") dir_long) eq_refl eq_refl eq_refl).
Defined.
